(** * validate-pyproject: schema registry, reference handler, validator and
    vendoring passes, embedded from [validate_pyproject/api.py] and
    [validate_pyproject/vendoring/__init__.py]. *)

From Stdlib Require Import ZArith String Ascii List Bool Lia.
From stdpp Require Import base option list strings gmap fin_maps.

Local Open Scope string_scope.
Local Open Scope Z_scope.
Local Open Scope list_scope.
Set Warnings "-register-all".

(** ** Python values that appear in schemas

    A parsed JSON document: [json.loads] yields [None], [bool], [int], [str],
    [list] and [dict] with string keys.  A Python [dict] keeps insertion
    order, so objects are association lists read through [Dict.get] and
    written through [Dict.set].  Numbers are integers: no schema handled
    here compares two floats. *)

Inductive json : Type :=
| JNull
| JBool (b : bool)
| JNum (n : Z)
| JStr (s : string)
| JArr (items : list json)
| JObj (fields : list (string * json)).

(** [Schema] is [NewType("Schema", Mapping[str, Any])]. *)
Definition Schema : Type := list (string * json).

Module Dict.
Section Ops.
Context {V : Type}.

(** [d.get(k)] / [d[k]]. *)
Fixpoint get (k : string) (d : list (string * V)) : option V :=
  match d with
  | [] => None
  | (k', v) :: d' => if String.eqb k k' then Some v else get k d'
  end.

(** [k in d]. *)
Definition has (k : string) (d : list (string * V)) : bool :=
  match get k d with Some _ => true | None => false end.

(** [d[k] = v]: an existing key keeps its place, a new key goes last. *)
Fixpoint set (k : string) (v : V) (d : list (string * V)) : list (string * V) :=
  match d with
  | [] => [(k, v)]
  | (k', v') :: d' =>
      if String.eqb k k' then (k, v) :: d' else (k', v') :: set k v d'
  end.
End Ops.
End Dict.

(** Python truth value of a JSON value ([if version ...]). *)
Definition truthy (v : json) : bool :=
  match v with
  | JNull => false
  | JBool b => b
  | JNum n => negb (n =? 0)
  | JStr s => negb (String.eqb s "")
  | JArr l => match l with [] => false | _ => true end
  | JObj o => match o with [] => false | _ => true end
  end.

(** Python [==] on parsed JSON: [bool] is a subclass of [int]
    ([True == 1]), lists compare pointwise, dicts compare as maps
    (same size, same value under every key). *)
Fixpoint py_eqb (a b : json) {struct a} : bool :=
  match a, b with
  | JNull, JNull => true
  | JBool x, JBool y => Bool.eqb x y
  | JBool x, JNum n => Z.b2z x =? n
  | JNum n, JBool x => n =? Z.b2z x
  | JNum x, JNum y => x =? y
  | JStr x, JStr y => String.eqb x y
  | JArr l1, JArr l2 =>
      (fix go (l1 l2 : list json) {struct l1} : bool :=
         match l1, l2 with
         | [], [] => true
         | x :: l1', y :: l2' => py_eqb x y && go l1' l2'
         | _, _ => false
         end) l1 l2
  | JObj o1, JObj o2 =>
      (length o1 =? length o2)%nat &&
      (fix all (o : list (string * json)) {struct o} : bool :=
         match o with
         | [] => true
         | (k, v) :: o' =>
             match Dict.get k o2 with
             | Some v' => py_eqb v v'
             | None => false
             end && all o'
         end) o1
  | _, _ => false
  end.

(** ** Exceptions and results *)

Inductive exn : Type :=
| SchemaMissingId (reference : string)
| InvalidSchemaVersion (reference : string) (version spec_version : json)
| SchemaWithDuplicatedId (sid : string)
| KeyError (key : string)
| TypeError
| AttributeError
| FileNotFoundError (resource : string)
| ImportError (msg : string)
| StopIteration
| OtherError (cls : string).

(** The class name an exception is reported under. *)
Definition exn_class (e : exn) : string :=
  match e with
  | SchemaMissingId _ => "SchemaMissingId"
  | InvalidSchemaVersion _ _ _ => "InvalidSchemaVersion"
  | SchemaWithDuplicatedId _ => "SchemaWithDuplicatedId"
  | KeyError _ => "KeyError"
  | TypeError => "TypeError"
  | AttributeError => "AttributeError"
  | FileNotFoundError _ => "FileNotFoundError"
  | ImportError _ => "ImportError"
  | StopIteration => "StopIteration"
  | OtherError cls => cls
  end.

Inductive result (A : Type) : Type :=
| Ok (a : A)
| Raise (e : exn).
Arguments Ok {A} a.
Arguments Raise {A} e.

#[global] Instance result_ret : MRet result := fun _ a => Ok a.
#[global] Instance result_bind : MBind result := fun _ _ k r =>
  match r with
  | Ok a => k a
  | Raise e => Raise e
  end.

(** [d[k]] on a dict: [KeyError] when the key is absent. *)
Definition getitem {V : Type} (k : string) (d : list (string * V)) : result V :=
  match Dict.get k d with
  | Some v => Ok v
  | None => Raise (KeyError k)
  end.

(** [v[k]] on an arbitrary value with a string subscript: only a dict
    supports it. *)
Definition subscript (v : json) (k : string) : result json :=
  match v with
  | JObj o => getitem k o
  | _ => Raise TypeError
  end.

(** [x in v] for a string [x]: key test on a dict, element test on a list,
    substring test on a string; other values are not containers. *)
Fixpoint is_substring (needle hay : string) : bool :=
  String.prefix needle hay ||
  match hay with
  | EmptyString => false
  | String _ hay' => is_substring needle hay'
  end.

Definition py_in (x : string) (v : json) : result bool :=
  match v with
  | JObj o => Ok (Dict.has x o)
  | JArr l => Ok (existsb (py_eqb (JStr x)) l)
  | JStr s => Ok (is_substring x s)
  | _ => Raise TypeError
  end.

(** [v[k] = x] with a string subscript: only a dict accepts it. *)
Definition setitem (v : json) (k : string) (x : json) : result json :=
  match v with
  | JObj o => Ok (JObj (Dict.set k x o))
  | _ => Raise TypeError
  end.

(** [v.setdefault(k, default)]: the dict after the call and the value
    returned.  Only a dict has the method. *)
Definition setdefault (v : json) (k : string) (default : json)
  : result (list (string * json) * json) :=
  match v with
  | JObj o =>
      match Dict.get k o with
      | Some x => Ok (o, x)
      | None => Ok (Dict.set k default o, default)
      end
  | _ => Raise AttributeError
  end.

(** Keys of [SchemaRegistry._schemas] are [str] ([Dict[str, ...]]).  A list
    or a dict as [$id] is unhashable and raises [TypeError] at the first dict
    operation on it; other non-string ids fall outside the annotated type and
    are refused here in the same way. *)
Definition as_key (sid : json) : result string :=
  match sid with
  | JStr s => Ok s
  | _ => Raise TypeError
  end.

(** ** Logging

    [_logger.info] and [_logger.warning] append a record to the log; an
    exception leaves the records written before it in place. *)

Inductive level : Type := INFO | WARNING.

Definition log_record : Type := (level * string)%type.

Definition M (A : Type) : Type :=
  list log_record -> result A * list log_record.

#[global] Instance M_ret : MRet M := fun _ a log => (Ok a, log).
#[global] Instance M_bind : MBind M := fun _ _ k m log =>
  match m log with
  | (Ok a, log') => k a log'
  | (Raise e, log') => (Raise e, log')
  end.

Definition lift {A : Type} (r : result A) : M A := fun log => (r, log).

Definition emit (lv : level) (msg : string) : M unit :=
  fun log => (Ok tt, log ++ [(lv, msg)]).

(** ** Plugins *)

Section WithFormatFn.
(** [FormatValidationFn]; the registry never calls one. *)
Context {FormatFn : Type}.

Record Plugin : Type := {
  plugin_module : string;          (* [plugin.__module__] *)
  plugin_qualname : string;        (* [plugin.__class__.__qualname__] *)
  tool_name : string;
  tool_schema : Schema;
  (* [None] when [hasattr(p, "format_validators")] is false *)
  format_validators : option (gmap string FormatFn);
}.

Definition plugin_id (plugin : Plugin) : string :=
  plugin_module plugin +:+ "." +:+ plugin_qualname plugin.
End WithFormatFn.
Arguments Plugin FormatFn : clear implicits.

(** ** SchemaRegistry *)

Definition TOP_LEVEL_SCHEMA : string := "pyproject_toml".
Definition PROJECT_TABLE_SCHEMA : string := "pep621_project".
Definition __name__ : string := "validate_pyproject.api".

(** One value of [_schemas]: (which part of the TOML, who defines, schema). *)
Definition entry : Type := (string * string * Schema)%type.

Record SchemaRegistry : Type := {
  _schemas : gmap string entry;
  _spec_version : json;
  _main_id : string;
}.

Definition spec_version (self : SchemaRegistry) : json := _spec_version self.

(** [SchemaRegistry._ensure_compatibility], reading [self.spec_version] and
    [self._schemas]. *)
Definition _ensure_compatibility (spec : json) (schemas : gmap string entry)
    (reference : string) (schema : Schema) : result Schema :=
  if negb (Dict.has "$id" schema) then Raise (SchemaMissingId reference)
  else
    let version := default JNull (Dict.get "$schema" schema) in
    if truthy version && negb (py_eqb version spec)
    then Raise (InvalidSchemaVersion reference version spec)
    else
      sid ← getitem "$id" schema;
      key ← as_key sid;
      if decide (is_Some (schemas !! key))
      then Raise (SchemaWithDuplicatedId key)
      else Ok schema.

(** [self._schemas[key][-1]]. *)
Definition registry_getitem (self : SchemaRegistry) (key : string)
  : result Schema :=
  match _schemas self !! key with
  | Some e => Ok (snd e)
  | None => Raise (KeyError key)
  end.

Definition registry_main (self : SchemaRegistry) : result Schema :=
  registry_getitem self (_main_id self).

Definition registry_len (self : SchemaRegistry) : nat := size (_schemas self).

Section Registry.
Context {FormatFn : Type}.
(** [load]: the schema resources shipped with the package
    ([<name>.schema.json]) are read from disk. *)
Variable load : string -> result Schema.

(** One turn of the loop over [plugins]: the state is [self._schemas] and
    the dict [tool_properties]. *)
Definition add_plugin (spec : json)
    (st : gmap string entry * json) (plugin : Plugin FormatFn)
  : M (gmap string entry * json) :=
  let '(schemas, tool_properties) := st in
  let pid := plugin_id plugin in
  let tool := tool_name plugin in
  let schema := tool_schema plugin in
  known ← lift (py_in tool tool_properties);
  _ ← (if known : bool
       then emit WARNING (pid +:+ " overwrites `tool." +:+ tool +:+ "` schema")
       else emit INFO (pid +:+ " defines `tool." +:+ tool +:+ "` schema"));
  checked ← lift (_ensure_compatibility spec schemas tool schema);
  sid ← lift (getitem "$id" checked);
  tool_properties' ← lift (setitem tool_properties tool (JObj [("$ref", sid)]));
  key ← lift (as_key sid);
  mret (<[key := ("tool." +:+ tool, pid, schema)]> schemas, tool_properties').

Fixpoint add_plugins (spec : json) (plugins : list (Plugin FormatFn))
    (st : gmap string entry * json) : M (gmap string entry * json) :=
  match plugins with
  | [] => mret st
  | plugin :: rest => st' ← add_plugin spec st plugin; add_plugins spec rest st'
  end.

(** [SchemaRegistry.__init__].  [top_properties], the [tool] dict and
    [tool_properties] are the dicts nested in [top_level], not copies:
    what the loop stores in [tool_properties] is seen through
    [top_level] when the root schema is frozen, so the root is rebuilt
    here along the path [properties] / [tool] / [properties]. *)
Definition SchemaRegistry_init (plugins : list (Plugin FormatFn))
  : M SchemaRegistry :=
  top_level ← lift (load TOP_LEVEL_SCHEMA);
  spec ← lift (getitem "$schema" top_level);
  top_properties ← lift (getitem "properties" top_level);
  tool_dict ← lift (subscript top_properties "tool");
  '(tool_dict, tool_properties) ←
    lift (setdefault tool_dict "properties" (JObj []));
  project_table_schema ← lift (load PROJECT_TABLE_SCHEMA);
  _ ← lift (_ensure_compatibility spec ∅ PROJECT_TABLE_SCHEMA
              project_table_schema);
  sid ← lift (getitem "$id" project_table_schema);
  let top_level := Dict.set "project" (JObj [("$ref", sid)]) top_level in
  key ← lift (as_key sid);
  let schemas : gmap string entry :=
    {[ key := ("project", __name__ +:+ " - PEP621", project_table_schema) ]} in
  '(schemas, tool_properties) ←
    add_plugins spec plugins (schemas, tool_properties);
  main_id ← lift (getitem "$id" top_level);
  main_key ← lift (as_key main_id);
  top_properties ← lift (setitem top_properties "tool"
                           (JObj (Dict.set "properties" tool_properties tool_dict)));
  let main_schema : Schema := Dict.set "properties" top_properties top_level in
  mret {| _schemas :=
            <[main_key := ("<$ROOT>", __name__ +:+ " - PEP517/518", main_schema)]>
              schemas;
          _spec_version := spec;
          _main_id := main_key |}.
End Registry.

(** ** RefHandler *)

Record RefHandler : Type := {
  _uri_schemas : list string;
  _registry : SchemaRegistry;
}.

Definition RefHandler_init (registry : SchemaRegistry) : RefHandler :=
  {| _uri_schemas := ["http"; "https"]; _registry := registry |}.

(** [RefHandler.__contains__]: the answer and the handler after the call.
    The key is any Python value; [isinstance(key, str)] holds for [JStr]
    only. *)
Definition RefHandler_contains (key : json) (self : RefHandler)
  : bool * RefHandler :=
  match key with
  | JStr k =>
      (true,
       if decide (k ∈ _uri_schemas self) then self
       else {| _uri_schemas := _uri_schemas self ++ [k];
               _registry := _registry self |})
  | _ => (false, self)
  end.

Definition RefHandler_iter (self : RefHandler) : list string :=
  _uri_schemas self.

Definition RefHandler_len (self : RefHandler) : nat :=
  length (_uri_schemas self).

(** [RefHandler.__getitem__] returns the bound method
    [self._registry.__getitem__]. *)
Definition RefHandler_getitem (key : string) (self : RefHandler)
  : string -> result Schema :=
  registry_getitem (_registry self).

(** ** Validator *)

(** [dict(items)]: pairs are stored one after the other, a later pair of
    the same key replaces the earlier one. *)
Definition py_dict {V : Type} (items : list (string * V)) : gmap string V :=
  fold_left (fun d kv => <[kv.1 := kv.2]> d) items ∅.

Inductive plugins_arg (P : Type) : Type :=
| ALL_PLUGINS
| Plugins (plugins : list P).
Arguments ALL_PLUGINS {P}.
Arguments Plugins {P} plugins.

Section Validator.
(** [FormatValidationFn], the document type [T] and whatever the
    validation functions can observe and change when they run. *)
Context {FormatFn T World : Type}.

(** [ValidationFn]: returns the document or raises, with effects. *)
Definition ValidationFn : Type := T -> World -> result T * World.

Variable load : string -> result Schema.
(** [plugins.list_from_entry_points]. *)
Variable list_from_entry_points : result (list (Plugin FormatFn)).
(** [fastjsonschema.compile(schema, handlers, formats)]; the compiler
    queries [handlers], which a membership test may change. *)
Variable FJS_compile :
  Schema -> RefHandler -> gmap string FormatFn ->
  result ValidationFn * RefHandler.

Record Validator : Type := {
  _cache : option ValidationFn;
  _format_validators : option (gmap string FormatFn);
  _in_format_validators : gmap string FormatFn;
  _in_extra_validations : list ValidationFn;
  plugins : list (Plugin FormatFn);
  _schema_registry : SchemaRegistry;
  handlers : RefHandler;
}.

Definition Validator_init (plugins : plugins_arg (Plugin FormatFn))
    (format_validators : gmap string FormatFn)
    (extra_validations : list ValidationFn) : M Validator :=
  plugins ← match plugins with
            | ALL_PLUGINS => lift list_from_entry_points
            | Plugins l => mret l
            end;
  registry ← SchemaRegistry_init load plugins;
  mret {| _cache := None;
          _format_validators := None;
          _in_format_validators := format_validators;
          _in_extra_validations := extra_validations;
          plugins := plugins;
          _schema_registry := registry;
          handlers := RefHandler_init registry |}.

Definition Validator_schema (self : Validator) : result Schema :=
  registry_main (_schema_registry self).

Definition Validator_extra_validations (self : Validator)
  : list ValidationFn :=
  _in_extra_validations self.

(** [_chain_iter(p.format_validators.items() for p in self.plugins
    if hasattr(p, "format_validators"))]. *)
Definition plugin_format_items (ps : list (Plugin FormatFn))
  : list (string * FormatFn) :=
  concat (omap (fun p => map_to_list <$> format_validators p) ps).

Definition set_format_validators (self : Validator)
    (v : option (gmap string FormatFn)) : Validator :=
  {| _cache := _cache self;
     _format_validators := v;
     _in_format_validators := _in_format_validators self;
     _in_extra_validations := _in_extra_validations self;
     plugins := plugins self;
     _schema_registry := _schema_registry self;
     handlers := handlers self |}.

(** The [formats] property: the mapping and the validator with its cache
    filled. *)
Definition Validator_formats (self : Validator)
  : gmap string FormatFn * Validator :=
  match _format_validators self with
  | None =>
      let formats :=
        py_dict (map_to_list (_in_format_validators self)
                 ++ plugin_format_items (plugins self)) in
      (formats, set_format_validators self (Some formats))
  | Some formats => (formats, self)
  end.

Definition Validator_getitem (self : Validator) (schema_id : string)
  : result Schema :=
  registry_getitem (_schema_registry self) schema_id.

(** [reduce(lambda acc, fn: fn(acc), fns, acc)]. *)
Fixpoint reduce (fns : list ValidationFn) (acc : T) (w : World)
  : result T * World :=
  match fns with
  | [] => (Ok acc, w)
  | fn :: rest =>
      match fn acc w with
      | (Ok acc', w') => reduce rest acc' w'
      | (Raise e, w') => (Raise e, w')
      end
  end.

Definition set_cache (self : Validator) (fn : option ValidationFn)
    (h : RefHandler) : Validator :=
  {| _cache := fn;
     _format_validators := _format_validators self;
     _in_format_validators := _in_format_validators self;
     _in_extra_validations := _in_extra_validations self;
     plugins := plugins self;
     _schema_registry := _schema_registry self;
     handlers := h |}.

(** The first half of [__call__]: the compiled function, from the cache
    or compiled now ([self.schema], [self.handlers], [self.formats] are
    evaluated in this order). *)
Definition compiled (self : Validator) : result ValidationFn * Validator :=
  match _cache self with
  | Some fn => (Ok fn, self)
  | None =>
      match Validator_schema self with
      | Raise e => (Raise e, self)
      | Ok schema =>
          let '(formats, self) := Validator_formats self in
          match FJS_compile schema (handlers self) formats with
          | (Ok fn, h) => (Ok fn, set_cache self (Some fn) h)
          | (Raise e, h) => (Raise e, set_cache self None h)
          end
      end
  end.

(** [Validator.__call__]. *)
Definition Validator_call (self : Validator) (pyproject : T) (w : World)
  : result T * Validator * World :=
  match compiled self with
  | (Raise e, self) => (Raise e, self, w)
  | (Ok fn, self) =>
      match fn pyproject w with
      | (Raise e, w) => (Raise e, self, w)
      | (Ok _, w) =>
          let '(r, w) := reduce (Validator_extra_validations self) pyproject w in
          (r, self, w)
      end
  end.
End Validator.

(** ** Text operations used by the vendoring passes *)

(** [s.replace(old, new)] for a non-empty [old]: occurrences are found
    left to right and do not overlap.  [skip] counts the characters of
    the occurrence under replacement that are still to be dropped. *)
Fixpoint replace_from (old new : string) (skip : nat) (s : string) : string :=
  match s with
  | EmptyString => EmptyString
  | String c s' =>
      match skip with
      | S k => replace_from old new k s'
      | O =>
          if String.prefix old s
          then new +:+ replace_from old new (String.length old - 1) s'
          else String c (replace_from old new 0 s')
      end
  end.

(** With an empty [old], [new] goes before every character and at the end. *)
Fixpoint replace_empty (new s : string) : string :=
  match s with
  | EmptyString => new
  | String c s' => new +:+ String c (replace_empty new s')
  end.

Definition str_replace (old new s : string) : string :=
  match old with
  | EmptyString => replace_empty new s
  | _ => replace_from old new 0 s
  end.

Definition newline : ascii := ascii_of_nat 10.
Definition NL : string := String newline EmptyString.

(** The lines of a text, cut at every line feed. *)
Fixpoint split_lines (s : string) : list string :=
  match s with
  | EmptyString => [EmptyString]
  | String c s' =>
      if Ascii.eqb c newline then EmptyString :: split_lines s'
      else match split_lines s' with
           | l :: ls => String c l :: ls
           | [] => [String c EmptyString]
           end
  end.

Fixpoint ends_with_char (c : ascii) (s : string) : bool :=
  match s with
  | EmptyString => false
  | String c' EmptyString => Ascii.eqb c c'
  | String _ s' => ends_with_char c s'
  end.

Definition drop_last (s : string) : string :=
  String.substring 0 (String.length s - 1) s.

(** One position of a regular expression that consumes one character:
    [Some c] is the character [c] itself, [None] is the dot, which matches
    any character but a line feed. *)
Definition atom_matches (a : option ascii) (b : ascii) : bool :=
  match a with
  | Some c => Ascii.eqb c b
  | None => negb (Ascii.eqb b newline)
  end.

Definition atoms_of (s : string) : list (option ascii) :=
  map Some (list_ascii_of_string s).

(** What follows a match of the atoms [p] at the start of [s]. *)
Fixpoint strip_atoms (p : list (option ascii)) (s : string) : option string :=
  match p with
  | [] => Some s
  | a :: p' =>
      match s with
      | EmptyString => None
      | String b s' => if atom_matches a b then strip_atoms p' s' else None
      end
  end.

(** ** Vendoring: patching the generated code *)

Definition NOCHECK_HEADERS : list string :=
  [ "# noqa";
    "# type: ignore";
    "# flake8: noqa";
    "# pylint: skip-file";
    "# mypy: ignore-errors";
    "# yapf: disable";
    "# pylama:skip=1";
    NL +:+ NL
      +:+ "# *** PLEASE DO NOT MODIFY DIRECTLY: Automatically generated code *** "
      +:+ NL +:+ NL +:+ NL ].

(** [PICKLED_PATTERNS]: a caret, the text [REGEX_PATTERNS = pickle], a
    dot (not escaped, so any character), the text [loads] and an escaped
    opening parenthesis, group 1 (any run of characters matched by a dot),
    an escaped closing parenthesis and a dollar, compiled under [re.M].
    The caret and the dollar stand at the two ends of a line and the dot
    matches anything but a line feed, so a match is a whole line that
    starts as [PICKLED_HEAD] says and ends with a closing parenthesis;
    group 1 is what lies between. *)
Definition PICKLED_HEAD : list (option ascii) :=
  atoms_of "REGEX_PATTERNS = pickle" ++ [None] ++ atoms_of "loads(".

Definition match_pickled_line (line : string) : option string :=
  match strip_atoms PICKLED_HEAD line with
  | Some rest => if ends_with_char ")" rest then Some (drop_last rest) else None
  | None => None
  end.

(** [PICKLED_PATTERNS_REGEX.search(code)]: groups 0 and 1 of the leftmost
    match. *)
Fixpoint first_pickled (ls : list string) : option (string * string) :=
  match ls with
  | [] => None
  | l :: ls' =>
      match match_pickled_line l with
      | Some g1 => Some (l, g1)
      | None => first_pickled ls'
      end
  end.

Definition search_pickled (code : string) : option (string * string) :=
  first_pickled (split_lines code).

(** A compiled regular expression, as far as [_repr_regex] reads it. *)
Record Pattern : Type := {
  pattern : string;
  flags : Z;
}.

Definition all_flags : list string := ["A"; "I"; "DEBUG"; "L"; "M"; "S"; "X"].

Section FixGeneratedCode.
(** [getattr(re, f)]: the value of a flag of the [re] module. *)
Variable re_flag : string -> Z.
(** [repr] of a [str] ([!r] in an f-string). *)
Variable repr : string -> string.
(** [VALIDATION_FN_DEF.sub(r"\1def validate\2(data, custom_formats):", code)],
    run by the [re] engine. *)
Variable sub_validation_fn_def : string -> string.
(** [ast.literal_eval] on the source of a bytes literal, and
    [pickle.loads(...).items()] on the bytes. *)
Variable literal_eval : string -> result string.
Variable pickle_loads : string -> result (list (string * Pattern)).

(** The names [f] of [all_flags] with [regex.flags & getattr(re, f)]
    non-zero. *)
Definition flags_set (regex : Pattern) : list string :=
  filter (fun f => Z.land (flags regex) (re_flag f) ≠ 0) all_flags.

Definition _repr_regex (regex : Pattern) : string :=
  let flags := String.concat " | " (map (fun f => "re." +:+ f) (flags_set regex)) in
  let flags := if negb (String.eqb flags "") then ", " +:+ flags else "" in
  "re.compile(" +:+ repr (pattern regex) +:+ flags +:+ ")".

Definition regex_entry (kv : string * Pattern) : string :=
  repr kv.1 +:+ ": " +:+ _repr_regex kv.2.

Definition regex_table (regexes : list (string * Pattern)) : string :=
  "REGEX_PATTERNS = "
    +:+ ("{" +:+ NL +:+ "    "
         +:+ String.concat ("," +:+ NL +:+ "    ") (map regex_entry regexes)
         +:+ NL +:+ "}").

Definition _fix_generated_code (code : string) : result string :=
  let code := sub_validation_fn_def code in
  code ←
    match search_pickled code with
    | Some (group0, group1) =>
        pickled_regexes ← literal_eval group1;
        regexes ← pickle_loads pickled_regexes;
        let subst := regex_table regexes in
        let code := str_replace group0 subst code in
        mret (str_replace "import re, pickle" "import re" code)
    | None => mret code
    end;
  mret (String.concat NL NOCHECK_HEADERS +:+ code).
End FixGeneratedCode.

(** ** Vendoring: the pipeline *)

Definition TEXT_REPLACEMENTS : list (string * string) :=
  [("from fastjsonschema import", "from .fastjsonschema_exceptions import")].

(** [{**a, **b}]. *)
Definition dict_merge {V : Type} (a b : list (string * V)) : list (string * V) :=
  fold_left (fun d kv => Dict.set kv.1 kv.2 d) b a.

Fixpoint replace_text (text : string) (replacements : list (string * string))
  : string :=
  match replacements with
  | [] => text
  | (orig, subst) :: rest =>
      replace_text
        (if negb (String.eqb subst orig) then str_replace orig subst text else text)
        rest
  end.

(** A call to the file system that fails: the exception it raises and,
    for a write that fails once the file is open, what the file is left
    with ([None] when the file was not opened). *)
Record failure : Type := {
  raised : exn;
  left_in_file : option string;
}.

(** What the pipeline acts on: the files on disk (file to content), the
    log, and what the file system has in store for the calls to come, one
    outcome per call, [None] for a call that goes through; the calls
    beyond the list go through.  Directories are not files of [world]. *)
Record world : Type := {
  files : gmap string string;
  logs : list log_record;
  outcomes : list (option failure);
}.

Definition V (A : Type) : Type := world -> result A * world.

#[global] Instance V_ret : MRet V := fun _ a w => (Ok a, w).
#[global] Instance V_bind : MBind V := fun _ _ k m w =>
  match m w with
  | (Ok a, w') => k a w'
  | (Raise e, w') => (Raise e, w')
  end.

Definition liftR {A : Type} (r : result A) : V A := fun w => (r, w).

Definition liftM {A : Type} (m : M A) : V A := fun w =>
  let '(r, l) := m (logs w) in
  (r, {| files := files w; logs := l; outcomes := outcomes w |}).

Definition raise {A : Type} (e : exn) : V A := fun w => (Raise e, w).

(** The outcome of the call to the file system that comes next. *)
Definition next_outcome : V (option failure) := fun w =>
  match outcomes w with
  | [] => (Ok None, w)
  | o :: rest =>
      (Ok o, {| files := files w; logs := logs w; outcomes := rest |})
  end.

Definition set_file (path text : string) : V unit := fun w =>
  (Ok tt, {| files := <[path := text]> (files w); logs := logs w;
             outcomes := outcomes w |}).

(** [path.write_text(text, "UTF-8")]: the file is opened for writing,
    which empties it, and the text is written.  A failure to open the file
    leaves it alone; a failure after that leaves in it what was written
    until then. *)
Definition write_text (path text : string) : V unit :=
  o ← next_outcome;
  match o with
  | None => set_file path text
  | Some f =>
      _ ← match left_in_file f with
          | Some part => set_file path part
          | None => mret tt
          end;
      raise (raised f)
  end.

(** [path.touch()]: an existing file keeps its content, a missing one is
    created empty; a failure changes nothing. *)
Definition touch (path : string) : V unit :=
  o ← next_outcome;
  match o with
  | Some f => raise (raised f)
  | None =>
      fun w =>
        match files w !! path with
        | Some _ => (Ok tt, w)
        | None => set_file path "" w
        end
  end.

(** [path.mkdir(parents=True, exist_ok=True)]: no file is changed. *)
Definition mkdir (path : string) : V unit :=
  o ← next_outcome;
  match o with
  | Some f => raise (raised f)
  | None => mret tt
  end.

(** An [importlib.metadata.PackagePath], as far as the pipeline reads it. *)
Record PackagePath : Type := {
  stem : string;
  read_text_of : result string;
}.

Definition api_package : string := "validate_pyproject".
Definition vendoring_name : string := "validate_pyproject.vendoring".

Section Vendoring.
Context {FormatFn T World : Type}.
Variable load : string -> result Schema.
Variable list_from_entry_points : result (list (Plugin FormatFn)).
(** [FORMAT_FUNCTIONS] and [EXTRA_VALIDATIONS], the defaults of
    [Validator]. *)
Variable FORMAT_FUNCTIONS : gmap string FormatFn.
Variable EXTRA_VALIDATIONS : list (@ValidationFn T World).
(** [fastjsonschema.compile_to_code(schema, handlers, formats)]. *)
Variable FJS_compile_to_code :
  Schema -> RefHandler -> gmap string FormatFn -> result string * RefHandler.
Variable re_flag : string -> Z.
Variable repr : string -> string.
Variable sub_validation_fn_def : string -> string.
Variable literal_eval : string -> result string.
Variable pickle_loads : string -> result (list (string * Pattern)).
(** [api.read_text(package, resource)]. *)
Variable read_text : string -> string -> result string.
(** [template.format] with keyword arguments. *)
Variable str_format : string -> list (string * string) -> result string.
(** [str.upper]. *)
Variable upper : string -> string.
(** [importlib.metadata.files(distribution)] and [dist_name]. *)
Variable metadata_files : string -> result (option (list PackagePath)).
Variable dist_name : string.
(** [Path(dir) / name]: the file the joined path names.  [pathlib] drops
    the components [.] of [name] and lets an absolute [name] take the place
    of [dir], and the file system follows links, so that two names may
    stand for one file, in the directory or outside it. *)
Variable path_join : string -> string -> string.

Definition copy_fastjsonschema_exceptions (output_dir : string)
    (replacements : list (string * string)) : V string :=
  let file := path_join output_dir "fastjsonschema_exceptions.py" in
  code ← liftR (read_text "fastjsonschema" "exceptions.py");
  let code := replace_text code replacements in
  _ ← write_text file code;
  mret file.

Definition copy_module (name output_dir : string)
    (replacements : list (string * string)) : V string :=
  let file := path_join output_dir (name +:+ ".py") in
  code ← liftR (read_text api_package (name +:+ ".py"));
  let code := replace_text code replacements in
  _ ← write_text file code;
  mret file.

Definition write_main (file_path : string) (schema : Schema)
    (replacements : list (string * string)) : V string :=
  _ ← touch file_path;
  mret file_path.

(** [next(f for f in files if f.stem.upper() == "LICENSE")]. *)
Fixpoint next_license (files : list PackagePath) : result PackagePath :=
  match files with
  | [] => Raise StopIteration
  | f :: rest =>
      if String.eqb (upper (stem f)) "LICENSE" then Ok f else next_license rest
  end.

Definition _find_and_load_licence (files : option (list PackagePath))
  : result string :=
  match files with
  | None => Raise (ImportError "Could not find LICENSE for package")
  | Some files => f ← next_license files; read_text_of f
  end.

Definition load_licenses : result (list (string * string)) :=
  fjs_files ← metadata_files "fastjsonschema";
  fjs ← _find_and_load_licence fjs_files;
  own_files ← metadata_files dist_name;
  own ← _find_and_load_licence own_files;
  mret [("fastjsonschema_license", fjs); ("validate_pyproject_license", own)].

Definition write_notice (out main_file cmd : string)
    (replacements : list (string * string)) : V string :=
  opening ←
    (if negb (String.eqb cmd "")
     then liftR (opening ← read_text vendoring_name "cli-notice.template";
                 str_format opening [("command", cmd)])
     else liftR (read_text vendoring_name "api-notice.template"));
  notice ← liftR (read_text vendoring_name "NOTICE.template");
  licenses ← liftR load_licenses;
  notice ← liftR (str_format notice
                    ([("notice", opening); ("main_file", main_file)] ++ licenses));
  let notice := replace_text notice replacements in
  let file := path_join out "NOTICE" in
  _ ← write_text file notice;
  mret file.

(** [vendorify].  [FJS_compile_to_code] is handed [validator.handlers] and
    may query it. *)
Definition vendorify (output_dir main_file original_cmd : string)
    (plugins : plugins_arg (Plugin FormatFn))
    (text_replacements : list (string * string)) : V string :=
  let out := output_dir in
  _ ← mkdir out;
  let replacements := dict_merge TEXT_REPLACEMENTS text_replacements in
  validator ← liftM (Validator_init load list_from_entry_points plugins
                        FORMAT_FUNCTIONS EXTRA_VALIDATIONS);
  schema ← liftR (Validator_schema validator);
  let '(formats, validator) := Validator_formats validator in
  code ← liftR (FJS_compile_to_code schema (handlers validator) formats).1;
  code ← liftR (_fix_generated_code re_flag repr sub_validation_fn_def
                   literal_eval pickle_loads code);
  let code := replace_text code replacements in
  _ ← write_text (path_join out "fastjsonschema_validations.py") code;
  _ ← copy_fastjsonschema_exceptions out replacements;
  _ ← copy_module "extra_validations" out replacements;
  _ ← copy_module "format" out replacements;
  schema ← liftR (Validator_schema validator);
  _ ← write_main (path_join out main_file) schema replacements;
  _ ← write_notice out main_file original_cmd replacements;
  _ ← touch (path_join out "__init__.py");
  mret out.
End Vendoring.

(** ** Notions used in the statements *)

(** The [$id] of a fragment, when it has one and it is a string. *)
Definition schema_id (schema : Schema) : option string :=
  match Dict.get "$id" schema with
  | Some (JStr k) => Some k
  | _ => None
  end.

(** The spec-version test of [_ensure_compatibility] lets the fragment
    through. *)
Definition version_ok (spec : json) (schema : Schema) : bool :=
  let version := default JNull (Dict.get "$schema" schema) in
  negb (truthy version && negb (py_eqb version spec)).

(** A fragment that passes the first two tests of [_ensure_compatibility]
    and has the id [k]. *)
Definition fragment_ok (spec : json) (schema : Schema) (k : string) : Prop :=
  schema_id schema = Some k ∧ version_ok spec schema = true.

(** The two schema resources as [SchemaRegistry.__init__] needs them: the
    top-level schema gives the spec version, an object under
    [properties.tool] whose own [properties], if any, is an object, and a
    string [$id]; the project-table schema is a compatible fragment. *)
Record core_schemas (load : string -> result Schema) (spec : json)
    (top project : Schema) (props tool_dict tool_props : list (string * json))
    (top_id project_id : string) : Prop := {
  core_top : load TOP_LEVEL_SCHEMA = Ok top;
  core_spec : Dict.get "$schema" top = Some spec;
  core_props : Dict.get "properties" top = Some (JObj props);
  core_tool : Dict.get "tool" props = Some (JObj tool_dict);
  core_tool_props :
    Dict.get "properties" tool_dict = Some (JObj tool_props)
    ∨ (Dict.get "properties" tool_dict = None ∧ tool_props = []);
  core_top_id : Dict.get "$id" top = Some (JStr top_id);
  core_project : load PROJECT_TABLE_SCHEMA = Ok project;
  core_project_ok : fragment_ok spec project project_id;
}.

(** The reference a plugin of tool name [tool] leaves in [tool_properties]. *)
Definition ref_to (sid : string) : json := JObj [("$ref", JStr sid)].

(** What a loop over compatible plugins with fresh ids leaves behind: the
    id a plugin registers under, the references mounted in
    [tool_properties], the entries stored in [_schemas] and the records
    logged. *)
Section Expected.
Context {FormatFn : Type}.

Definition plugin_sid (p : Plugin FormatFn) : string :=
  default "" (schema_id (tool_schema p)).

Definition plugin_ok (spec : json) (p : Plugin FormatFn) : Prop :=
  fragment_ok spec (tool_schema p) (plugin_sid p).

Definition plugin_entry (p : Plugin FormatFn) : entry :=
  ("tool." +:+ tool_name p, plugin_id p, tool_schema p).

Definition announce (tp : list (string * json)) (p : Plugin FormatFn)
  : log_record :=
  if Dict.has (tool_name p) tp
  then (WARNING,
        plugin_id p +:+ " overwrites `tool." +:+ tool_name p +:+ "` schema")
  else (INFO,
        plugin_id p +:+ " defines `tool." +:+ tool_name p +:+ "` schema").

Definition mount (tp : list (string * json)) (p : Plugin FormatFn)
  : list (string * json) :=
  Dict.set (tool_name p) (ref_to (plugin_sid p)) tp.

Definition mounted (tp : list (string * json)) (ps : list (Plugin FormatFn))
  : list (string * json) :=
  fold_left mount ps tp.

Definition registered (schemas : gmap string entry)
    (ps : list (Plugin FormatFn)) : gmap string entry :=
  fold_left (fun m p => <[plugin_sid p := plugin_entry p]> m) ps schemas.

Fixpoint announcements (tp : list (string * json))
    (ps : list (Plugin FormatFn)) : list log_record :=
  match ps with
  | [] => []
  | p :: ps' => announce tp p :: announcements (mount tp p) ps'
  end.
End Expected.

(** The root schema once the loop is over, seen through [top_level]:
    [tool_properties] sits under [properties] / [tool] / [properties]. *)
Definition root_schema (top : Schema) (props tool_dict : list (string * json))
    (project_id : string) (tool_properties : json) : Schema :=
  Dict.set "properties"
    (JObj (Dict.set "tool" (JObj (Dict.set "properties" tool_properties tool_dict))
             props))
    (Dict.set "project" (ref_to project_id) top).

(** [root["properties"]["tool"]["properties"][x]]: where the root schema
    sends the table [tool.x]. *)
Definition root_tool_property (root : Schema) (x : string) : result json :=
  props ← getitem "properties" root;
  tool ← subscript props "tool";
  tool_properties ← subscript tool "properties";
  subscript tool_properties x.

Definition project_entry (project : Schema) : entry :=
  ("project", __name__ +:+ " - PEP621", project).

Definition root_entry (root : Schema) : entry :=
  ("<$ROOT>", __name__ +:+ " - PEP517/518", root).

(** The registry returned when the loop ends with [schemas] and
    [tool_properties]: the root schema is stored last, under its own id. *)
Definition finish (spec : json) (top : Schema)
    (props tool_dict : list (string * json)) (top_id project_id : string)
    (schemas : gmap string entry) (tool_properties : json) : SchemaRegistry :=
  {| _schemas :=
       <[top_id := root_entry
                     (root_schema top props tool_dict project_id
                        tool_properties)]> schemas;
     _spec_version := spec;
     _main_id := top_id |}.

(** The first id of a sequence that was seen before, if any. *)
Fixpoint first_repeat (seen ids : list string) : option string :=
  match ids with
  | [] => None
  | k :: rest =>
      if decide (k ∈ seen) then Some k else first_repeat (k :: seen) rest
  end.

(** The handler after a run of membership tests. *)
Definition queries (keys : list json) (h : RefHandler) : RefHandler :=
  fold_left (fun h key => (RefHandler_contains key h).2) keys h.

(** The format mapping as the specification words it: start from the
    mapping the caller supplied and merge the [format_validators] of each
    plugin that declares some, in plugin order, the entries merged later
    replacing those already there ([fv ∪ acc] keeps the entries of [fv]). *)
Definition merged_formats {FormatFn : Type} (supplied : gmap string FormatFn)
    (ps : list (Plugin FormatFn)) : gmap string FormatFn :=
  fold_left
    (fun acc p =>
       match format_validators p with
       | Some fv => fv ∪ acc
       | None => acc
       end)
    ps supplied.

(** The cache of [formats] is empty or holds what [formats] computes. *)
Definition formats_cache_ok {FormatFn T World : Type}
    (self : @Validator FormatFn T World) : Prop :=
  ∀ f, _format_validators self = Some f →
       f = py_dict (map_to_list (_in_format_validators self)
                    ++ plugin_format_items (plugins self)).

(** No licence can be found among the package files of a dependency: the
    files are unavailable, or none of them has the stem [LICENSE] once put
    in upper case. *)
Definition license_missing (upper : string -> string)
    (files : option (list PackagePath)) : Prop :=
  match files with
  | None => True
  | Some l => Forall (fun f => upper (stem f) ≠ "LICENSE") l
  end.

(** The licence of one of the two embedded dependencies is missing: that
    of [fastjsonschema], or that of the distribution itself once the first
    one was loaded. *)
Definition attribution_missing (upper : string -> string)
    (metadata_files : string -> result (option (list PackagePath)))
    (dist_name : string) : Prop :=
  (∃ files, metadata_files "fastjsonschema" = Ok files
            ∧ license_missing upper files)
  ∨ (∃ files1 text files,
       metadata_files "fastjsonschema" = Ok files1
       ∧ _find_and_load_licence upper files1 = Ok text
       ∧ metadata_files dist_name = Ok files
       ∧ license_missing upper files).

(** No occurrence of [old] in [pre +:+ rest] starts inside [pre]. *)
Fixpoint absent_before (old pre rest : string) : bool :=
  match pre with
  | EmptyString => true
  | String _ pre' =>
      negb (String.prefix old (pre +:+ rest)) && absent_before old pre' rest
  end.

(** [s] holds no line feed. *)
Fixpoint no_newline (s : string) : bool :=
  match s with
  | EmptyString => true
  | String c s' => negb (Ascii.eqb c newline) && no_newline s'
  end.

(** The first [n] characters of [s] hold no line feed. *)
Fixpoint nl_free_upto (n : nat) (s : string) : bool :=
  match n, s with
  | S k, String c s' => negb (Ascii.eqb c newline) && nl_free_upto k s'
  | _, _ => true
  end.

(** The atoms [p] refuse [j] at a position they both have. *)
Fixpoint mismatch (p : list (option ascii)) (j : string) : bool :=
  match p, j with
  | a :: p', String b j' => if atom_matches a b then mismatch p' j' else true
  | _, _ => false
  end.

(** No non-empty suffix of [p] can match the start of a text that starts
    with [j]. *)
Fixpoint never_starts (j : string) (p : list (option ascii)) : bool :=
  match p with
  | [] => true
  | _ :: p' => mismatch p j && never_starts j p'
  end.

(** The value of [re.F1 | re.F2 | ...] for the flag names listed. *)
Definition flags_value (re_flag : string -> Z) (names : list string) : Z :=
  fold_right (fun f acc => Z.lor (re_flag f) acc) 0 names.

(** The dictionary literal as the specification words it.  The named
    flags set in the flags [x] of a compiled regex, in the order of
    [names]; their names joined by [ | ]; the call that builds the regex
    again from its pattern and these flags; one entry [key: call] per key
    of the table, in the order of the table, one per line. *)
Fixpoint named_flags (re_flag : string -> Z) (x : Z) (names : list string)
  : list string :=
  match names with
  | [] => []
  | f :: rest =>
      if Z.eqb (Z.land x (re_flag f)) 0 then named_flags re_flag x rest
      else f :: named_flags re_flag x rest
  end.

Fixpoint or_of (names : list string) : string :=
  match names with
  | [] => ""
  | [f] => "re." +:+ f
  | f :: rest => "re." +:+ f +:+ " | " +:+ or_of rest
  end.

Definition compile_call (re_flag : string -> Z) (repr : string -> string)
    (regex : Pattern) : string :=
  "re.compile(" +:+ repr (pattern regex)
    +:+ match named_flags re_flag (flags regex) all_flags with
        | [] => ""
        | names => ", " +:+ or_of names
        end
    +:+ ")".

Fixpoint literal_entries (re_flag : string -> Z) (repr : string -> string)
    (regexes : list (string * Pattern)) : string :=
  match regexes with
  | [] => ""
  | [(k, regex)] => repr k +:+ ": " +:+ compile_call re_flag repr regex
  | (k, regex) :: rest =>
      repr k +:+ ": " +:+ compile_call re_flag repr regex +:+ ","
        +:+ NL +:+ "    " +:+ literal_entries re_flag repr rest
  end.

Definition dict_literal (re_flag : string -> Z) (repr : string -> string)
    (regexes : list (string * Pattern)) : string :=
  "REGEX_PATTERNS = {" +:+ NL +:+ "    "
    +:+ literal_entries re_flag repr regexes +:+ NL +:+ "}".

(** The record logged for a plugin whose tool name is new. *)
Definition info_record {FormatFn : Type} (p : Plugin FormatFn) : log_record :=
  (INFO, plugin_id p +:+ " defines `tool." +:+ tool_name p +:+ "` schema").

(** The names [vendorify] joins to the output directory: those of the
    files it writes or touches, those of the files it writes, and those of
    the files it writes or touches before it comes to [NOTICE]. *)
Definition vendored_names (main_file : string) : list string :=
  [ "fastjsonschema_validations.py"; "fastjsonschema_exceptions.py";
    "extra_validations.py"; "format.py"; main_file; "NOTICE"; "__init__.py" ].

Definition written_names : list string :=
  [ "fastjsonschema_validations.py"; "fastjsonschema_exceptions.py";
    "extra_validations.py"; "format.py"; "NOTICE" ].

Definition before_notice (main_file : string) : list string :=
  [ "fastjsonschema_validations.py"; "fastjsonschema_exceptions.py";
    "extra_validations.py"; "format.py"; main_file ].

(** What the pipeline may do to the files [fs0] it started from: a file
    that none of the vendored names stands for is as it was, no file is
    removed, and the package marker keeps its content when no name of a
    file the pipeline writes stands for it. *)
Definition kept (path_join : string -> string -> string)
    (output_dir main_file : string) (fs0 fs : gmap string string) : Prop :=
  (∀ p, (∀ name, name ∈ vendored_names main_file →
                 p ≠ path_join output_dir name) →
        fs !! p = fs0 !! p)
  ∧ (∀ p, is_Some (fs0 !! p) → is_Some (fs !! p))
  ∧ (Forall (fun name => path_join output_dir name
                         ≠ path_join output_dir "__init__.py")
       written_names →
     ∀ c, fs0 !! path_join output_dir "__init__.py" = Some c →
          fs !! path_join output_dir "__init__.py" = Some c).

(** The files the names [names] stand for in the output directory are
    there. *)
Definition present (path_join : string -> string -> string)
    (output_dir : string) (names : list string) (fs : gmap string string)
  : Prop :=
  ∀ name, name ∈ names → is_Some (fs !! path_join output_dir name).

(** The text of the notice before the replacements, as [write_notice]
    computes it. *)
Definition notice_text (read_text : string -> string -> result string)
    (str_format : string -> list (string * string) -> result string)
    (upper : string -> string)
    (metadata_files : string -> result (option (list PackagePath)))
    (dist_name main_file cmd : string) : result string :=
  opening ←
    (if negb (String.eqb cmd "")
     then opening ← read_text vendoring_name "cli-notice.template";
          str_format opening [("command", cmd)]
     else read_text vendoring_name "api-notice.template");
  notice ← read_text vendoring_name "NOTICE.template";
  licenses ← load_licenses upper metadata_files dist_name;
  str_format notice ([("notice", opening); ("main_file", main_file)] ++ licenses).

(** A property of the files only. *)
Definition on_files (I : gmap string string -> Prop) : world -> Prop :=
  fun w => I (files w).

(** What a computation does to the world: started where [P] holds, it
    returns where [Q] holds of its result or raises where [E] holds of its
    exception. *)
Definition triple {A : Type} (P : world -> Prop) (m : V A)
    (Q : A -> world -> Prop) (E : exn -> world -> Prop) : Prop :=
  ∀ w, P w →
       match m w with
       | (Ok a, w') => Q a w'
       | (Raise e, w') => E e w'
       end.

(** ** Sample data *)

Module Sample.
Definition draft07 : string := "http://json-schema.org/draft-07/schema".
Definition top_id : string :=
  "https://packaging.python.org/en/latest/specifications/declaring-build-dependencies/".
Definition project_id : string :=
  "https://packaging.python.org/en/latest/specifications/declaring-project-metadata/".

Definition tool_dict : list (string * json) := [("type", JStr "object")].

Definition props : list (string * json) :=
  [("build-system", JObj [("type", JStr "object")]);
   ("project", JObj [("$ref", JStr project_id)]);
   ("tool", JObj tool_dict)].

Definition top : Schema :=
  [("$schema", JStr draft07); ("$id", JStr top_id);
   ("type", JStr "object"); ("properties", JObj props)].

Definition project : Schema :=
  [("$schema", JStr draft07); ("$id", JStr project_id);
   ("type", JStr "object")].

Definition load (name : string) : result Schema :=
  if String.eqb name TOP_LEVEL_SCHEMA then Ok top
  else if String.eqb name PROJECT_TABLE_SCHEMA then Ok project
  else Raise (FileNotFoundError (name +:+ ".schema.json")).

Definition fmt : Type := string -> bool.

Definition plugin (cls tool : string) (schema : Schema)
    (fv : option (gmap string fmt)) : Plugin fmt :=
  {| plugin_module := "sample.plugins"; plugin_qualname := cls;
     tool_name := tool; tool_schema := schema; format_validators := fv |}.

Definition schema_a : Schema :=
  [("$schema", JStr draft07); ("$id", JStr "https://example.org/a");
   ("type", JStr "object")].
Definition schema_b : Schema :=
  [("$id", JStr "https://example.org/b"); ("type", JStr "object")].
(** Same id as [schema_a], another spec version. *)
Definition schema_a_draft04 : Schema :=
  [("$schema", JStr "http://json-schema.org/draft-04/schema");
   ("$id", JStr "https://example.org/a")].
(** No id, another spec version. *)
Definition schema_noid : Schema :=
  [("$schema", JStr "http://json-schema.org/draft-04/schema");
   ("type", JStr "object")].
(** The id of the top-level schema. *)
Definition schema_top_id : Schema :=
  [("$id", JStr top_id); ("type", JStr "array")].

Definition pa : Plugin fmt := plugin "A" "x" schema_a None.
Definition pb : Plugin fmt := plugin "B" "x" schema_b None.
Definition pa' : Plugin fmt := plugin "A4" "y" schema_a_draft04 None.
Definition pa2 : Plugin fmt := plugin "A2" "z" schema_a None.
Definition ptop : Plugin fmt := plugin "Top" "t" schema_top_id None.

Definition registry : SchemaRegistry :=
  finish (JStr draft07) top props tool_dict top_id project_id
    (registered {[project_id := project_entry project]} [pa; pb])
    (JObj (mounted [] [pa; pb])).

(** Format functions: one supplied by the caller, two by plugins. *)
Definition any_text : fmt := fun _ => true.
Definition no_text : fmt := fun _ => false.
Definition short_text : fmt := fun s => Nat.leb (String.length s) 8.

Definition pf1 : Plugin fmt :=
  plugin "F1" "f1" schema_a (Some {[ "f" := no_text ]}).
Definition pf2 : Plugin fmt :=
  plugin "F2" "f2" schema_b (Some {[ "f" := short_text; "g" := no_text ]}).

(** Documents, and a world that records which functions ran. *)
Definition doc : Type := list (string * json).
Definition trace : Type := list string.

Definition compile (schema : Schema) (h : RefHandler)
    (formats : gmap string fmt)
  : result (@ValidationFn doc trace) * RefHandler :=
  (Ok (fun d w => (Ok d, w ++ ["schema"])), h).

Definition step_a : @ValidationFn doc trace :=
  fun d w => (Ok (Dict.set "a" (JBool true) d), w ++ ["A"]).
Definition step_b : @ValidationFn doc trace :=
  fun d w => (Ok (Dict.set "b" (JBool true) d), w ++ ["B"]).
Definition fail_a : @ValidationFn doc trace :=
  fun d w => (Raise (OtherError "ValueError"), w ++ ["A"]).

Definition validator (ps : list (Plugin fmt))
    (extra : list (@ValidationFn doc trace)) : @Validator fmt doc trace :=
  {| _cache := None;
     _format_validators := None;
     _in_format_validators := {[ "f" := any_text; "h" := any_text ]};
     _in_extra_validations := extra;
     plugins := ps;
     _schema_registry := registry;
     handlers := RefHandler_init registry |}.

Definition minimal : doc :=
  [("project", JObj [("name", JStr "pkg"); ("version", JStr "1.0.0")])].

(** A run of the vendoring pipeline: no plugin, fixed templates, and the
    distribution installed without the list of its files. *)
Definition upper_char (c : ascii) : ascii :=
  let n := nat_of_ascii c in
  if (Nat.leb 97 n && Nat.leb n 122)%bool then ascii_of_nat (n - 32) else c.

Fixpoint upper (s : string) : string :=
  match s with
  | EmptyString => EmptyString
  | String c s' => String (upper_char c) (upper s')
  end.

Definition compile_to_code (schema : Schema) (h : RefHandler)
    (formats : gmap string fmt) : result string * RefHandler :=
  (Ok ("import re" +:+ NL +:+ "def validate(data):" +:+ NL
       +:+ "    return data" +:+ NL), h).

Definition read_text (package resource : string) : result string :=
  Ok ("# " +:+ package +:+ "/" +:+ resource +:+ NL).

Definition str_format (template : string) (kwargs : list (string * string))
  : result string :=
  Ok (template +:+ String.concat NL (map snd kwargs)).

Definition fjs_files : list PackagePath :=
  [ {| stem := "METADATA"; read_text_of := Ok "Name: fastjsonschema" |};
    {| stem := "License"; read_text_of := Ok "BSD 3-Clause" |} ].

Definition own_files : list PackagePath :=
  [ {| stem := "README"; read_text_of := Ok "validate-pyproject" |} ].

Definition dist_name : string := "validate-pyproject".

(** Both file lists are there, the second one without a licence. *)
Definition metadata_files (name : string)
  : result (option (list PackagePath)) :=
  if String.eqb name "fastjsonschema" then Ok (Some fjs_files)
  else Ok (Some own_files).

(** The list of files of [fastjsonschema] is unavailable. *)
Definition metadata_files_none (name : string)
  : result (option (list PackagePath)) :=
  if String.eqb name "fastjsonschema" then Ok None
  else Ok (Some own_files).

(** Flags of the [re] module. *)
Definition re_flag (f : string) : Z :=
  if String.eqb f "A" then 256
  else if String.eqb f "I" then 2
  else if String.eqb f "DEBUG" then 128
  else if String.eqb f "L" then 4
  else if String.eqb f "M" then 8
  else if String.eqb f "S" then 16
  else if String.eqb f "X" then 64
  else 0.

(** [repr] on strings without quote: line feeds are escaped. *)
Fixpoint escape (s : string) : string :=
  match s with
  | EmptyString => EmptyString
  | String c s' =>
      if Ascii.eqb c newline
      then String (ascii_of_nat 92) (String "n" (escape s'))
      else String c (escape s')
  end.

Definition repr (s : string) : string := "'" +:+ escape s +:+ "'".

(** Generated code with a pickled table, and what the library calls of
    the pass return on it. *)
Definition assignment : string := "REGEX_PATTERNS = pickle.loads(b'gASV')".

Definition generated : string :=
  "import re, pickle" +:+ NL +:+ assignment +:+ NL
    +:+ "def validate(data):" +:+ NL +:+ "    return data" +:+ NL.

Definition sub_signature (code : string) : string :=
  str_replace "def validate(data):" "def validate(data, custom_formats):" code.

Definition literal_eval (source : string) : result string := Ok source.

(** One pattern, compiled with [re.I]; [re.U] (32) is set on every
    pattern compiled from a [str]. *)
Definition pickle_loads (bytes : string) : result (list (string * Pattern)) :=
  Ok [("^[a-z]+$", {| pattern := "^[a-z]+$"; flags := 34 |})].

(** A table of two patterns, the second one compiled without flags. *)
Definition regexes : list (string * Pattern) :=
  [("^[a-z]+$", {| pattern := "^[a-z]+$"; flags := 34 |});
   ("^[0-9]+$", {| pattern := "^[0-9]+$"; flags := 32 |})].

Definition pickle_loads_two (bytes : string)
  : result (list (string * Pattern)) :=
  Ok regexes.

(** Joined paths, for a plain file name and for an absolute one. *)
Definition path_join (dir name : string) : string :=
  match name with
  | String "/" _ => name
  | _ => dir +:+ "/" +:+ name
  end.

(** The pipeline on the samples, for a given view of the installed files. *)
Definition vendor
    (metadata : string -> result (option (list PackagePath))) : V string :=
  vendorify (T := doc) (World := trace) load (Ok []) {[ "f" := any_text ]} []
    compile_to_code re_flag repr (fun code => code) (fun s => Ok s)
    (fun _ => Ok []) read_text str_format upper metadata dist_name path_join
    "out" "__init__.py" "" ALL_PLUGINS [].

Definition empty_disk : world := {| files := ∅; logs := []; outcomes := [] |}.

(** A plugin whose schema has no id, and a top-level schema that already
    describes [tool.x]. *)
Definition pnoid : Plugin fmt := plugin "N" "n" schema_noid None.

Definition props_x : list (string * json) :=
  [("tool", JObj [("properties", JObj [("x", JObj [("type", JStr "object")])])])].

Definition top_x : Schema :=
  [("$schema", JStr draft07); ("$id", JStr top_id); ("properties", JObj props_x)].

Definition load_x (name : string) : result Schema :=
  if String.eqb name TOP_LEVEL_SCHEMA then Ok top_x
  else if String.eqb name PROJECT_TABLE_SCHEMA then Ok project
  else Raise (FileNotFoundError (name +:+ ".schema.json")).

(** A licence that is not the first file of the list, and a world with a
    file the pipeline has no reason to touch. *)
Definition licensed_files : list PackagePath :=
  [ {| stem := "METADATA"; read_text_of := Ok "Name: validate-pyproject" |};
    {| stem := "license"; read_text_of := Ok "MPL-2.0" |};
    {| stem := "LICENSE"; read_text_of := Ok "another text" |} ].

Definition metadata_files_ok (name : string)
  : result (option (list PackagePath)) :=
  if String.eqb name "fastjsonschema" then Ok (Some fjs_files)
  else Ok (Some licensed_files).

(** A compiler that fails, and one whose validator wants a [project]
    table. *)
Definition compile_fails (schema : Schema) (h : RefHandler)
    (formats : gmap string fmt)
  : result (@ValidationFn doc trace) * RefHandler :=
  (Raise (OtherError "JsonSchemaDefinitionException"), h).

Definition compile_strict (schema : Schema) (h : RefHandler)
    (formats : gmap string fmt)
  : result (@ValidationFn doc trace) * RefHandler :=
  (Ok (fun d w =>
         if Dict.has "project" d then (Ok d, w ++ ["schema"])
         else (Raise (OtherError "JsonSchemaValueException"), w ++ ["schema"])),
   h).

Definition used_disk : world :=
  {| files := {[ "out/README" := "kept"; "out/__init__.py" := "# mine" ]};
     logs := []; outcomes := [] |}.

(** The same disk when the third call to the file system, the write of
    [fastjsonschema_exceptions.py], fails once the file is open. *)
Definition full_disk : world :=
  {| files := files used_disk; logs := [];
     outcomes :=
       [ None; None;
         Some {| raised := OtherError "OSError"; left_in_file := Some "" |} ] |}.
End Sample.

(** * Properties *)

(** ** Dictionaries *)

Lemma dict_get_set_eq {V : Type} (k : string) (v : V) (d : list (string * V)) :
  Dict.get k (Dict.set k v d) = Some v.
Proof.
  induction d as [|[k' v'] d IH]; simpl.
  - by rewrite String.eqb_refl.
  - destruct (String.eqb k k') eqn:E; simpl; rewrite ?String.eqb_refl, ?E; done.
Qed.

Lemma dict_get_set_ne {V : Type} (k k' : string) (v : V) (d : list (string * V)) :
  k ≠ k' → Dict.get k' (Dict.set k v d) = Dict.get k' d.
Proof.
  intros Hne. induction d as [|[k0 v0] d IH]; simpl.
  - destruct (String.eqb k' k) eqn:E; [apply String.eqb_eq in E; congruence | done].
  - destruct (String.eqb k k0) eqn:E; simpl.
    + apply String.eqb_eq in E; subst k0.
      destruct (String.eqb k' k) eqn:E'; [apply String.eqb_eq in E'; congruence | done].
    + by rewrite IH.
Qed.

Lemma dict_has_get {V : Type} (k : string) (d : list (string * V)) :
  Dict.has k d = false ↔ Dict.get k d = None.
Proof. unfold Dict.has. destruct (Dict.get k d); split; congruence. Qed.

(** ** The compatibility check *)

Lemma schema_id_get (schema : Schema) (k : string) :
  schema_id schema = Some k → Dict.get "$id" schema = Some (JStr k).
Proof.
  unfold schema_id. destruct (Dict.get "$id" schema) as [[]|]; congruence.
Qed.

Lemma ensure_fresh (spec : json) (schemas : gmap string entry)
    (reference : string) (schema : Schema) (k : string) :
  fragment_ok spec schema k → schemas !! k = None →
  _ensure_compatibility spec schemas reference schema = Ok schema.
Proof.
  intros [Hid Hv] Hk. apply schema_id_get in Hid.
  unfold _ensure_compatibility, Dict.has, getitem. rewrite Hid. simpl.
  unfold version_ok in Hv. apply negb_true_iff in Hv. rewrite Hv. simpl.
  rewrite Hk. case_decide as H; [by destruct H | done].
Qed.

Lemma ensure_duplicate (spec : json) (schemas : gmap string entry)
    (reference : string) (schema : Schema) (k : string) :
  fragment_ok spec schema k → is_Some (schemas !! k) →
  _ensure_compatibility spec schemas reference schema
  = Raise (SchemaWithDuplicatedId k).
Proof.
  intros [Hid Hv] Hk. apply schema_id_get in Hid.
  unfold _ensure_compatibility, Dict.has, getitem. rewrite Hid. simpl.
  unfold version_ok in Hv. apply negb_true_iff in Hv. rewrite Hv. simpl.
  case_decide; done.
Qed.

(** C3. A fragment without a top-level [$id] is refused with
    [SchemaMissingId], whatever its [$schema] says and whatever the registry
    holds: the test on [$id] comes first, so neither [InvalidSchemaVersion]
    nor [SchemaWithDuplicatedId] can be the answer. *)
Theorem missing_id_checked_first (spec : json) (schemas : gmap string entry)
    (reference : string) (schema : Schema) :
  Dict.has "$id" schema = false →
  _ensure_compatibility spec schemas reference schema
  = Raise (SchemaMissingId reference).
Proof.
  intros H. unfold _ensure_compatibility. by rewrite H.
Qed.

(** On a fragment with no id and a spec version other than the
    registry's. *)
Lemma missing_id_checked_first_witness :
  version_ok (JStr Sample.draft07) Sample.schema_noid = false
  ∧ _ensure_compatibility (JStr Sample.draft07) ∅ "y" Sample.schema_noid
    = Raise (SchemaMissingId "y").
Proof.
  split; [reflexivity |].
  apply (missing_id_checked_first (JStr Sample.draft07) ∅ "y" Sample.schema_noid).
  reflexivity.
Defined.

(** ** The loop over the plugins *)

Section RegistryFacts.
Context {FormatFn : Type}.
Implicit Types (p : Plugin FormatFn) (ps : list (Plugin FormatFn)).
Implicit Types (schemas : gmap string entry) (tp : list (string * json)).

Lemma add_plugin_fresh spec schemas tp p log :
  plugin_ok spec p → schemas !! plugin_sid p = None →
  add_plugin spec (schemas, JObj tp) p log
  = (Ok (<[plugin_sid p := plugin_entry p]> schemas, JObj (mount tp p)),
     log ++ [announce tp p]).
Proof.
  intros Hok Hfresh. pose proof Hok as [Hid _]. apply schema_id_get in Hid.
  unfold add_plugin, announce, mount, plugin_entry.
  rewrite (ensure_fresh _ _ _ _ _ Hok Hfresh).
  cbv [mbind mret M_bind M_ret lift emit py_in setitem getitem].
  rewrite Hid.
  by destruct (Dict.has (tool_name p) tp).
Qed.

Lemma add_plugins_fresh spec ps : ∀ schemas tp log,
  Forall (plugin_ok spec) ps →
  NoDup (plugin_sid <$> ps) →
  (∀ p, p ∈ ps → schemas !! plugin_sid p = None) →
  add_plugins spec ps (schemas, JObj tp) log
  = (Ok (registered schemas ps, JObj (mounted tp ps)),
     log ++ announcements tp ps).
Proof.
  induction ps as [|p ps IH]; intros schemas tp log Hok Hnd Hfresh.
  - simpl. cbv [mret M_ret]. by rewrite app_nil_r.
  - apply Forall_cons in Hok as [Hp Hok].
    rewrite fmap_cons in Hnd. apply NoDup_cons in Hnd as [Hnotin Hnd].
    cbn [add_plugins]. cbv [mbind M_bind].
    rewrite add_plugin_fresh by (auto; apply Hfresh; left).
    rewrite IH; [| done | done |].
    + cbn [announcements registered mounted fold_left].
      by rewrite <- app_assoc.
    + intros q Hq. rewrite lookup_insert_ne; [apply Hfresh; by right |].
      intros Heq. apply Hnotin. rewrite Heq. by apply list_elem_of_fmap_2.
Qed.

Lemma registered_lookup_other ps : ∀ schemas k,
  k ∉ plugin_sid <$> ps → registered schemas ps !! k = schemas !! k.
Proof.
  induction ps as [|p ps IH]; intros schemas k Hk; [done |].
  rewrite fmap_cons in Hk. apply not_elem_of_cons in Hk as [Hne Hk].
  cbn [registered fold_left]. fold (registered (<[plugin_sid p := plugin_entry p]> schemas) ps).
  rewrite IH by done. by rewrite lookup_insert_ne.
Qed.

Lemma registered_lookup ps : ∀ schemas p,
  NoDup (plugin_sid <$> ps) → p ∈ ps →
  registered schemas ps !! plugin_sid p = Some (plugin_entry p).
Proof.
  induction ps as [|q ps IH]; intros schemas p Hnd Hp; [by apply elem_of_nil in Hp |].
  rewrite fmap_cons in Hnd. apply NoDup_cons in Hnd as [Hnotin Hnd].
  cbn [registered fold_left]. fold (registered (<[plugin_sid q := plugin_entry q]> schemas) ps).
  apply elem_of_cons in Hp as [-> | Hp].
  - rewrite registered_lookup_other by done. apply lookup_insert_eq.
  - by apply IH.
Qed.

Lemma registered_size ps : ∀ schemas,
  NoDup (plugin_sid <$> ps) →
  (∀ p, p ∈ ps → schemas !! plugin_sid p = None) →
  size (registered schemas ps) = (size schemas + length ps)%nat.
Proof.
  induction ps as [|p ps IH]; intros schemas Hnd Hfresh.
  - simpl. lia.
  - rewrite fmap_cons in Hnd. apply NoDup_cons in Hnd as [Hnotin Hnd].
    cbn [registered fold_left length].
    fold (registered (<[plugin_sid p := plugin_entry p]> schemas) ps).
    rewrite IH; [| done |].
    + rewrite map_size_insert_None by (apply Hfresh; left). lia.
    + intros q Hq. rewrite lookup_insert_ne; [apply Hfresh; by right |].
      intros Heq. apply Hnotin. rewrite Heq. by apply list_elem_of_fmap_2.
Qed.

(** The reference under a tool name is that of the last plugin that
    declares the name. *)
Lemma mounted_last ps p rest tp :
  (∀ q, q ∈ rest → tool_name q ≠ tool_name p) →
  Dict.get (tool_name p) (mounted tp (ps ++ p :: rest))
  = Some (ref_to (plugin_sid p)).
Proof.
  intros Hrest. unfold mounted. rewrite fold_left_app. cbn [fold_left].
  generalize (fold_left mount ps tp). clear ps. intros d.
  assert (Hget : Dict.get (tool_name p) (mount d p) = Some (ref_to (plugin_sid p)))
    by apply dict_get_set_eq.
  revert Hget. generalize (mount d p). clear d.
  induction rest as [|q rest IH]; intros d Hget; [done |].
  cbn [fold_left]. apply IH.
  - intros r Hr. apply Hrest. by right.
  - unfold mount at 1. rewrite dict_get_set_ne; [done |]. apply Hrest. by left.
Qed.

Lemma add_plugin_duplicate spec schemas tp p log :
  plugin_ok spec p → is_Some (schemas !! plugin_sid p) →
  add_plugin spec (schemas, JObj tp) p log
  = (Raise (SchemaWithDuplicatedId (plugin_sid p)), log ++ [announce tp p]).
Proof.
  intros Hok Hdup.
  unfold add_plugin, announce.
  rewrite (ensure_duplicate _ _ _ _ _ Hok Hdup).
  cbv [mbind mret M_bind M_ret lift emit py_in].
  by destruct (Dict.has (tool_name p) tp).
Qed.

(** The loop stops at the first plugin whose id was registered before;
    the plugins [rest] that come after it are not looked at. *)
Lemma add_plugins_repeat spec ps rest : ∀ schemas seen tp log k,
  Forall (plugin_ok spec) ps →
  (∀ x, is_Some (schemas !! x) ↔ x ∈ seen) →
  first_repeat seen (plugin_sid <$> ps) = Some k →
  ∃ log',
    add_plugins spec (ps ++ rest) (schemas, JObj tp) log
    = (Raise (SchemaWithDuplicatedId k), log').
Proof.
  induction ps as [|p ps IH]; intros schemas seen tp log k Hok Hseen Hrep;
    [done |].
  apply Forall_cons in Hok as [Hp Hok].
  rewrite fmap_cons in Hrep. cbn [first_repeat] in Hrep.
  cbn [app add_plugins]. cbv [mbind M_bind].
  destruct (decide (plugin_sid p ∈ seen)) as [Hin | Hnotin].
  - injection Hrep as <-.
    rewrite add_plugin_duplicate by (auto; by apply Hseen). eauto.
  - rewrite add_plugin_fresh; [| done |].
    + eapply IH; [done | | done].
      intros x. rewrite lookup_insert_is_Some, elem_of_cons, Hseen.
      destruct (decide (plugin_sid p = x)); intuition congruence.
    + apply eq_None_not_Some. by rewrite Hseen.
Qed.

Lemma announcements_app ps ps' tp :
  announcements tp (ps ++ ps')
  = announcements tp ps ++ announcements (mounted tp ps) ps'.
Proof.
  revert tp. induction ps as [|p ps IH]; intros tp; [done |].
  cbn [app announcements mounted fold_left]. by rewrite IH.
Qed.

Lemma mounted_has ps : ∀ tp x,
  Dict.has x tp = true ∨ (∃ p, p ∈ ps ∧ tool_name p = x) →
  Dict.has x (mounted tp ps) = true.
Proof.
  induction ps as [|q ps IH]; intros tp x H.
  - destruct H as [H | (p & Hp & _)]; [done | by apply elem_of_nil in Hp].
  - cbn [mounted fold_left]. apply IH.
    destruct (decide (tool_name q = x)) as [<- | Hne].
    + left. unfold mount, Dict.has. by rewrite dict_get_set_eq.
    + destruct H as [H | (p & Hp & Hx)].
      * left. unfold mount, Dict.has. by rewrite dict_get_set_ne.
      * apply elem_of_cons in Hp as [-> | Hp]; [done |]. right. eauto.
Qed.
End RegistryFacts.

Lemma dict_set_set {V : Type} (k : string) (v v' : V) (d : list (string * V)) :
  Dict.set k v (Dict.set k v' d) = Dict.set k v d.
Proof.
  induction d as [|[k0 v0] d IH]; simpl.
  - by rewrite String.eqb_refl.
  - destruct (String.eqb k k0) eqn:E; simpl; rewrite ?String.eqb_refl, ?E; [done |].
    by rewrite IH.
Qed.

(** ** Repeated ids *)

Lemma first_repeat_None (ids : list string) : ∀ seen,
  first_repeat seen ids = None → NoDup ids ∧ ∀ k, k ∈ ids → k ∉ seen.
Proof.
  induction ids as [|k ids IH]; intros seen H.
  - split; [constructor | intros k Hk; by apply elem_of_nil in Hk].
  - cbn [first_repeat] in H. case_decide as Hk; [done |].
    apply IH in H as [Hnd Hfresh]. split.
    + constructor; [| done]. intros Hin. apply (Hfresh k Hin). by left.
    + intros x Hx. apply elem_of_cons in Hx as [-> | Hx]; [done |].
      intros Hin. apply (Hfresh x Hx). by right.
Qed.

Lemma first_repeat_Some (ids : list string) : ∀ seen k,
  first_repeat seen ids = Some k →
  (k ∈ seen ∧ k ∈ ids)
  ∨ ∃ a b, (a < b)%nat ∧ ids !! a = Some k ∧ ids !! b = Some k.
Proof.
  induction ids as [|x ids IH]; intros seen k H; [done |].
  cbn [first_repeat] in H. case_decide as Hx.
  - injection H as <-. left. split; [done | by left].
  - apply IH in H as [[Hin Hids] | (a & b & Hab & Ha & Hb)].
    + apply elem_of_cons in Hin as [-> | Hin].
      * right. apply list_elem_of_lookup in Hids as [b Hb].
        exists 0%nat, (S b). split; [lia | done].
      * left. split; [done | by right].
    + right. exists (S a), (S b). split; [lia | done].
Qed.

Lemma first_repeat_twice (ids : list string) (i j : nat) (k : string) :
  ids !! i = Some k → ids !! j = Some k → i ≠ j →
  is_Some (first_repeat [] ids).
Proof.
  intros Hi Hj Hne.
  destruct (first_repeat [] ids) eqn:E; [done |].
  apply first_repeat_None in E as [Hnd _].
  destruct Hne. by eapply NoDup_lookup.
Qed.

(** ** Construction of the registry *)

Section Construction.
Context {FormatFn : Type}.
Variable load : string -> result Schema.
Variables (spec : json) (top project : Schema).
Variables (props tool_dict tool_props : list (string * json)).
Variables (top_id project_id : string).
Hypothesis core :
  core_schemas load spec top project props tool_dict tool_props
    top_id project_id.
Implicit Types (p : Plugin FormatFn) (ps : list (Plugin FormatFn)).

Local Abbreviation finish :=
  (finish spec top props tool_dict top_id project_id).

(** With the two resources in place, construction is the loop over the
    plugins, started from the project-table entry, and the registration
    of the root schema. *)
Lemma init_unfold ps log :
  SchemaRegistry_init load ps log
  = match add_plugins spec ps
            ({[project_id := project_entry project]}, JObj tool_props) log with
    | (Ok (schemas, tool_properties), log') =>
        (Ok (finish schemas tool_properties), log')
    | (Raise e, log') => (Raise e, log')
    end.
Proof.
  destruct core as [Htop Hspec Hprops Htool Htp Hid Hproj Hok].
  pose proof Hok as [Hpid _]. apply schema_id_get in Hpid.
  unfold SchemaRegistry_init.
  cbv [mbind mret M_bind M_ret lift].
  rewrite Htop. unfold getitem at 1. rewrite Hspec.
  unfold getitem at 1. rewrite Hprops.
  cbv [subscript]. unfold getitem at 1. rewrite Htool.
  assert (Hsd : ∃ td, setdefault (JObj tool_dict) "properties" (JObj [])
                      = Ok (td, JObj tool_props)
                 ∧ ∀ x, Dict.set "properties" x td
                        = Dict.set "properties" x tool_dict).
  { unfold setdefault. destruct Htp as [-> | [-> ->]].
    - by eexists.
    - eexists; split; [done |]. intros x. apply dict_set_set. }
  destruct Hsd as (td & -> & Htd).
  rewrite Hproj.
  rewrite (ensure_fresh _ _ _ _ _ Hok (lookup_empty _)).
  unfold getitem at 1. rewrite Hpid. cbv [as_key].
  destruct (add_plugins _ _ _ _) as [[[schemas tpj]|e] log']; [| done].
  unfold getitem. rewrite dict_get_set_ne by done. rewrite Hid.
  cbv [setitem]. rewrite Htd. done.
Qed.

Lemma init_fresh ps log :
  Forall (plugin_ok spec) ps →
  NoDup (project_id :: (plugin_sid <$> ps)) →
  SchemaRegistry_init load ps log
  = (Ok (finish (registered {[project_id := project_entry project]} ps)
           (JObj (mounted tool_props ps))),
     log ++ announcements tool_props ps).
Proof.
  intros Hok Hnd. apply NoDup_cons in Hnd as [Hnotin Hnd].
  rewrite init_unfold, add_plugins_fresh; [done.. |].
  intros p Hp. apply lookup_singleton_ne. intros ->.
  apply Hnotin. by apply list_elem_of_fmap_2.
Qed.

(** C1. With plugins whose tool schemas are compatible fragments of
    pairwise-distinct ids, distinct from the ids of the project-table and
    top-level schemas as well, construction succeeds and the registry
    holds [1 + number of plugins + 1] schemas. *)
Theorem registry_len_distinct_ids ps log :
  Forall (plugin_ok spec) ps →
  NoDup (top_id :: project_id :: (plugin_sid <$> ps)) →
  ∃ registry log',
    SchemaRegistry_init load ps log = (Ok registry, log')
    ∧ registry_len registry = (1 + length ps + 1)%nat.
Proof.
  intros Hok Hnd. apply NoDup_cons in Hnd as [Htop Hnd].
  eexists _, _. split; [by apply init_fresh |].
  pose proof Hnd as Hnd'. apply NoDup_cons in Hnd' as [Hproj Hps].
  unfold registry_len, finish. cbn [_schemas].
  rewrite map_size_insert_None.
  - rewrite registered_size, map_size_singleton; [lia | done |].
    intros p Hp. apply lookup_singleton_ne. intros ->.
    apply Hproj. by apply list_elem_of_fmap_2.
  - rewrite registered_lookup_other.
    + apply lookup_singleton_ne. intros ->. apply Htop. by left.
    + intros Hin. apply Htop. by right.
Qed.
Lemma root_tool_property_root (tp : list (string * json)) (x : string) :
  root_tool_property
    (root_schema top props tool_dict project_id (JObj tp)) x
  = getitem x tp.
Proof.
  unfold root_tool_property, root_schema.
  cbv [mbind result_bind]. unfold getitem at 1. rewrite dict_get_set_eq.
  cbv [subscript]. unfold getitem at 1. rewrite dict_get_set_eq.
  unfold getitem at 1. by rewrite dict_get_set_eq.
Qed.

(** C4. Two plugins declare the same tool name, [p2] being the last plugin
    of the sequence to declare it; all the fragments are compatible and
    their ids distinct.  Construction succeeds, the root schema refers
    [tool.x] to the id of [p2], the schema of [p1] is still found under its
    own id, and the overwriting is logged as a warning. *)
Theorem later_plugin_wins l1 p1 l2 p2 l3 log :
  let ps := l1 ++ p1 :: l2 ++ p2 :: l3 in
  tool_name p1 = tool_name p2 →
  (∀ q, q ∈ l3 → tool_name q ≠ tool_name p2) →
  Forall (plugin_ok spec) ps →
  NoDup (top_id :: project_id :: (plugin_sid <$> ps)) →
  ∃ registry log',
    SchemaRegistry_init load ps log = (Ok registry, log')
    ∧ (registry_main registry ≫= λ root,
         root_tool_property root (tool_name p2))
      = Ok (ref_to (plugin_sid p2))
    ∧ plugin_sid p1 ≠ plugin_sid p2
    ∧ registry_getitem registry (plugin_sid p1) = Ok (tool_schema p1)
    ∧ (WARNING,
       plugin_id p2 +:+ " overwrites `tool." +:+ tool_name p2 +:+ "` schema")
      ∈ log'.
Proof.
  intros ps Hname Hlast Hok Hnd.
  apply NoDup_cons in Hnd as [Htop Hnd].
  pose proof Hnd as Hnd'. apply NoDup_cons in Hnd' as [Hproj Hps].
  assert (Hps2 : ps = (l1 ++ p1 :: l2) ++ p2 :: l3)
    by (subst ps; by rewrite <- app_assoc).
  assert (Hin1 : p1 ∈ ps) by (subst ps; apply elem_of_app; right; left).
  eexists _, _. split; [by apply init_fresh |].
  split; [| split; [| split]].
  - unfold registry_main, registry_getitem, finish. cbn [_schemas _main_id].
    rewrite lookup_insert_eq. cbv [mbind result_bind snd root_entry].
    rewrite root_tool_property_root. unfold getitem.
    by rewrite Hps2, mounted_last.
  - intros Heq. subst ps. rewrite fmap_app, fmap_cons, fmap_app, fmap_cons in Hps.
    apply NoDup_app in Hps as (_ & _ & Hps).
    apply NoDup_cons in Hps as [Hnot _]. apply Hnot. rewrite Heq.
    apply elem_of_app. right. left.
  - unfold registry_getitem, finish. cbn [_schemas].
    rewrite lookup_insert_ne.
    + by rewrite registered_lookup.
    + intros ->. apply Htop. right. by apply list_elem_of_fmap_2.
  - assert (Hwarn : announce (mounted tool_props (l1 ++ p1 :: l2)) p2
                   = (WARNING,
                      plugin_id p2 +:+ " overwrites `tool." +:+ tool_name p2
                        +:+ "` schema")).
    { unfold announce. rewrite mounted_has; [done |].
      right. exists p1. split; [apply elem_of_app; right; left | done]. }
    rewrite Hps2, announcements_app. cbn [announcements]. rewrite Hwarn.
    apply elem_of_app. right. apply elem_of_app. right. left.
Qed.

(** C2, amended.  The fragments that go through the compatibility check
    are the project-table schema and the tool schemas, in this order, and
    construction stops at the first one the check refuses.  Two of them, at
    the positions [i] and [j] (in either order), carry the same id [k];
    the fragments up to the later of the two have a string id and pass the
    spec-version test, and nothing is asked of the plugins that follow.
    Then construction raises [SchemaWithDuplicatedId]; the id reported is
    the first one that repeats, which is [k] when no other id repeats up
    to there. *)
Theorem duplicate_id_raises ps i j k log :
  let checked := take (i `max` j) ps in
  let ids := project_id :: (plugin_sid <$> checked) in
  ids !! i = Some k → ids !! j = Some k → i ≠ j →
  Forall (plugin_ok spec) checked →
  ∃ k' log',
    SchemaRegistry_init load ps log
    = (Raise (SchemaWithDuplicatedId k'), log')
    ∧ first_repeat [] ids = Some k'
    ∧ ((∀ a b x, (a < b)%nat → ids !! a = Some x → ids !! b = Some x → x = k)
       → k' = k).
Proof.
  intros checked ids Hi Hj Hne Hok.
  destruct (first_repeat_twice ids i j k Hi Hj Hne) as [k' Hk'].
  pose proof Hk' as Hrep. subst ids. cbn [first_repeat] in Hrep.
  case_decide as Hnil; [by apply elem_of_nil in Hnil |].
  destruct (add_plugins_repeat spec checked (drop (i `max` j) ps)
              {[project_id := project_entry project]} [project_id]
              tool_props log k' Hok) as [log' Hrun]; [| done |].
  { intros x. rewrite list_elem_of_singleton. split.
    - intros [e He]. apply lookup_singleton_Some in He as [-> _]. done.
    - intros ->. rewrite lookup_singleton_eq. eauto. }
  subst checked. rewrite take_drop in Hrun.
  exists k', log'. rewrite init_unfold, Hrun. split; [done |]. split; [done |].
  intros Honly. apply first_repeat_Some in Hk' as [[Hin _] | (a & b & Hab & Ha & Hb)].
  - by apply elem_of_nil in Hin.
  - by eapply Honly.
Qed.
End Construction.

(** ** The registry on the sample resources *)

Lemma sample_core :
  core_schemas Sample.load (JStr Sample.draft07) Sample.top Sample.project
    Sample.props Sample.tool_dict [] Sample.top_id Sample.project_id.
Proof.
  constructor; try reflexivity.
  - right. by split.
  - by split.
Qed.

Lemma registry_len_distinct_ids_witness :
  ∃ registry log',
    SchemaRegistry_init Sample.load [Sample.pa; Sample.pb] []
    = (Ok registry, log')
    ∧ registry_len registry = 4%nat.
Proof.
  apply (registry_len_distinct_ids Sample.load _ _ _ _ _ _ _ _ sample_core
           [Sample.pa; Sample.pb] []).
  - repeat constructor.
  - refine (bool_decide_unpack _ _). vm_compute. exact I.
Defined.

Lemma later_plugin_wins_witness :
  ∃ registry log',
    SchemaRegistry_init Sample.load [Sample.pa; Sample.pb] []
    = (Ok registry, log')
    ∧ (registry_main registry ≫= λ root, root_tool_property root "x")
      = Ok (ref_to "https://example.org/b")
    ∧ plugin_sid Sample.pa ≠ plugin_sid Sample.pb
    ∧ registry_getitem registry "https://example.org/a" = Ok Sample.schema_a
    ∧ (WARNING, "sample.plugins.B overwrites `tool.x` schema") ∈ log'.
Proof.
  apply (later_plugin_wins Sample.load _ _ _ _ _ _ _ _ sample_core
           [] Sample.pa [] Sample.pb [] []).
  - reflexivity.
  - intros q Hq. by apply elem_of_nil in Hq.
  - repeat constructor.
  - refine (bool_decide_unpack _ _). vm_compute. exact I.
Defined.

Lemma duplicate_id_raises_witness :
  ∃ k' log',
    SchemaRegistry_init Sample.load [Sample.pa; Sample.pa2; Sample.pnoid] []
    = (Raise (SchemaWithDuplicatedId k'), log')
    ∧ first_repeat []
        (Sample.project_id :: (plugin_sid <$> [Sample.pa; Sample.pa2]))
      = Some k'
    ∧ ((∀ a b x, (a < b)%nat →
          (Sample.project_id
           :: (plugin_sid <$> [Sample.pa; Sample.pa2])) !! a = Some x →
          (Sample.project_id
           :: (plugin_sid <$> [Sample.pa; Sample.pa2])) !! b = Some x →
          x = "https://example.org/a")
       → k' = "https://example.org/a").
Proof.
  apply (duplicate_id_raises Sample.load _ _ _ _ _ _ _ _ sample_core
           [Sample.pa; Sample.pa2; Sample.pnoid] 2 1
           "https://example.org/a" []).
  - reflexivity.
  - reflexivity.
  - lia.
  - repeat constructor.
Defined.

(** C2 as stated fails: the two fragments below carry the same id, and in
    either order construction raises [InvalidSchemaVersion], because the
    spec-version test comes before the test on the id. *)
Lemma duplicate_id_version_first :
  schema_id (tool_schema Sample.pa) = Some "https://example.org/a"
  ∧ schema_id (tool_schema Sample.pa') = Some "https://example.org/a"
  ∧ (SchemaRegistry_init Sample.load [Sample.pa; Sample.pa'] []).1
    = Raise (InvalidSchemaVersion "y"
               (JStr "http://json-schema.org/draft-04/schema")
               (JStr Sample.draft07))
  ∧ (SchemaRegistry_init Sample.load [Sample.pa'; Sample.pa] []).1
    = Raise (InvalidSchemaVersion "y"
               (JStr "http://json-schema.org/draft-04/schema")
               (JStr Sample.draft07))
  ∧ (SchemaRegistry_init Sample.load [Sample.pa; Sample.pa'] []).1
    ≠ Raise (SchemaWithDuplicatedId "https://example.org/a")
  ∧ (SchemaRegistry_init Sample.load [Sample.pa'; Sample.pa] []).1
    ≠ Raise (SchemaWithDuplicatedId "https://example.org/a").
Proof.
  repeat split; try (vm_compute; reflexivity); vm_compute; discriminate.
Qed.

(** The root schema is stored without the compatibility check: a tool
    schema that carries the id of the top-level schema is accepted, and its
    entry is replaced by the root. *)
Example root_id_not_checked :
  ∃ registry log',
    SchemaRegistry_init Sample.load [Sample.ptop] [] = (Ok registry, log')
    ∧ registry_len registry = 2%nat
    ∧ registry_getitem registry Sample.top_id ≠ Ok Sample.schema_top_id.
Proof.
  eexists _, _. split; [vm_compute; reflexivity |].
  split; [vm_compute; reflexivity | vm_compute; discriminate].
Qed.

(** ** RefHandler *)

Lemma contains_registry (key : json) (h : RefHandler) :
  _registry (RefHandler_contains key h).2 = _registry h.
Proof.
  destruct key; try done. cbn. by case_decide.
Qed.

Lemma contains_keeps (key : json) (h : RefHandler) (k : string) :
  k ∈ _uri_schemas h → k ∈ _uri_schemas (RefHandler_contains key h).2.
Proof.
  intros Hk. destruct key; try done. cbn. case_decide; [done |].
  cbn. apply elem_of_app. by left.
Qed.

Lemma queries_registry (keys : list json) : ∀ h,
  _registry (queries keys h) = _registry h.
Proof.
  induction keys as [|key keys IH]; intros h; [done |].
  cbn [queries fold_left]. fold (queries keys (RefHandler_contains key h).2).
  by rewrite IH, contains_registry.
Qed.

Lemma queries_keeps (keys : list json) (k : string) : ∀ h,
  k ∈ _uri_schemas h → k ∈ _uri_schemas (queries keys h).
Proof.
  induction keys as [|key keys IH]; intros h Hk; [done |].
  cbn [queries fold_left]. fold (queries keys (RefHandler_contains key h).2).
  by apply IH, contains_keeps.
Qed.

Lemma contains_remembers (s : string) (h : RefHandler) :
  s ∈ _uri_schemas (RefHandler_contains (JStr s) h).2.
Proof.
  cbn. case_decide; [done |]. cbn. apply elem_of_app. right. by left.
Qed.

(** C7. On a handler reached from creation by any run of membership tests:
    a string key is reported as contained; [http] and [https] are among the
    schemes; a string scheme once asked about is enumerated by iteration
    after any further tests, and asking again answers true and changes
    nothing; the function returned for any scheme looks the id up in the
    registry by its exact key. *)
Theorem ref_handler_contract (registry : SchemaRegistry)
    (keys keys' : list json) (s scheme sid : string) :
  let h := queries keys (RefHandler_init registry) in
  let h' := (RefHandler_contains (JStr s) h).2 in
  let h'' := queries keys' h' in
  (RefHandler_contains (JStr s) h).1 = true
  ∧ "http" ∈ RefHandler_iter h ∧ "https" ∈ RefHandler_iter h
  ∧ s ∈ RefHandler_iter h''
  ∧ RefHandler_contains (JStr s) h'' = (true, h'')
  ∧ RefHandler_getitem scheme h'' sid
    = match _schemas registry !! sid with
      | Some e => Ok e.2
      | None => Raise (KeyError sid)
      end.
Proof.
  intros h h' h''. split; [done |].
  split; [apply queries_keeps; by left |].
  split; [apply queries_keeps; right; by left |].
  assert (Hs : s ∈ _uri_schemas h'') by apply queries_keeps, contains_remembers.
  split; [done |]. split.
  - cbn. by rewrite decide_True.
  - unfold RefHandler_getitem, registry_getitem, h'', h', h.
    by rewrite queries_registry, contains_registry, queries_registry.
Qed.

(** C10. A key that is not a string is reported as not contained and the
    handler is returned as it was: same length, same schemes.  A string
    key that is not yet among the schemes makes the handler one longer. *)
Theorem non_string_key_not_contained (key : json) (h : RefHandler) :
  (∀ s, key ≠ JStr s) →
  RefHandler_contains key h = (false, h)
  ∧ RefHandler_len (RefHandler_contains key h).2 = RefHandler_len h
  ∧ RefHandler_iter (RefHandler_contains key h).2 = RefHandler_iter h
  ∧ ∀ s, s ∉ _uri_schemas h →
         RefHandler_len (RefHandler_contains (JStr s) h).2
         = S (RefHandler_len h).
Proof.
  intros Hkey.
  assert (Hsame : RefHandler_contains key h = (false, h)).
  { destruct key; try done. by destruct (Hkey s). }
  rewrite Hsame. repeat split; try done.
  intros s Hs. unfold RefHandler_len. cbn. rewrite decide_False by done.
  cbn. rewrite length_app. cbn. lia.
Qed.

Lemma non_string_key_not_contained_witness :
  RefHandler_contains (JNum 7) (RefHandler_init Sample.registry)
  = (false, RefHandler_init Sample.registry)
  ∧ RefHandler_len (RefHandler_contains JNull (RefHandler_init Sample.registry)).2
    = 2%nat.
Proof.
  split.
  - apply (non_string_key_not_contained (JNum 7)). intros s. discriminate.
  - apply (non_string_key_not_contained JNull (RefHandler_init Sample.registry)).
    intros s. discriminate.
Defined.

(** ** The format mapping *)

Section Formats.
Context {FormatFn : Type}.
Implicit Types (items : list (string * FormatFn)) (acc fv : gmap string FormatFn).

Local Abbreviation store := (fun (d : gmap string FormatFn) kv => <[kv.1 := kv.2]> d).

Lemma store_lookup_notin items : ∀ acc k,
  k ∉ items.*1 → fold_left store items acc !! k = acc !! k.
Proof.
  induction items as [|[k0 v0] items IH]; intros acc k Hk; [done |].
  rewrite fmap_cons in Hk. apply not_elem_of_cons in Hk as [Hne Hk].
  cbn [fold_left]. rewrite IH by done. cbn. by rewrite lookup_insert_ne.
Qed.

Lemma store_lookup_in items : ∀ acc k v,
  NoDup items.*1 → (k, v) ∈ items → fold_left store items acc !! k = Some v.
Proof.
  induction items as [|[k0 v0] items IH]; intros acc k v Hnd Hin;
    [by apply elem_of_nil in Hin |].
  rewrite fmap_cons in Hnd. apply NoDup_cons in Hnd as [Hnotin Hnd].
  cbn [fold_left]. apply elem_of_cons in Hin as [[= -> ->] | Hin].
  - rewrite store_lookup_notin by done. cbn. apply lookup_insert_eq.
  - by apply IH.
Qed.

(** Storing the items of a mapping one by one is merging the mapping. *)
Lemma store_map_to_list fv acc :
  fold_left store (map_to_list fv) acc = fv ∪ acc.
Proof.
  apply map_eq. intros k. destruct (fv !! k) as [v|] eqn:E.
  - rewrite (store_lookup_in _ _ k v).
    + symmetry. by apply lookup_union_Some_l.
    + apply NoDup_fst_map_to_list.
    + by apply elem_of_map_to_list.
  - rewrite store_lookup_notin.
    + symmetry. by rewrite lookup_union_r.
    + intros Hin. apply list_elem_of_fmap in Hin as ([k' v] & Hk & Hin).
      cbn in Hk. subst k'. apply elem_of_map_to_list in Hin. congruence.
Qed.

Lemma store_plugin_items (ps : list (Plugin FormatFn)) : ∀ acc,
  fold_left store (plugin_format_items ps) acc = merged_formats acc ps.
Proof.
  induction ps as [|p ps IH]; intros acc; [done |].
  unfold plugin_format_items, merged_formats. cbn [omap list_omap fold_left].
  destruct (format_validators p) as [fv|]; cbn [fmap option_fmap option_map].
  - cbn [concat]. rewrite fold_left_app, store_map_to_list. apply IH.
  - apply IH.
Qed.

Lemma py_dict_merged (supplied : gmap string FormatFn)
    (ps : list (Plugin FormatFn)) :
  py_dict (map_to_list supplied ++ plugin_format_items ps)
  = merged_formats supplied ps.
Proof.
  unfold py_dict. rewrite fold_left_app, store_map_to_list, store_plugin_items.
  by rewrite (right_id_L ∅ (∪)).
Qed.

Lemma merged_formats_none (ps : list (Plugin FormatFn)) : ∀ acc k,
  (∀ q fv, q ∈ ps → format_validators q = Some fv → fv !! k = None) →
  merged_formats acc ps !! k = acc !! k.
Proof.
  induction ps as [|p ps IH]; intros acc k Hnone; [done |].
  unfold merged_formats. cbn [fold_left]. fold (merged_formats (match format_validators p with Some fv => fv ∪ acc | None => acc end) ps).
  rewrite IH by (intros q fv Hq; apply Hnone; by right).
  destruct (format_validators p) as [fv|] eqn:E; [| done].
  rewrite lookup_union_r; [done |]. eapply Hnone; [by left | done].
Qed.

Lemma merged_formats_last (ps1 ps2 : list (Plugin FormatFn)) p fv acc k f :
  format_validators p = Some fv → fv !! k = Some f →
  (∀ q fv', q ∈ ps2 → format_validators q = Some fv' → fv' !! k = None) →
  merged_formats acc (ps1 ++ p :: ps2) !! k = Some f.
Proof.
  intros Hp Hk Hlater. unfold merged_formats.
  rewrite fold_left_app. cbn [fold_left]. rewrite Hp.
  match goal with |- fold_left ?g ps2 ?a !! k = _ =>
    change (fold_left g ps2 a) with (merged_formats a ps2) end.
  rewrite merged_formats_none by done. by apply lookup_union_Some_l.
Qed.
End Formats.

Section ValidatorFacts.
Context {FormatFn T World : Type}.
Variable load : string -> result Schema.
Variable list_from_entry_points : result (list (Plugin FormatFn)).
Variable FJS_compile :
  Schema -> RefHandler -> gmap string FormatFn ->
  result (@ValidationFn T World) * RefHandler.
Implicit Types (self : @Validator FormatFn T World).

(** A validator comes out of [__init__] with the mapping it was given and
    an empty cache. *)
Lemma init_formats_cache plugins format_validators extra_validations log self log' :
  Validator_init load list_from_entry_points plugins format_validators
    extra_validations log = (Ok self, log') →
  formats_cache_ok self
  ∧ _in_format_validators self = format_validators
  ∧ _in_extra_validations self = extra_validations
  ∧ _cache self = None.
Proof.
  unfold Validator_init. cbv [mbind mret M_bind M_ret lift].
  destruct plugins as [|ps].
  - destruct list_from_entry_points as [ps|e]; [| done].
    destruct (SchemaRegistry_init load ps log) as [[reg|e] l]; [| done].
    intros [= <- <-]. by repeat split.
  - destruct (SchemaRegistry_init load ps log) as [[reg|e] l]; [| done].
    intros [= <- <-]. by repeat split.
Qed.

(** C5. [formats] is the mapping obtained by merging, onto the mapping the
    caller supplied, the [format_validators] of the plugins that declare
    some, in plugin order; it is computed once and read from the cache
    afterwards.  Under a name, the function is that of the last plugin that
    declares the name, whatever the caller and the earlier plugins
    supplied; a name no plugin declares keeps the caller's function. *)
Theorem formats_later_wins self :
  formats_cache_ok self →
  let formats := (Validator_formats self).1 in
  formats = merged_formats (_in_format_validators self) (plugins self)
  ∧ formats_cache_ok (Validator_formats self).2
  ∧ (Validator_formats (Validator_formats self).2).1 = formats
  ∧ (∀ ps1 p ps2 fv k f,
       plugins self = ps1 ++ p :: ps2 →
       format_validators p = Some fv → fv !! k = Some f →
       (∀ q fv', q ∈ ps2 → format_validators q = Some fv' → fv' !! k = None) →
       formats !! k = Some f)
  ∧ (∀ k,
       (∀ q fv, q ∈ plugins self → format_validators q = Some fv →
                fv !! k = None) →
       formats !! k = _in_format_validators self !! k).
Proof.
  intros Hcache formats.
  assert (Heq : formats
                = merged_formats (_in_format_validators self) (plugins self)).
  { subst formats. unfold Validator_formats.
    destruct (_format_validators self) as [f|] eqn:E; cbn [fst].
    - rewrite (Hcache f E). apply py_dict_merged.
    - apply py_dict_merged. }
  split; [done |]. split; [| split; [| split]].
  - unfold Validator_formats.
    destruct (_format_validators self) as [f|] eqn:E; cbn [snd]; [done |].
    intros f. cbn. by intros [= <-].
  - subst formats. unfold Validator_formats at 2 3.
    destruct (_format_validators self) as [f|] eqn:E; cbn [fst snd].
    + unfold Validator_formats. by rewrite E.
    + done.
  - intros ps1 p ps2 fv k f Hps Hp Hk Hlater.
    rewrite Heq, Hps. by eapply merged_formats_last.
  - intros k Hnone. rewrite Heq. by apply merged_formats_none.
Qed.

Lemma compiled_extra self r self' :
  compiled FJS_compile self = (r, self') →
  _in_extra_validations self' = _in_extra_validations self.
Proof.
  unfold compiled. destruct (_cache self); [by intros [= <- <-] |].
  destruct (Validator_schema self); [| by intros [= <- <-]].
  unfold Validator_formats.
  destruct (_format_validators self);
    destruct (FJS_compile _ _ _) as [[fn|e] h]; by intros [= <- <-].
Qed.

Lemma compiled_cache_ok self r self' :
  compiled FJS_compile self = (r, self') →
  formats_cache_ok self → formats_cache_ok self'.
Proof.
  unfold compiled. destruct (_cache self); [by intros [= <- <-] |].
  destruct (Validator_schema self); [| by intros [= <- <-]].
  unfold Validator_formats.
  destruct (_format_validators self) as [f|] eqn:E;
    destruct (FJS_compile _ _ _) as [[fn|e] h]; intros [= <- <-] Hok f' Hf';
    cbn in Hf'.
  all: first [by apply Hok | by injection Hf' as <-].
Qed.

(** C6. The extra validations are [A] then [B] and the compiled validator
    accepts [doc].  The call hands [doc] to [A] and the result of [A] to
    [B], and returns what [B] returns; when [A] raises, the call raises the
    same exception in the world [A] left, whatever [B] is: [B] has not
    run. *)
Theorem extra_validations_in_order self (A B : @ValidationFn T World)
    (doc : T) (w : World) fn self' checked w0 :
  Validator_extra_validations self = [A; B] →
  compiled FJS_compile self = (Ok fn, self') →
  fn doc w = (Ok checked, w0) →
  (∀ d1 w1, A doc w0 = (Ok d1, w1) →
     Validator_call FJS_compile self doc w = ((B d1 w1).1, self', (B d1 w1).2))
  ∧ (∀ e w1, A doc w0 = (Raise e, w1) →
       Validator_call FJS_compile self doc w = (Raise e, self', w1)).
Proof.
  intros Hextra Hcompiled Hfn.
  pose proof (compiled_extra _ _ _ Hcompiled) as Hsame.
  unfold Validator_call, Validator_extra_validations in *.
  rewrite Hcompiled, Hfn, Hsame, Hextra. cbn [reduce].
  split.
  - intros d1 w1 ->. by destruct (B d1 w1) as [[d2|e] w2].
  - by intros e w1 ->.
Qed.
End ValidatorFacts.

Lemma formats_later_wins_witness :
  (Validator_formats (Sample.validator [Sample.pf1; Sample.pf2] [])).1 !! "f"
  = Some Sample.short_text.
Proof.
  pose proof (formats_later_wins (Sample.validator [Sample.pf1; Sample.pf2] []))
    as H.
  destruct H as (_ & _ & _ & Hlast & _); [intros f Hf; discriminate Hf |].
  apply (Hlast [Sample.pf1] Sample.pf2 []
           {[ "f" := Sample.short_text; "g" := Sample.no_text ]}).
  - reflexivity.
  - reflexivity.
  - reflexivity.
  - intros q fv' Hq. by apply elem_of_nil in Hq.
Defined.

Lemma extra_validations_in_order_witness :
  let ok := Validator_call Sample.compile
              (Sample.validator [] [Sample.step_a; Sample.step_b])
              Sample.minimal [] in
  let failed := Validator_call Sample.compile
                  (Sample.validator [] [Sample.fail_a; Sample.step_b])
                  Sample.minimal [] in
  ok.1.1 = Ok (Dict.set "b" (JBool true)
                 (Dict.set "a" (JBool true) Sample.minimal))
  ∧ ok.2 = ["schema"; "A"; "B"]
  ∧ failed.1.1 = Raise (OtherError "ValueError")
  ∧ failed.2 = ["schema"; "A"].
Proof.
  pose proof (extra_validations_in_order Sample.compile
                (Sample.validator [] [Sample.step_a; Sample.step_b])
                Sample.step_a Sample.step_b Sample.minimal [] _ _ _ _
                eq_refl eq_refl eq_refl) as [Hok _].
  pose proof (extra_validations_in_order Sample.compile
                (Sample.validator [] [Sample.fail_a; Sample.step_b])
                Sample.fail_a Sample.step_b Sample.minimal [] _ _ _ _
                eq_refl eq_refl eq_refl) as [_ Hfail].
  intros ok failed. subst ok failed.
  rewrite (Hok _ _ eq_refl), (Hfail _ _ eq_refl). by repeat split.
Defined.

(** ** Vendoring: computations on the world *)

Lemma triple_ret {A : Type} (P : world → Prop) (a : A)
    (Q : A → world → Prop) (E : exn → world → Prop) :
  (∀ w, P w → Q a w) → triple P (mret a) Q E.
Proof. intros H w Hw. by apply H. Qed.

Lemma triple_bind {A B : Type} (P : world → Prop) (m : V A) (k : A → V B)
    (Q : A → world → Prop) (R : B → world → Prop) (E : exn → world → Prop) :
  triple P m Q E → (∀ a, triple (Q a) (k a) R E) → triple P (m ≫= k) R E.
Proof.
  intros Hm Hk w Hw. specialize (Hm w Hw). cbv [mbind V_bind].
  destruct (m w) as [[a|e] w1]; [by apply Hk | done].
Qed.

(** Computations that leave the files alone. *)
Lemma triple_quiet {A : Type} (I E : gmap string string → Prop) (m : V A) :
  (∀ w, files (m w).2 = files w) →
  (∀ fs, I fs → E fs) →
  triple (on_files I) m (fun _ => on_files I) (fun _ => on_files E).
Proof.
  intros Hq HE w Hw. specialize (Hq w). unfold on_files in *.
  destruct (m w) as [[a|e] w1]; cbn [snd] in Hq; rewrite Hq; auto.
Qed.

Lemma quiet_liftR {A : Type} (r : result A) (w : world) :
  files (liftR r w).2 = files w.
Proof. done. Qed.

Lemma quiet_liftM {A : Type} (m : M A) (w : world) :
  files (liftM m w).2 = files w.
Proof. unfold liftM. by destruct (m (logs w)). Qed.

Lemma quiet_mkdir (path : string) (w : world) :
  files (mkdir path w).2 = files w.
Proof.
  unfold mkdir, next_outcome, raise. cbv [mbind mret V_bind V_ret].
  by destruct (outcomes w) as [|[f|] rest].
Qed.

(** A write puts the text in the file, or fails and leaves the file as it
    was or with something else in it. *)
Lemma triple_write (I Q E : gmap string string → Prop) (path text : string) :
  (∀ fs, I fs → Q (<[path := text]> fs)) →
  (∀ fs, I fs → E fs) →
  (∀ fs part, I fs → E (<[path := part]> fs)) →
  triple (on_files I) (write_text path text)
    (fun _ => on_files Q) (fun _ => on_files E).
Proof.
  intros HQ HE HE' w Hw. unfold on_files in *.
  unfold write_text, next_outcome, set_file, raise.
  cbv [mbind mret V_bind V_ret].
  destruct (outcomes w) as [|[f|] rest]; cbn [files]; [by apply HQ | | by apply HQ].
  destruct (left_in_file f); cbn [files]; [by apply HE' | by apply HE].
Qed.

Lemma triple_touch (I Q E : gmap string string → Prop) (path : string) :
  (∀ fs, I fs → is_Some (fs !! path) → Q fs) →
  (∀ fs, I fs → fs !! path = None → Q (<[path := ""]> fs)) →
  (∀ fs, I fs → E fs) →
  triple (on_files I) (touch path)
    (fun _ => on_files Q) (fun _ => on_files E).
Proof.
  intros HS HN HE w Hw. unfold on_files in *.
  unfold touch, next_outcome, set_file, raise.
  cbv [mbind mret V_bind V_ret].
  destruct (outcomes w) as [|[f|] rest]; cbn [files]; [| by apply HE |];
    (destruct (files w !! path) eqn:E1; cbn [files];
     [apply HS; [done | by rewrite E1] | by apply HN]).
Qed.

(** ** Vendoring: licences and the NOTICE file *)

Section VendoringFacts.
Context {FormatFn T World : Type}.
Variable load : string -> result Schema.
Variable list_from_entry_points : result (list (Plugin FormatFn)).
Variable FORMAT_FUNCTIONS : gmap string FormatFn.
Variable EXTRA_VALIDATIONS : list (@ValidationFn T World).
Variable FJS_compile_to_code :
  Schema -> RefHandler -> gmap string FormatFn -> result string * RefHandler.
Variable re_flag : string -> Z.
Variable repr : string -> string.
Variable sub_validation_fn_def : string -> string.
Variable literal_eval : string -> result string.
Variable pickle_loads : string -> result (list (string * Pattern)).
Variable read_text : string -> string -> result string.
Variable str_format : string -> list (string * string) -> result string.
Variable upper : string -> string.
Variable metadata_files : string -> result (option (list PackagePath)).
Variable dist_name : string.
Variable path_join : string -> string -> string.

Local Abbreviation find := (_find_and_load_licence upper).
Local Abbreviation licenses := (load_licenses upper metadata_files dist_name).
Local Abbreviation notice :=
  (write_notice read_text str_format upper metadata_files dist_name path_join).
Local Abbreviation run :=
  (vendorify load list_from_entry_points FORMAT_FUNCTIONS EXTRA_VALIDATIONS
     FJS_compile_to_code re_flag repr sub_validation_fn_def literal_eval
     pickle_loads read_text str_format upper metadata_files dist_name
     path_join).

Lemma next_license_missing (l : list PackagePath) :
  Forall (fun f => upper (stem f) ≠ "LICENSE") l →
  next_license upper l = Raise StopIteration.
Proof.
  induction 1 as [|f l Hf _ IH]; [done |].
  cbn [next_license]. apply String.eqb_neq in Hf. by rewrite Hf.
Qed.

Lemma find_missing (files : option (list PackagePath)) :
  license_missing upper files → ∃ e, find files = Raise e.
Proof.
  destruct files as [l|]; cbn [license_missing _find_and_load_licence].
  - intros H. rewrite next_license_missing by done. by eexists.
  - by eexists.
Qed.

Lemma load_licenses_missing :
  attribution_missing upper metadata_files dist_name →
  ∃ e, licenses = Raise e.
Proof.
  unfold load_licenses. cbv [mbind result_bind].
  intros [(files & -> & Hmiss) | (files1 & text & files & -> & -> & -> & Hmiss)];
    apply find_missing in Hmiss as [e ->]; by eexists.
Qed.

(** A failed licence lookup stops [write_notice] before it writes. *)
Lemma write_notice_aborts out main_file cmd replacements e w :
  licenses = Raise e →
  ∃ e', notice out main_file cmd replacements w = (Raise e', w).
Proof.
  intros Hlic. unfold write_notice. cbv [mbind V_bind liftR result_bind].
  rewrite Hlic.
  destruct (negb (String.eqb cmd "")).
  - destruct (read_text vendoring_name "cli-notice.template") as [o|]; [| by eexists].
    destruct (str_format o _); [| by eexists].
    destruct (read_text vendoring_name "NOTICE.template"); by eexists.
  - destruct (read_text vendoring_name "api-notice.template"); [| by eexists].
    destruct (read_text vendoring_name "NOTICE.template"); by eexists.
Qed.

Lemma triple_notice_aborts (I : gmap string string → Prop)
    out main_file cmd replacements e :
  licenses = Raise e →
  triple (on_files I) (notice out main_file cmd replacements)
    (fun _ _ => False) (fun _ => on_files I).
Proof.
  intros Hlic w Hw.
  by destruct (write_notice_aborts out main_file cmd replacements e w Hlic)
    as [e' ->].
Qed.

(** The steps of the pipeline that write or touch one file. *)
Lemma triple_copy_exceptions (I Q E : gmap string string → Prop)
    out replacements :
  (∀ fs t, I fs → Q (<[path_join out "fastjsonschema_exceptions.py" := t]> fs)) →
  (∀ fs, I fs → E fs) →
  (∀ fs t, I fs → E (<[path_join out "fastjsonschema_exceptions.py" := t]> fs)) →
  triple (on_files I)
    (copy_fastjsonschema_exceptions read_text path_join out replacements)
    (fun _ => on_files Q) (fun _ => on_files E).
Proof.
  intros HQ HE HE'. unfold copy_fastjsonschema_exceptions.
  eapply triple_bind;
    [apply (triple_quiet I E); [apply quiet_liftR | done] | intros code].
  eapply triple_bind; [apply (triple_write I Q E); auto | intros ?].
  by apply triple_ret.
Qed.

Lemma triple_copy_module (I Q E : gmap string string → Prop)
    name out replacements :
  (∀ fs t, I fs → Q (<[path_join out (name +:+ ".py") := t]> fs)) →
  (∀ fs, I fs → E fs) →
  (∀ fs t, I fs → E (<[path_join out (name +:+ ".py") := t]> fs)) →
  triple (on_files I) (copy_module read_text path_join name out replacements)
    (fun _ => on_files Q) (fun _ => on_files E).
Proof.
  intros HQ HE HE'. unfold copy_module.
  eapply triple_bind;
    [apply (triple_quiet I E); [apply quiet_liftR | done] | intros code].
  eapply triple_bind; [apply (triple_write I Q E); auto | intros ?].
  by apply triple_ret.
Qed.

Lemma triple_write_main (I Q E : gmap string string → Prop)
    file_path schema replacements :
  (∀ fs, I fs → is_Some (fs !! file_path) → Q fs) →
  (∀ fs, I fs → fs !! file_path = None → Q (<[file_path := ""]> fs)) →
  (∀ fs, I fs → E fs) →
  triple (on_files I) (write_main file_path schema replacements)
    (fun _ => on_files Q) (fun _ => on_files E).
Proof.
  intros HS HN HE. unfold write_main.
  eapply triple_bind; [by apply (triple_touch I Q E) | intros ?].
  by apply triple_ret.
Qed.

Lemma triple_write_notice (I Q E : gmap string string → Prop)
    out main_file cmd replacements :
  (∀ fs t, I fs → Q (<[path_join out "NOTICE" := t]> fs)) →
  (∀ fs, I fs → E fs) →
  (∀ fs t, I fs → E (<[path_join out "NOTICE" := t]> fs)) →
  triple (on_files I) (notice out main_file cmd replacements)
    (fun _ => on_files Q) (fun _ => on_files E).
Proof.
  intros HQ HE HE'. unfold write_notice.
  eapply triple_bind; [| intros opening].
  { destruct (negb (String.eqb cmd ""));
      (apply (triple_quiet I E); [apply quiet_liftR | done]). }
  eapply triple_bind;
    [apply (triple_quiet I E); [apply quiet_liftR | done] | intros template].
  eapply triple_bind;
    [apply (triple_quiet I E); [apply quiet_liftR | done] | intros found].
  eapply triple_bind;
    [apply (triple_quiet I E); [apply quiet_liftR | done] | intros text].
  eapply triple_bind; [apply (triple_write I Q E); auto | intros ?].
  by apply triple_ret.
Qed.

(** C9, amended.  The licence of an embedded dependency cannot be located.
    When the package files are unavailable the lookup raises [ImportError]
    with the message of the source.  In either case [load_licenses] raises,
    [write_notice] raises without touching the disk, and the pipeline as a
    whole raises and leaves the [NOTICE] file of the output directory as it
    was before the run, provided that none of the names the pipeline
    writes or touches before, the main file among them, stands for the
    [NOTICE] file itself.  This holds whether or not the calls to the file
    system on the way fail. *)
Theorem missing_license_aborts output_dir main_file original_cmd plugins
    text_replacements w :
  attribution_missing upper metadata_files dist_name →
  Forall (fun name => path_join output_dir name ≠ path_join output_dir "NOTICE")
    (before_notice main_file) →
  find None = Raise (ImportError "Could not find LICENSE for package")
  ∧ (∃ e, licenses = Raise e)
  ∧ (∀ out m cmd replacements w0,
       ∃ e, notice out m cmd replacements w0 = (Raise e, w0))
  ∧ ∃ e w',
      run output_dir main_file original_cmd plugins text_replacements w
      = (Raise e, w')
      ∧ files w' !! path_join output_dir "NOTICE"
        = files w !! path_join output_dir "NOTICE".
Proof.
  intros Hmiss Hapart.
  destruct (load_licenses_missing Hmiss) as [e Hlic].
  split; [done |]. split; [by eexists |].
  split; [intros; by eapply write_notice_aborts |].
  set (I := fun fs : gmap string string =>
              fs !! path_join output_dir "NOTICE"
              = files w !! path_join output_dir "NOTICE").
  assert (Hw : ∀ name, name ∈ before_notice main_file →
                 ∀ fs t, I fs → I (<[path_join output_dir name := t]> fs)).
  { intros name Hname fs t Hfs. unfold I.
    rewrite lookup_insert_ne; [done |].
    rewrite Forall_forall in Hapart. by apply Hapart. }
  assert (Hquiet : ∀ (A : Type) (m : V A),
            (∀ w, files (m w).2 = files w) →
            triple (on_files I) m (fun _ => on_files I) (fun _ => on_files I)).
  { intros A m Hm. by apply triple_quiet. }
  assert (Htriple :
            triple (on_files I)
              (run output_dir main_file original_cmd plugins text_replacements)
              (fun _ _ => False) (fun _ => on_files I)).
  { unfold vendorify. cbv zeta.
    eapply triple_bind; [apply Hquiet, quiet_mkdir | intros ?].
    eapply triple_bind; [apply Hquiet, quiet_liftM | intros validator].
    eapply triple_bind; [apply Hquiet, quiet_liftR | intros schema].
    destruct (Validator_formats validator) as [formats validator'].
    eapply triple_bind; [apply Hquiet, quiet_liftR | intros code].
    eapply triple_bind; [apply Hquiet, quiet_liftR | intros code'].
    eapply triple_bind; [apply (triple_write I I I); [| done |] | intros ?];
      [intros fs Hfs; apply Hw; [by left | done]
      | intros fs part Hfs; apply Hw; [by left | done] |].
    eapply triple_bind;
      [apply (triple_copy_exceptions I I I); [| done |] | intros ?];
      [intros fs t Hfs; apply Hw; [right; by left | done]
      | intros fs t Hfs; apply Hw; [right; by left | done] |].
    eapply triple_bind;
      [apply (triple_copy_module I I I "extra_validations"); [| done |]
      | intros ?];
      [intros fs t Hfs; apply Hw; [do 2 right; by left | done]
      | intros fs t Hfs; apply Hw; [do 2 right; by left | done] |].
    eapply triple_bind;
      [apply (triple_copy_module I I I "format"); [| done |] | intros ?];
      [intros fs t Hfs; apply Hw; [do 3 right; by left | done]
      | intros fs t Hfs; apply Hw; [do 3 right; by left | done] |].
    eapply triple_bind; [apply Hquiet, quiet_liftR | intros schema'].
    eapply triple_bind;
      [apply (triple_write_main I I I); [done | | done] | intros ?];
      [intros fs Hfs _; apply Hw; [do 4 right; by left | done] |].
    eapply triple_bind; [by eapply triple_notice_aborts | intros ?].
    by intros w1 []. }
  specialize (Htriple w eq_refl).
  destruct (run output_dir main_file original_cmd plugins text_replacements w)
    as [[a|e'] w']; [done |].
  by exists e', w'.
Qed.
End VendoringFacts.

Lemma sample_attribution_missing :
  attribution_missing Sample.upper Sample.metadata_files Sample.dist_name.
Proof.
  right. exists (Some Sample.fjs_files), "BSD 3-Clause", (Some Sample.own_files).
  repeat split. repeat constructor. vm_compute. discriminate.
Qed.

Lemma missing_license_aborts_witness :
  ∃ e w',
    Sample.vendor Sample.metadata_files Sample.empty_disk = (Raise e, w')
    ∧ files w' !! "out/NOTICE" = None.
Proof.
  destruct (missing_license_aborts (T := Sample.doc) (World := Sample.trace)
              Sample.load (Ok []) {[ "f" := Sample.any_text ]} []
              Sample.compile_to_code Sample.re_flag Sample.repr
              (fun code => code) (fun s => Ok s) (fun _ => Ok [])
              Sample.read_text Sample.str_format Sample.upper
              Sample.metadata_files Sample.dist_name Sample.path_join
              "out" "__init__.py" "" ALL_PLUGINS [] Sample.empty_disk
              sample_attribution_missing)
    as (_ & _ & _ & e & w' & Hrun & Hnotice).
  - repeat constructor; vm_compute; discriminate.
  - exists e, w'. split; [exact Hrun | exact Hnotice].
Defined.

(** C9 as stated fails on the class of the exception: with the list of
    files unavailable the lookup and the pipeline raise [ImportError], and
    with a list that holds no licence they raise [StopIteration]; the
    pipeline has written the other files by then. *)
Lemma missing_license_error_class :
  _find_and_load_licence Sample.upper None
  = Raise (ImportError "Could not find LICENSE for package")
  ∧ (Sample.vendor Sample.metadata_files_none Sample.empty_disk).1
    = Raise (ImportError "Could not find LICENSE for package")
  ∧ exn_class (ImportError "Could not find LICENSE for package")
    ≠ "AttributionMissingError"
  ∧ _find_and_load_licence Sample.upper (Some Sample.own_files)
    = Raise StopIteration
  ∧ (Sample.vendor Sample.metadata_files Sample.empty_disk).1
    = Raise StopIteration
  ∧ exn_class StopIteration ≠ "AttributionMissingError"
  ∧ is_Some (files (Sample.vendor Sample.metadata_files Sample.empty_disk).2
             !! "out/fastjsonschema_validations.py").
Proof.
  repeat split; try (vm_compute; reflexivity); try discriminate.
  vm_compute. eauto.
Qed.

(** ** Strings *)

(** [+:+] is kept folded by [simpl] and [cbn]: one step of it. *)
Lemma append_cons (c : ascii) (a b : string) :
  String c a +:+ b = String c (a +:+ b).
Proof. reflexivity. Qed.

Lemma append_nil_l (b : string) : "" +:+ b = b.
Proof. reflexivity. Qed.

Lemma append_nil_r (s : string) : s +:+ "" = s.
Proof.
  induction s as [|c s IH]; [done |]. by rewrite append_cons, IH.
Qed.

Lemma append_assoc (a b c : string) : (a +:+ b) +:+ c = a +:+ b +:+ c.
Proof.
  induction a as [|x a IH]; [done |]. by rewrite !append_cons, IH.
Qed.

Lemma prefix_append (p r : string) : String.prefix p (p +:+ r) = true.
Proof.
  induction p as [|c p IH].
  - rewrite append_nil_l. by destruct r.
  - rewrite append_cons. cbn [String.prefix]. by destruct (ascii_dec c c).
Qed.

Lemma prefix_inv (p : string) : ∀ s,
  String.prefix p s = true → ∃ r, s = p +:+ r.
Proof.
  induction p as [|c p IH]; intros s H.
  - by exists s.
  - destruct s as [|d s]; [done |]. cbn [String.prefix] in H.
    destruct (ascii_dec c d) as [<- |]; [| done].
    destruct (IH s H) as [r ->]. by exists r.
Qed.

(** ** [str.replace] *)

Lemma replace_from_skip (old new a : string) : ∀ s,
  replace_from old new (String.length a) (a +:+ s) = replace_from old new 0 s.
Proof. induction a as [|c a IH]; intros s; [done | apply IH]. Qed.

Lemma replace_from_occurrence (old new s : string) :
  old ≠ "" →
  replace_from old new 0 (old +:+ s) = new +:+ replace_from old new 0 s.
Proof.
  destruct old as [|c old]; [done |]. intros _.
  change (String c old +:+ s) with (String c (old +:+ s)).
  cbn [replace_from].
  change (String c (old +:+ s)) with (String c old +:+ s) at 1.
  rewrite prefix_append. cbn [String.length]. rewrite Nat.sub_1_r. cbn [Nat.pred].
  by rewrite replace_from_skip.
Qed.

Lemma replace_from_before (old new pre rest : string) :
  absent_before old pre rest = true →
  replace_from old new 0 (pre +:+ rest)
  = pre +:+ replace_from old new 0 rest.
Proof.
  induction pre as [|c pre IH]; [done |].
  cbn [absent_before]. intros [Hc Hpre]%andb_true_iff.
  apply negb_true_iff in Hc.
  change (String c pre +:+ rest) with (String c (pre +:+ rest)) in *.
  cbn [replace_from]. rewrite Hc, IH by done. done.
Qed.

Lemma replace_from_absent (old new : string) : ∀ s,
  is_substring old s = false → replace_from old new 0 s = s.
Proof.
  induction s as [|c s IH]; [done |].
  cbn [is_substring]. intros [Hc Hs]%orb_false_iff.
  cbn [replace_from]. by rewrite Hc, IH.
Qed.

(** One occurrence, with nothing before it and nothing after it that
    [str.replace] could take for another one. *)
Lemma str_replace_once (old new pre post : string) :
  old ≠ "" →
  absent_before old pre (old +:+ post) = true →
  is_substring old post = false →
  str_replace old new (pre +:+ old +:+ post) = pre +:+ new +:+ post.
Proof.
  intros Hold Hpre Hpost. unfold str_replace.
  destruct old as [|c old]; [done |].
  by rewrite replace_from_before, replace_from_occurrence, replace_from_absent.
Qed.

(** ** Flags of a compiled regular expression *)

Lemma land_single_bit (x : Z) (n : Z) :
  0 ≤ n → Z.land x (2 ^ n) = 0 ∨ Z.land x (2 ^ n) = 2 ^ n.
Proof.
  intros Hn. destruct (Z.testbit x n) eqn:E; [right | left];
    apply Z.bits_inj'; intros m Hm;
    rewrite Z.land_spec, Z.pow2_bits_eqb by done;
    destruct (Z.eqb_spec n m) as [<- |];
    rewrite ?E, ?Z.bits_0, ?andb_false_r; done.
Qed.

Lemma flags_value_filter (re_flag : string → Z) (x : Z) (names : list string) :
  (∀ f, f ∈ names → ∃ n, 0 ≤ n ∧ re_flag f = 2 ^ n) →
  flags_value re_flag (filter (fun f => Z.land x (re_flag f) ≠ 0) names)
  = Z.land x (flags_value re_flag names).
Proof.
  induction names as [|f names IH]; intros Hbits.
  - cbn. by rewrite Z.land_0_r.
  - destruct (Hbits f) as (n & Hn & Hf); [by left |].
    rewrite filter_cons. cbn [flags_value fold_right].
    fold (flags_value re_flag names).
    rewrite Z.land_lor_distr_r, <- IH by (intros g Hg; apply Hbits; by right).
    case_decide as Hset.
    + cbn [flags_value fold_right]. f_equal.
      rewrite Hf in *. by destruct (land_single_bit x n Hn) as [H0 | ->].
    + by rewrite Hset.
Qed.

(** ** Lines *)

Lemma split_lines_cons (s : string) : ∃ l ls, split_lines s = l :: ls.
Proof.
  induction s as [|c s (l & ls & IH)]; [by eexists _, _ |].
  cbn [split_lines]. destruct (Ascii.eqb c newline); [by eexists _, _ |].
  rewrite IH. by eexists _, _.
Qed.

Lemma split_lines_app_nl (a b : string) :
  split_lines (a +:+ NL +:+ b) = split_lines a ++ split_lines b.
Proof.
  induction a as [|c a IH].
  - done.
  - rewrite append_cons. cbn [split_lines].
    destruct (Ascii.eqb c newline); [by rewrite IH |].
    rewrite IH. by destruct (split_lines_cons a) as (l & ls & ->).
Qed.

Lemma split_lines_app (a b l : string) (ls : list string) :
  no_newline a = true → split_lines b = l :: ls →
  split_lines (a +:+ b) = (a +:+ l) :: ls.
Proof.
  intros Ha Hb. induction a as [|c a IH]; [done |].
  cbn [no_newline] in Ha. apply andb_true_iff in Ha as [Hc Ha].
  apply negb_true_iff in Hc.
  rewrite !append_cons. cbn [split_lines]. by rewrite Hc, IH.
Qed.

Lemma split_lines_one (a : string) :
  no_newline a = true → split_lines a = [a].
Proof.
  intros Ha. rewrite <- (append_nil_r a) at 1.
  rewrite (split_lines_app a "" "" []) by done. by rewrite append_nil_r.
Qed.

Lemma no_newline_app (a b : string) :
  no_newline (a +:+ b) = no_newline a && no_newline b.
Proof.
  induction a as [|c a IH]; [done |].
  rewrite append_cons. cbn [no_newline]. by rewrite IH, andb_assoc.
Qed.

Lemma first_pickled_app (l1 l2 : list string) :
  first_pickled (l1 ++ l2)
  = match first_pickled l1 with
    | Some m => Some m
    | None => first_pickled l2
    end.
Proof.
  induction l1 as [|l l1 IH]; [done |].
  cbn [app first_pickled]. by destruct (match_pickled_line l).
Qed.

Lemma search_pickled_app_nl (a b : string) :
  search_pickled (a +:+ NL +:+ b)
  = match search_pickled a with
    | Some m => Some m
    | None => search_pickled b
    end.
Proof.
  unfold search_pickled. by rewrite split_lines_app_nl, first_pickled_app.
Qed.

(** A prefix without line feed is read off the first line. *)
Lemma prefix_first_line (p : string) : ∀ s l ls,
  no_newline p = true → split_lines s = l :: ls →
  String.prefix p s = String.prefix p l.
Proof.
  induction p as [|a p IH]; intros s l ls Hp Hs.
  - by destruct s, l.
  - cbn [no_newline] in Hp. apply andb_true_iff in Hp as [Ha Hp].
    apply negb_true_iff, Ascii.eqb_neq in Ha.
    destruct s as [|b s]; [by injection Hs as <- <- |].
    cbn [split_lines] in Hs. destruct (Ascii.eqb_spec b newline) as [-> | Hb].
    + injection Hs as <- <-. cbn [String.prefix].
      by destruct (ascii_dec a newline).
    + destruct (split_lines_cons s) as (l' & ls' & Hs'). rewrite Hs' in Hs.
      injection Hs as <- <-. cbn [String.prefix].
      destruct (ascii_dec a b); [by eapply IH | done].
Qed.

Lemma prefix_nl_free (p : string) : ∀ s,
  no_newline p = true → String.prefix p s = true →
  nl_free_upto (String.length p) s = true.
Proof.
  induction p as [|a p IH]; intros s Hp Hs; [done |].
  cbn [no_newline] in Hp. apply andb_true_iff in Hp as [Ha Hp].
  destruct s as [|b s]; [done |]. cbn [String.prefix] in Hs.
  destruct (ascii_dec a b) as [<- |]; [| done].
  cbn [String.length nl_free_upto]. by rewrite Ha, IH.
Qed.

Lemma prefix_at_newline (p s : string) :
  p ≠ "" → no_newline p = true → String.prefix p (String newline s) = false.
Proof.
  destruct p as [|a p]; [done |]. intros _ Hp.
  cbn [no_newline] in Hp. apply andb_true_iff in Hp as [Ha _].
  apply negb_true_iff, Ascii.eqb_neq in Ha.
  cbn [String.prefix]. by destruct (ascii_dec a newline).
Qed.

(** Replacing a text without line feed by another one works line by
    line. *)
Lemma replace_from_lines (old new : string) :
  old ≠ "" → no_newline old = true → no_newline new = true →
  ∀ s n l ls,
    nl_free_upto n s = true → split_lines s = l :: ls →
    split_lines (replace_from old new n s)
    = replace_from old new n l :: map (replace_from old new 0) ls.
Proof.
  intros Hold Hnl Hnew. induction s as [|c s IH]; intros n l ls Hn Hs.
  - injection Hs as <- <-. by destruct n.
  - destruct (split_lines_cons s) as (l' & ls' & Hs').
    pose proof Hs as Hline. cbn [split_lines] in Hs. rewrite Hs' in Hs.
    destruct n as [|k].
    + destruct (Ascii.eqb_spec c newline) as [-> | Hc].
      * injection Hs as <- <-. cbn [replace_from].
        rewrite prefix_at_newline by done.
        cbn [split_lines map]. rewrite Ascii.eqb_refl.
        by rewrite (IH 0%nat l' ls').
      * injection Hs as <- <-. cbn [replace_from].
        rewrite (prefix_first_line old _ _ _ Hnl Hline).
        destruct (String.prefix old (String c l')) eqn:Hpre.
        -- assert (Hfree : nl_free_upto (String.length old - 1) s = true).
           { rewrite <- (prefix_first_line old _ _ _ Hnl Hline) in Hpre.
             apply prefix_nl_free in Hpre; [| done].
             destruct old as [|a old]; [done |].
             cbn [String.length nl_free_upto] in Hpre.
             apply andb_true_iff in Hpre as [_ Hpre].
             by rewrite Nat.sub_1_r. }
           by rewrite (split_lines_app new _ _ _ Hnew (IH _ l' ls' Hfree Hs')).
        -- cbn [split_lines]. apply Ascii.eqb_neq in Hc. rewrite Hc.
           by rewrite (IH 0%nat l' ls').
    + cbn [nl_free_upto] in Hn. apply andb_true_iff in Hn as [Hc Hn].
      apply negb_true_iff in Hc. rewrite Hc in Hs. injection Hs as <- <-.
      cbn [replace_from]. by apply IH.
Qed.

Lemma str_replace_lines (old new s : string) :
  old ≠ "" → no_newline old = true → no_newline new = true →
  split_lines (str_replace old new s) = map (str_replace old new) (split_lines s).
Proof.
  intros Hold Hnl Hnew. destruct (split_lines_cons s) as (l & ls & Hs).
  rewrite Hs. unfold str_replace. destruct old as [|a old]; [done |].
  by rewrite (replace_from_lines _ _ Hold Hnl Hnew s 0%nat l ls).
Qed.

(** ** Replacement and the pickled assignment *)

Lemma strip_atoms_mismatch (p : list (option ascii)) : ∀ j x,
  mismatch p j = true → strip_atoms p (j +:+ x) = None.
Proof.
  induction p as [|a p IH]; intros j x H; [done |].
  destruct j as [|b j]; [done |]. cbn [mismatch] in H.
  rewrite append_cons. cbn [strip_atoms].
  destruct (atom_matches a b); [by apply IH | done].
Qed.

Lemma strip_atoms_replace (old new : string) (p : list (option ascii)) :
  never_starts new p = true →
  ∀ l rest',
    strip_atoms p (replace_from old new 0 l) = Some rest' →
    ∃ rest, strip_atoms p l = Some rest
            ∧ rest' = replace_from old new 0 rest.
Proof.
  induction p as [|a p IH]; intros Hsafe l rest' H.
  - injection H as <-. by exists l.
  - cbn [never_starts] in Hsafe. apply andb_true_iff in Hsafe as [Hmis Hsafe].
    destruct l as [|c l]; [done |]. cbn [replace_from] in H.
    destruct (String.prefix old (String c l)).
    + by rewrite strip_atoms_mismatch in H.
    + cbn [strip_atoms] in *. destruct (atom_matches a c); [by apply IH | done].
Qed.

Lemma ends_with_char_cons (c d : ascii) (s : string) :
  ends_with_char c (String d s)
  = match s with
    | EmptyString => Ascii.eqb c d
    | _ => ends_with_char c s
    end.
Proof. by destruct s. Qed.

Lemma ends_with_char_app (c : ascii) (a x : string) :
  x ≠ "" → ends_with_char c (a +:+ x) = ends_with_char c x.
Proof.
  intros Hx. induction a as [|d a IH]; [done |].
  rewrite append_cons, ends_with_char_cons, IH.
  destruct (a +:+ x) eqn:E; [| done].
  destruct a; [by rewrite append_nil_l in E | by rewrite append_cons in E].
Qed.

Lemma replace_from_nil (old new l : string) :
  new ≠ "" → replace_from old new 0 l = "" → l = "".
Proof.
  intros Hnew. destruct l as [|c l]; [done |]. cbn [replace_from].
  destruct (String.prefix old (String c l)); [| done].
  destruct new; [done | by rewrite append_cons].
Qed.

Lemma ends_with_replace (old new : string) (c : ascii) :
  new ≠ "" → ends_with_char c new = false →
  ∀ l n,
    ends_with_char c (replace_from old new n l) = true →
    ends_with_char c l = true.
Proof.
  intros Hnew Hend. induction l as [|d l IH]; intros n H; [by destruct n |].
  rewrite ends_with_char_cons. destruct n as [|k]; cbn [replace_from] in H.
  - destruct (String.prefix old (String d l)).
    + destruct (replace_from old new (String.length old - 1) l) eqn:E.
      * by rewrite append_nil_r, Hend in H.
      * rewrite ends_with_char_app in H by done. rewrite <- E in H.
        apply IH in H. by destruct l.
    + rewrite ends_with_char_cons in H.
      destruct (replace_from old new 0 l) eqn:E.
      * apply replace_from_nil in E as ->; done.
      * rewrite <- E in H. apply IH in H. by destruct l.
  - apply IH in H. by destruct l.
Qed.

(** A line that is not a pickled assignment does not become one. *)
Lemma match_pickled_replace (old new l : string) :
  never_starts new PICKLED_HEAD = true →
  new ≠ "" → ends_with_char ")" new = false →
  match_pickled_line l = None →
  match_pickled_line (replace_from old new 0 l) = None.
Proof.
  intros Hsafe Hnew Hend Hl. unfold match_pickled_line in *.
  destruct (strip_atoms PICKLED_HEAD (replace_from old new 0 l))
    as [rest'|] eqn:E; [| done].
  apply strip_atoms_replace in E as (rest & Hrest & ->); [| done].
  rewrite Hrest in Hl.
  destruct (ends_with_char ")" (replace_from old new 0 rest)) eqn:E2; [| done].
  apply ends_with_replace in E2; [| done..]. by rewrite E2 in Hl.
Qed.

Lemma first_pickled_replace (old new : string) (ls : list string) :
  never_starts new PICKLED_HEAD = true →
  new ≠ "" → ends_with_char ")" new = false →
  first_pickled ls = None →
  first_pickled (map (replace_from old new 0) ls) = None.
Proof.
  intros Hsafe Hnew Hend. induction ls as [|l ls IH]; [done |].
  cbn [first_pickled map].
  destruct (match_pickled_line l) eqn:E; [done |]. intros H.
  by rewrite match_pickled_replace, IH.
Qed.

(** ** The regex table *)

Lemma concat_no_newline (sep : string) (l : list string) :
  no_newline sep = true → Forall (fun x => no_newline x = true) l →
  no_newline (String.concat sep l) = true.
Proof.
  intros Hsep. induction 1 as [|x l Hx Hl IH]; [done |].
  cbn [String.concat]. destruct l as [|y l]; [done |].
  by rewrite !no_newline_app, Hx, Hsep, IH.
Qed.

Lemma headers_searched (code : string) :
  search_pickled (String.concat NL NOCHECK_HEADERS +:+ code)
  = search_pickled code.
Proof.
  assert (H : String.concat NL NOCHECK_HEADERS
              = drop_last (String.concat NL NOCHECK_HEADERS) +:+ NL)
    by (vm_compute; reflexivity).
  rewrite H, append_assoc, search_pickled_app_nl.
  assert (Hnone : search_pickled (drop_last (String.concat NL NOCHECK_HEADERS))
                  = None) by (vm_compute; reflexivity).
  by rewrite Hnone.
Qed.

Lemma indented_line (x : string) :
  no_newline x = true → search_pickled ("    " +:+ x) = None.
Proof.
  intros Hx. unfold search_pickled.
  rewrite split_lines_one by (by rewrite no_newline_app, Hx).
  reflexivity.
Qed.

Lemma indented_lines (entries : list string) :
  Forall (fun x => no_newline x = true) entries →
  search_pickled
    ("    " +:+ String.concat ("," +:+ NL +:+ "    ") entries) = None.
Proof.
  induction 1 as [|x l Hx Hl IH]; [reflexivity |].
  cbn [String.concat]. destruct l as [|y l]; [by apply indented_line |].
  assert (E : "    " +:+ x +:+ ("," +:+ NL +:+ "    ")
                +:+ String.concat ("," +:+ NL +:+ "    ") (y :: l)
              = ("    " +:+ x +:+ ",") +:+ NL
                +:+ "    " +:+ String.concat ("," +:+ NL +:+ "    ") (y :: l)).
  { change ("    " +:+ x +:+ ",") with ("    " +:+ (x +:+ ",")).
    by rewrite !append_assoc. }
  rewrite E, search_pickled_app_nl.
  change ("    " +:+ x +:+ ",") with ("    " +:+ (x +:+ ",")).
  rewrite indented_line by (by rewrite no_newline_app, Hx). apply IH.
Qed.

Section TableFacts.
Variable re_flag : string -> Z.
Variable repr : string -> string.
Hypothesis repr_no_newline : ∀ s, no_newline (repr s) = true.

Lemma repr_regex_no_newline (regex : Pattern) :
  no_newline (_repr_regex re_flag repr regex) = true.
Proof.
  unfold _repr_regex.
  assert (Hflags : no_newline
            (String.concat " | "
               (map (fun f => "re." +:+ f) (flags_set re_flag regex))) = true).
  { apply concat_no_newline; [done |].
    apply Forall_forall. intros x Hx.
    apply list_elem_of_In, in_map_iff in Hx as (f & <- & Hf).
    apply list_elem_of_In, list_elem_of_filter in Hf as [_ Hf].
    rewrite no_newline_app. apply andb_true_iff. split; [done |].
    unfold all_flags in Hf. repeat (apply elem_of_cons in Hf as [-> | Hf]; [done |]).
    by apply elem_of_nil in Hf. }
  rewrite !no_newline_app, repr_no_newline.
  destruct (negb _); by rewrite ?no_newline_app, ?Hflags.
Qed.

Lemma regex_entry_no_newline (kv : string * Pattern) :
  no_newline (regex_entry re_flag repr kv) = true.
Proof.
  unfold regex_entry.
  by rewrite !no_newline_app, repr_no_newline, repr_regex_no_newline.
Qed.

Lemma flags_set_named (regex : Pattern) (names : list string) :
  filter (fun f => Z.land (flags regex) (re_flag f) ≠ 0) names
  = named_flags re_flag (flags regex) names.
Proof.
  induction names as [|f names IH]; [done |].
  rewrite filter_cons. cbn [named_flags]. rewrite IH.
  destruct (Z.eqb_spec (Z.land (flags regex) (re_flag f)) 0) as [E | E].
  - by rewrite decide_False by (intros H; by apply H).
  - by rewrite decide_True.
Qed.

Lemma concat_or_of (names : list string) :
  String.concat " | " (map (fun f => "re." +:+ f) names) = or_of names.
Proof.
  induction names as [|f [|g names] IH]; [done | done |].
  change (or_of (f :: g :: names))
    with ("re." +:+ f +:+ " | " +:+ or_of (g :: names)).
  by rewrite <- IH.
Qed.

(** [_repr_regex] prints the call the specification describes. *)
Lemma repr_regex_call (regex : Pattern) :
  _repr_regex re_flag repr regex = compile_call re_flag repr regex.
Proof.
  unfold _repr_regex, compile_call, flags_set.
  rewrite concat_or_of, flags_set_named.
  by destruct (named_flags re_flag (flags regex) all_flags) as [|f [|g l]].
Qed.

Lemma concat_entries (regexes : list (string * Pattern)) :
  String.concat ("," +:+ NL +:+ "    ") (map (regex_entry re_flag repr) regexes)
  = literal_entries re_flag repr regexes.
Proof.
  induction regexes as [|[k regex] [|kv regexes] IH]; [done | |].
  - cbn [map String.concat literal_entries]. unfold regex_entry. cbn [fst snd].
    by rewrite repr_regex_call.
  - change (literal_entries re_flag repr ((k, regex) :: kv :: regexes))
      with (repr k +:+ ": " +:+ compile_call re_flag repr regex +:+ ","
            +:+ NL +:+ "    " +:+ literal_entries re_flag repr (kv :: regexes)).
    rewrite <- IH. cbn [map String.concat]. unfold regex_entry at 1.
    cbn [fst snd]. rewrite repr_regex_call.
    by rewrite !append_assoc.
Qed.

(** The table [_fix_generated_code] builds is the literal of the
    specification. *)
Lemma regex_table_literal (regexes : list (string * Pattern)) :
  regex_table re_flag repr regexes = dict_literal re_flag repr regexes.
Proof.
  unfold regex_table, dict_literal. by rewrite concat_entries.
Qed.

Lemma compile_call_no_newline (regex : Pattern) :
  no_newline (compile_call re_flag repr regex) = true.
Proof. rewrite <- repr_regex_call. apply repr_regex_no_newline. Qed.

(** Line [i] of the entries of the literal is the entry of key [i]; a comma
    follows every entry but the last. *)
Lemma literal_entries_line (regexes : list (string * Pattern)) :
  ∀ (i : nat) k regex,
    regexes !! i = Some (k, regex) →
    split_lines ("    " +:+ literal_entries re_flag repr regexes) !! i
    = Some ("    " +:+ repr k +:+ ": " +:+ compile_call re_flag repr regex
            +:+ (if decide (S i = length regexes) then "" else ",")).
Proof.
  induction regexes as [|[k0 r0] [|kv regexes] IH]; intros i k regex Hi;
    [done | |].
  - destruct i as [|i]; [| done]. injection Hi as <- <-.
    cbn [literal_entries length]. rewrite decide_True by done.
    rewrite split_lines_one; [by rewrite append_nil_r |].
    by rewrite !no_newline_app, repr_no_newline, compile_call_no_newline.
  - change (literal_entries re_flag repr ((k0, r0) :: kv :: regexes))
      with (repr k0 +:+ ": " +:+ compile_call re_flag repr r0 +:+ ","
            +:+ NL +:+ "    " +:+ literal_entries re_flag repr (kv :: regexes)).
    assert (E : "    " +:+ repr k0 +:+ ": " +:+ compile_call re_flag repr r0
                  +:+ "," +:+ NL +:+ "    "
                  +:+ literal_entries re_flag repr (kv :: regexes)
                = ("    " +:+ repr k0 +:+ ": "
                     +:+ compile_call re_flag repr r0 +:+ ",")
                  +:+ NL +:+ "    "
                  +:+ literal_entries re_flag repr (kv :: regexes)).
    { change ("    " +:+ repr k0 +:+ ": "
                +:+ compile_call re_flag repr r0 +:+ ",")
        with ("    " +:+ (repr k0 +:+ ": "
                +:+ compile_call re_flag repr r0 +:+ ",")).
      by rewrite !append_assoc. }
    rewrite E, split_lines_app_nl. rewrite split_lines_one.
    + destruct i as [|i].
      * injection Hi as <- <-. cbn [length]. by rewrite decide_False by lia.
      * cbn [app]. refine (eq_trans (IH i k regex Hi) _).
        cbn [length]. by repeat case_decide; try lia.
    + change ("    " +:+ repr k0 +:+ ": "
                +:+ compile_call re_flag repr r0 +:+ ",")
        with ("    " +:+ (repr k0 +:+ ": "
                +:+ compile_call re_flag repr r0 +:+ ",")).
      by rewrite !no_newline_app, repr_no_newline, compile_call_no_newline.
Qed.

Lemma literal_entries_length (regexes : list (string * Pattern)) :
  regexes ≠ [] →
  length (split_lines ("    " +:+ literal_entries re_flag repr regexes))
  = length regexes.
Proof.
  induction regexes as [|[k0 r0] [|kv regexes] IH]; intros Hne; [done | |].
  - cbn [literal_entries length]. rewrite split_lines_one; [done |].
    by rewrite !no_newline_app, repr_no_newline, compile_call_no_newline.
  - change (literal_entries re_flag repr ((k0, r0) :: kv :: regexes))
      with (repr k0 +:+ ": " +:+ compile_call re_flag repr r0 +:+ ","
            +:+ NL +:+ "    " +:+ literal_entries re_flag repr (kv :: regexes)).
    assert (E : "    " +:+ repr k0 +:+ ": " +:+ compile_call re_flag repr r0
                  +:+ "," +:+ NL +:+ "    "
                  +:+ literal_entries re_flag repr (kv :: regexes)
                = ("    " +:+ repr k0 +:+ ": "
                     +:+ compile_call re_flag repr r0 +:+ ",")
                  +:+ NL +:+ "    "
                  +:+ literal_entries re_flag repr (kv :: regexes)).
    { change ("    " +:+ repr k0 +:+ ": "
                +:+ compile_call re_flag repr r0 +:+ ",")
        with ("    " +:+ (repr k0 +:+ ": "
                +:+ compile_call re_flag repr r0 +:+ ",")).
      by rewrite !append_assoc. }
    rewrite E, split_lines_app_nl. rewrite split_lines_one.
    + rewrite length_app, IH by done. done.
    + change ("    " +:+ repr k0 +:+ ": "
                +:+ compile_call re_flag repr r0 +:+ ",")
        with ("    " +:+ (repr k0 +:+ ": "
                +:+ compile_call re_flag repr r0 +:+ ",")).
      by rewrite !no_newline_app, repr_no_newline, compile_call_no_newline.
Qed.

(** The literal has its opening line, one line per key, or an empty one
    when there is no key, and its closing line. *)
Lemma dict_literal_length (regexes : list (string * Pattern)) :
  length (split_lines (dict_literal re_flag repr regexes))
  = (length regexes `max` 1 + 2)%nat.
Proof.
  destruct regexes as [|kv regexes]; [done |].
  unfold dict_literal.
  assert (EA : split_lines "REGEX_PATTERNS = {" = ["REGEX_PATTERNS = {"])
    by reflexivity.
  assert (EB : "    " +:+ literal_entries re_flag repr (kv :: regexes)
                 +:+ NL +:+ "}"
               = ("    " +:+ literal_entries re_flag repr (kv :: regexes))
                 +:+ NL +:+ "}") by (by rewrite append_assoc).
  rewrite split_lines_app_nl, EA, EB, split_lines_app_nl.
  rewrite !length_app, literal_entries_length by done.
  change (split_lines "}") with ["}"]. cbn [length]. lia.
Qed.

Lemma dict_literal_line (regexes : list (string * Pattern))
    (i : nat) k regex :
  regexes !! i = Some (k, regex) →
  split_lines (dict_literal re_flag repr regexes) !! S i
  = Some ("    " +:+ repr k +:+ ": " +:+ compile_call re_flag repr regex
          +:+ (if decide (S i = length regexes) then "" else ",")).
Proof.
  intros Hi. unfold dict_literal.
  assert (EA : split_lines "REGEX_PATTERNS = {" = ["REGEX_PATTERNS = {"])
    by reflexivity.
  assert (EB : "    " +:+ literal_entries re_flag repr regexes +:+ NL +:+ "}"
               = ("    " +:+ literal_entries re_flag repr regexes)
                 +:+ NL +:+ "}") by (by rewrite append_assoc).
  rewrite split_lines_app_nl, EA, EB, split_lines_app_nl.
  apply (lookup_app_l_Some
           ("REGEX_PATTERNS = {"
            :: split_lines ("    " +:+ literal_entries re_flag repr regexes))
           (split_lines "}") (S i)).
  exact (literal_entries_line _ _ _ _ Hi).
Qed.

(** The table that replaces the assignment holds no pickled assignment. *)
Lemma regex_table_searched (regexes : list (string * Pattern)) :
  search_pickled (regex_table re_flag repr regexes) = None.
Proof.
  assert (E : regex_table re_flag repr regexes
              = "REGEX_PATTERNS = {" +:+ NL
                +:+ ("    " +:+ String.concat ("," +:+ NL +:+ "    ")
                                  (map (regex_entry re_flag repr) regexes))
                +:+ NL +:+ "}").
  { unfold regex_table.
    generalize (String.concat ("," +:+ NL +:+ "    ")
                  (map (regex_entry re_flag repr) regexes)).
    intros body.
    change ("REGEX_PATTERNS = {" +:+ NL +:+ ("    " +:+ body) +:+ NL +:+ "}")
      with ("REGEX_PATTERNS = {" +:+ NL +:+ "    " +:+ (body +:+ NL +:+ "}")).
    reflexivity. }
  rewrite E, search_pickled_app_nl.
  assert (E1 : search_pickled "REGEX_PATTERNS = {" = None) by reflexivity.
  rewrite E1, search_pickled_app_nl, indented_lines; [reflexivity |].
  apply Forall_forall. intros x Hx.
  apply list_elem_of_In, in_map_iff in Hx as (kv & <- & _).
  apply regex_entry_no_newline.
Qed.
End TableFacts.

Lemma search_between (pre x post : string) :
  (pre = "" ∨ ∃ pre', pre = pre' +:+ NL) →
  (post = "" ∨ ∃ post', post = NL +:+ post') →
  search_pickled pre = None → search_pickled post = None →
  search_pickled (pre +:+ x +:+ post) = search_pickled x.
Proof.
  intros Hpre Hpost Hnone_pre Hnone_post.
  assert (Hx : search_pickled (x +:+ post) = search_pickled x).
  { destruct Hpost as [-> | [post' ->]]; [by rewrite append_nil_r |].
    rewrite search_pickled_app_nl.
    change (NL +:+ post') with ("" +:+ NL +:+ post') in Hnone_post.
    rewrite search_pickled_app_nl in Hnone_post. cbn in Hnone_post.
    rewrite Hnone_post. by destruct (search_pickled x). }
  destruct Hpre as [-> | [pre' ->]]; [done |].
  rewrite append_assoc, search_pickled_app_nl, Hx.
  rewrite <- (append_nil_r (pre' +:+ NL)), append_assoc in Hnone_pre.
  rewrite search_pickled_app_nl in Hnone_pre.
  by destruct (search_pickled pre').
Qed.

Section FixFacts.
Variable re_flag : string -> Z.
Variable repr : string -> string.
Variable sub_validation_fn_def : string -> string.
Variable literal_eval : string -> result string.
Variable pickle_loads : string -> result (list (string * Pattern)).
(** [repr] escapes line feeds, and each flag of the [re] module is one
    bit. *)
Hypothesis repr_no_newline : ∀ s, no_newline (repr s) = true.
Hypothesis flag_bits : ∀ f, f ∈ all_flags → ∃ n, 0 ≤ n ∧ re_flag f = 2 ^ n.

Lemma repr_regex_shape (regex : Pattern) :
  _repr_regex re_flag repr regex
  = "re.compile(" +:+ repr (pattern regex)
    +:+ match flags_set re_flag regex with
        | [] => ""
        | names =>
            ", " +:+ String.concat " | " (map (fun f => "re." +:+ f) names)
        end
    +:+ ")".
Proof.
  unfold _repr_regex. destruct (flags_set re_flag regex) as [|f [|g l]]; done.
Qed.

End FixFacts.

(** The dot of [PICKLED_PATTERNS] is not escaped: a line with any
    character between [pickle] and [loads] is taken for the assignment,
    and a line feed is not such a character. *)
Example pickled_dot_any_character :
  match_pickled_line "REGEX_PATTERNS = pickle_loads(b'zz')" = Some "b'zz'"
  ∧ search_pickled
      ("import re" +:+ NL +:+ "REGEX_PATTERNS = pickle_loads(b'zz')" +:+ NL)
    = Some ("REGEX_PATTERNS = pickle_loads(b'zz')", "b'zz'")
  ∧ search_pickled ("REGEX_PATTERNS = pickle" +:+ NL +:+ "loads(b'zz')") = None.
Proof. by repeat split. Qed.

Lemma sample_repr_no_newline (s : string) :
  no_newline (Sample.repr s) = true.
Proof.
  unfold Sample.repr. rewrite !no_newline_app.
  assert (H : no_newline (Sample.escape s) = true).
  { induction s as [|c s IH]; [done |]. cbn [Sample.escape].
    destruct (Ascii.eqb c newline) eqn:E; cbn [no_newline]; [done |].
    by rewrite E, IH. }
  by rewrite H.
Qed.

Lemma sample_flag_bits (f : string) :
  f ∈ all_flags → ∃ n, 0 ≤ n ∧ Sample.re_flag f = 2 ^ n.
Proof.
  unfold all_flags. intros H.
  repeat (apply elem_of_cons in H as [-> | H];
          [first [ by exists 8 | by exists 1 | by exists 7 | by exists 2
                 | by exists 3 | by exists 4 | by exists 6 ] |]).
  by apply elem_of_nil in H.
Qed.


(** * Further properties of the code *)

(** ** The compatibility check, case by case *)

(** For a fragment with a string id: a spec version that is set and
    differs from the registry's is reported first, also when the id is
    already registered; then a registered id; otherwise the fragment is
    returned as it came. *)
Theorem ensure_compatibility_cases (spec : json) (schemas : gmap string entry)
    (reference : string) (schema : Schema) (k : string) :
  schema_id schema = Some k →
  _ensure_compatibility spec schemas reference schema
  = if version_ok spec schema
    then if decide (is_Some (schemas !! k))
         then Raise (SchemaWithDuplicatedId k)
         else Ok schema
    else Raise (InvalidSchemaVersion reference
                  (default JNull (Dict.get "$schema" schema)) spec).
Proof.
  intros Hid. destruct (version_ok spec schema) eqn:Hv.
  - case_decide as Hk.
    + by apply ensure_duplicate.
    + apply (ensure_fresh _ _ _ _ k); [done |]. by apply eq_None_not_Some.
  - apply schema_id_get in Hid.
    unfold _ensure_compatibility, Dict.has. rewrite Hid. cbn [negb].
    unfold version_ok in Hv. apply negb_false_iff in Hv. by rewrite Hv.
Qed.

Lemma ensure_compatibility_cases_witness :
  _ensure_compatibility (JStr Sample.draft07)
    {[ "https://example.org/a" := plugin_entry Sample.pa ]} "y"
    Sample.schema_a_draft04
  = Raise (InvalidSchemaVersion "y"
             (JStr "http://json-schema.org/draft-04/schema")
             (JStr Sample.draft07)).
Proof.
  rewrite (ensure_compatibility_cases _ _ _ _ "https://example.org/a");
    reflexivity.
Defined.

(** ** More on the construction of the registry *)

Section RegistryMore.
Context {FormatFn : Type}.
Implicit Types (p : Plugin FormatFn) (ps : list (Plugin FormatFn)).
Implicit Types (schemas : gmap string entry) (tp : list (string * json)).

Lemma add_plugins_app spec ps ps' st log :
  add_plugins spec (ps ++ ps') st log
  = match add_plugins spec ps st log with
    | (Ok st', log') => add_plugins spec ps' st' log'
    | (Raise e, log') => (Raise e, log')
    end.
Proof.
  revert st log. induction ps as [|p ps IH]; intros st log; [done |].
  cbn [app add_plugins]. cbv [mbind M_bind].
  destruct (add_plugin spec st p log) as [[st'|e] log']; [apply IH | done].
Qed.

Lemma add_plugin_refused spec schemas tp p e log :
  _ensure_compatibility spec schemas (tool_name p) (tool_schema p) = Raise e →
  add_plugin spec (schemas, JObj tp) p log = (Raise e, log ++ [announce tp p]).
Proof.
  intros He. unfold add_plugin, announce. rewrite He.
  cbv [mbind mret M_bind M_ret lift emit py_in].
  by destruct (Dict.has (tool_name p) tp).
Qed.

Lemma mounted_other ps : ∀ tp x,
  (∀ p, p ∈ ps → tool_name p ≠ x) →
  Dict.get x (mounted tp ps) = Dict.get x tp.
Proof.
  induction ps as [|q ps IH]; intros tp x Hx; [done |].
  cbn [mounted fold_left]. fold (mounted (mount tp q) ps).
  rewrite IH by (intros p Hp; apply Hx; by right).
  unfold mount. apply dict_get_set_ne. apply Hx. by left.
Qed.

Lemma announcements_fresh ps : ∀ tp,
  NoDup (tool_name <$> ps) →
  (∀ p, p ∈ ps → Dict.has (tool_name p) tp = false) →
  announcements tp ps = info_record <$> ps.
Proof.
  induction ps as [|q ps IH]; intros tp Hnd Hfresh; [done |].
  rewrite fmap_cons in Hnd. apply NoDup_cons in Hnd as [Hq Hnd].
  cbn [announcements fmap list_fmap]. f_equal.
  - unfold announce. by rewrite Hfresh by by left.
  - apply IH; [done |]. intros p Hp.
    unfold mount, Dict.has. rewrite dict_get_set_ne.
    + apply (Hfresh p). by right.
    + intros Heq. apply Hq. rewrite Heq. by apply list_elem_of_fmap_2.
Qed.
End RegistryMore.

Section ConstructionMore.
Context {FormatFn : Type}.
Variable load : string -> result Schema.
Variables (spec : json) (top project : Schema).
Variables (props tool_dict tool_props : list (string * json)).
Variables (top_id project_id : string).
Hypothesis core :
  core_schemas load spec top project props tool_dict tool_props
    top_id project_id.
Implicit Types (p : Plugin FormatFn) (ps : list (Plugin FormatFn)).

Local Abbreviation root_of ps :=
  (root_schema top props tool_dict project_id (JObj (mounted tool_props ps))).

(** Construction stops at the first plugin the compatibility check
    refuses: it raises the exception of the check, whose reference is the
    tool name of that plugin.  The plugin was announced in the log before
    it was checked; the plugins after it are not looked at. *)
Theorem first_refused_plugin l1 p l2 e log :
  Forall (plugin_ok spec) l1 →
  NoDup (project_id :: (plugin_sid <$> l1)) →
  _ensure_compatibility spec
    (registered {[project_id := project_entry project]} l1)
    (tool_name p) (tool_schema p) = Raise e →
  SchemaRegistry_init load (l1 ++ p :: l2) log
  = (Raise e,
     log ++ announcements tool_props l1 ++ [announce (mounted tool_props l1) p]).
Proof.
  intros Hok Hnd He. apply NoDup_cons in Hnd as [Hnotin Hnd].
  rewrite (init_unfold load _ _ _ _ _ _ _ _ core), add_plugins_app.
  rewrite add_plugins_fresh; [| done | done |].
  - cbn [add_plugins]. cbv [mbind M_bind].
    rewrite (add_plugin_refused _ _ _ _ e) by done. by rewrite <- app_assoc.
  - intros q Hq. apply lookup_singleton_ne. intros ->.
    apply Hnotin. by apply list_elem_of_fmap_2.
Qed.

(** The keys of the registry are the id of the root schema, the id of the
    project table and the ids of the tool schemas: each gives back the
    schema stored under it, the tool schemas unchanged, and any other key
    is a [KeyError]. *)
Theorem registry_keys ps log :
  Forall (plugin_ok spec) ps →
  NoDup (top_id :: project_id :: (plugin_sid <$> ps)) →
  ∃ registry log',
    SchemaRegistry_init load ps log = (Ok registry, log')
    ∧ registry_getitem registry top_id = Ok (root_of ps)
    ∧ registry_getitem registry project_id = Ok project
    ∧ (∀ p, p ∈ ps →
         registry_getitem registry (plugin_sid p) = Ok (tool_schema p))
    ∧ (∀ k, k ∉ top_id :: project_id :: (plugin_sid <$> ps) →
         registry_getitem registry k = Raise (KeyError k)).
Proof.
  intros Hok Hnd. apply NoDup_cons in Hnd as [Htop Hnd].
  pose proof Hnd as Hnd'. apply NoDup_cons in Hnd' as [Hproj Hps].
  eexists _, _. split; [by apply (init_fresh load _ _ _ _ _ _ _ _ core) |].
  unfold registry_getitem, finish. cbn [_schemas].
  split; [by rewrite lookup_insert_eq |]. split; [| split].
  - rewrite lookup_insert_ne by (intros ->; apply Htop; by left).
    rewrite registered_lookup_other by done. by rewrite lookup_singleton_eq.
  - intros p Hp.
    rewrite lookup_insert_ne
      by (intros ->; apply Htop; right; by apply list_elem_of_fmap_2).
    by rewrite registered_lookup.
  - intros k Hk. apply not_elem_of_cons in Hk as [Hk1 Hk].
    apply not_elem_of_cons in Hk as [Hk2 Hk].
    rewrite lookup_insert_ne by done.
    rewrite registered_lookup_other by done.
    by rewrite lookup_singleton_ne.
Qed.

(** A tool name no plugin declares is left as the top-level schema has it:
    the root schema answers for [tool.x] what the [tool] properties of the
    resource answer, a [KeyError] when they do not mention [x]. *)
Theorem undeclared_tool_kept ps log x :
  Forall (plugin_ok spec) ps →
  NoDup (project_id :: (plugin_sid <$> ps)) →
  (∀ p, p ∈ ps → tool_name p ≠ x) →
  ∃ registry log',
    SchemaRegistry_init load ps log = (Ok registry, log')
    ∧ (registry_main registry ≫= λ root, root_tool_property root x)
      = getitem x tool_props.
Proof.
  intros Hok Hnd Hx.
  eexists _, _. split; [by apply (init_fresh load _ _ _ _ _ _ _ _ core) |].
  unfold registry_main, registry_getitem, finish. cbn [_schemas _main_id].
  rewrite lookup_insert_eq. cbv [mbind result_bind snd root_entry].
  rewrite root_tool_property_root. unfold getitem.
  by rewrite mounted_other.
Qed.

(** When the tool names are pairwise distinct and none of them is among
    the [tool] properties of the top-level schema, construction logs one
    [INFO] record per plugin, in plugin order, and no warning. *)
Theorem fresh_tools_logged_info ps log :
  Forall (plugin_ok spec) ps →
  NoDup (project_id :: (plugin_sid <$> ps)) →
  NoDup (tool_name <$> ps) →
  (∀ p, p ∈ ps → Dict.has (tool_name p) tool_props = false) →
  ∃ registry,
    SchemaRegistry_init load ps log
    = (Ok registry, log ++ (info_record <$> ps)).
Proof.
  intros Hok Hnd Hnames Hfresh. eexists.
  rewrite (init_fresh load _ _ _ _ _ _ _ _ core) by done.
  by rewrite announcements_fresh.
Qed.
End ConstructionMore.

Lemma first_refused_plugin_witness :
  SchemaRegistry_init Sample.load [Sample.pa; Sample.pnoid; Sample.pb] []
  = (Raise (SchemaMissingId "n"),
     [(INFO, "sample.plugins.A defines `tool.x` schema");
      (INFO, "sample.plugins.N defines `tool.n` schema")]).
Proof.
  apply (first_refused_plugin Sample.load _ _ _ _ _ _ _ _ sample_core
           [Sample.pa] Sample.pnoid [Sample.pb] (SchemaMissingId "n") []).
  - repeat constructor.
  - refine (bool_decide_unpack _ _). vm_compute. exact I.
  - reflexivity.
Defined.

Lemma registry_keys_witness :
  ∃ registry log',
    SchemaRegistry_init Sample.load [Sample.pa; Sample.pb] []
    = (Ok registry, log')
    ∧ registry_getitem registry "https://example.org/b" = Ok Sample.schema_b
    ∧ registry_getitem registry "https://example.org/c"
      = Raise (KeyError "https://example.org/c").
Proof.
  destruct (registry_keys Sample.load _ _ _ _ _ _ _ _ sample_core
              [Sample.pa; Sample.pb] [])
    as (registry & log' & Hinit & _ & _ & Hplugins & Hother).
  - repeat constructor.
  - refine (bool_decide_unpack _ _). vm_compute. exact I.
  - exists registry, log'. split; [exact Hinit |]. split.
    + apply (Hplugins Sample.pb). right. left.
    + apply Hother. refine (bool_decide_unpack _ _). vm_compute. exact I.
Defined.

Lemma sample_core_x :
  core_schemas Sample.load_x (JStr Sample.draft07) Sample.top_x Sample.project
    Sample.props_x
    [("properties", JObj [("x", JObj [("type", JStr "object")])])]
    [("x", JObj [("type", JStr "object")])]
    Sample.top_id Sample.project_id.
Proof.
  constructor; try reflexivity.
  - by left.
  - by split.
Qed.

Lemma undeclared_tool_kept_witness :
  ∃ registry log',
    SchemaRegistry_init Sample.load_x [Sample.pa2] [] = (Ok registry, log')
    ∧ (registry_main registry ≫= λ root, root_tool_property root "x")
      = Ok (JObj [("type", JStr "object")]).
Proof.
  apply (undeclared_tool_kept Sample.load_x _ _ _ _ _ _ _ _ sample_core_x
           [Sample.pa2] [] "x").
  - repeat constructor.
  - refine (bool_decide_unpack _ _). vm_compute. exact I.
  - intros p Hp. apply list_elem_of_singleton in Hp as ->. discriminate.
Defined.

Lemma fresh_tools_logged_info_witness :
  ∃ registry,
    SchemaRegistry_init Sample.load
      [Sample.pa; Sample.plugin "W" "w" Sample.schema_b None] []
    = (Ok registry,
       [(INFO, "sample.plugins.A defines `tool.x` schema");
        (INFO, "sample.plugins.W defines `tool.w` schema")]).
Proof.
  apply (fresh_tools_logged_info Sample.load _ _ _ _ _ _ _ _ sample_core
           [Sample.pa; Sample.plugin "W" "w" Sample.schema_b None] []).
  - repeat constructor.
  - refine (bool_decide_unpack _ _). vm_compute. exact I.
  - refine (bool_decide_unpack _ _). vm_compute. exact I.
  - intros p Hp. reflexivity.
Defined.

(** The main schema of a constructed registry, read off [__init__]. *)
Lemma init_main {FormatFn : Type} (load : string -> result Schema)
    (ps : list (Plugin FormatFn)) (log log' : list log_record)
    (registry : SchemaRegistry) :
  SchemaRegistry_init load ps log = (Ok registry, log') →
  ∃ top project sid root schemas,
    _schemas registry = <[_main_id registry := root_entry root]> schemas
    ∧ load TOP_LEVEL_SCHEMA = Ok top
    ∧ load PROJECT_TABLE_SCHEMA = Ok project
    ∧ Dict.get "$id" project = Some sid
    ∧ registry_main registry = Ok root
    ∧ Dict.get "$id" root = Some (JStr (_main_id registry))
    ∧ Dict.get "$schema" root = Some (spec_version registry)
    ∧ Dict.get "project" root = Some (JObj [("$ref", sid)])
    ∧ ∀ k, k ≠ "properties" → k ≠ "project" →
           Dict.get k root = Dict.get k top.
Proof.
  unfold SchemaRegistry_init. cbv [mbind mret M_bind M_ret lift].
  destruct (load TOP_LEVEL_SCHEMA) as [top|] eqn:Htop; [| done].
  unfold getitem at 1.
  destruct (Dict.get "$schema" top) as [spec|] eqn:Hspec; [| done].
  unfold getitem at 1.
  destruct (Dict.get "properties" top) as [tps|] eqn:Hprops; [| done].
  destruct (subscript tps "tool") as [td|]; [| done].
  destruct (setdefault td "properties" (JObj [])) as [[td' tp]|]; [| done].
  destruct (load PROJECT_TABLE_SCHEMA) as [project|] eqn:Hproj; [| done].
  destruct (_ensure_compatibility _ _ _ _); [| done].
  unfold getitem at 1.
  destruct (Dict.get "$id" project) as [sid|] eqn:Hsid; [| done].
  destruct (as_key sid) as [key|]; [| done].
  destruct (add_plugins _ _ _ _) as [[[schemas tpj]|e] l]; [| done].
  unfold getitem at 1. rewrite dict_get_set_ne by done.
  destruct (Dict.get "$id" top) as [main_id|] eqn:Hid; [| done].
  destruct (as_key main_id) as [main_key|] eqn:Hkey; [| done].
  destruct main_id; try done. injection Hkey as ->.
  destruct (setitem tps "tool" _) as [tps'|]; [| done].
  intros [= <- <-].
  eexists top, project, sid, _, schemas. split; [done |].
  split; [done |]. split; [done |]. split; [done |]. split.
  { unfold registry_main, registry_getitem. cbn [_schemas _main_id].
    by rewrite lookup_insert_eq. }
  cbn [snd root_entry _main_id spec_version _spec_version].
  rewrite !dict_get_set_ne by done. rewrite dict_get_set_eq.
  repeat split; try done.
  intros k Hk1 Hk2. by rewrite !dict_get_set_ne.
Qed.

(** Whatever the resources and the plugins, a registry that was
    constructed has its main schema: it is stored under the [$id] of the
    top-level schema, carries the spec version the registry reports, refers
    [project] to the id of the project-table schema, and agrees with the
    top-level schema on every key but [properties] and [project]. *)
Theorem constructed_main {FormatFn : Type} (load : string -> result Schema)
    (ps : list (Plugin FormatFn)) (log log' : list log_record)
    (registry : SchemaRegistry) :
  SchemaRegistry_init load ps log = (Ok registry, log') →
  ∃ top project sid root,
    load TOP_LEVEL_SCHEMA = Ok top
    ∧ load PROJECT_TABLE_SCHEMA = Ok project
    ∧ Dict.get "$id" project = Some sid
    ∧ registry_main registry = Ok root
    ∧ Dict.get "$id" root = Some (JStr (_main_id registry))
    ∧ Dict.get "$schema" root = Some (spec_version registry)
    ∧ Dict.get "project" root = Some (JObj [("$ref", sid)])
    ∧ ∀ k, k ≠ "properties" → k ≠ "project" →
           Dict.get k root = Dict.get k top.
Proof.
  intros H.
  destruct (init_main load ps log log' registry H)
    as (top & project & sid & root & schemas & _ & Hrest).
  by exists top, project, sid, root.
Qed.

Lemma constructed_main_witness :
  ∃ top project sid root,
    Sample.load TOP_LEVEL_SCHEMA = Ok top
    ∧ Sample.load PROJECT_TABLE_SCHEMA = Ok project
    ∧ Dict.get "$id" project = Some sid
    ∧ registry_main Sample.registry = Ok root
    ∧ Dict.get "$id" root = Some (JStr (_main_id Sample.registry))
    ∧ Dict.get "$schema" root = Some (spec_version Sample.registry)
    ∧ Dict.get "project" root = Some (JObj [("$ref", sid)])
    ∧ ∀ k, k ≠ "properties" → k ≠ "project" →
           Dict.get k root = Dict.get k top.
Proof.
  apply (constructed_main Sample.load [Sample.pa; Sample.pb] []
           [(INFO, "sample.plugins.A defines `tool.x` schema");
            (WARNING, "sample.plugins.B overwrites `tool.x` schema")]).
  vm_compute. reflexivity.
Defined.

(** ** The schemes a handler remembers *)

Lemma contains_schemes (key : json) (h : RefHandler) :
  ∃ extra,
    _uri_schemas (RefHandler_contains key h).2 = _uri_schemas h ++ extra
    ∧ (length extra ≤ 1)%nat
    ∧ ∀ k, k ∈ extra ↔ (k ∉ _uri_schemas h) ∧ key = JStr k.
Proof.
  assert (Hnone : (∀ k, key ≠ JStr k ∨ k ∈ _uri_schemas h) →
                  (RefHandler_contains key h).2 = h →
                  ∃ extra,
                    _uri_schemas (RefHandler_contains key h).2
                    = _uri_schemas h ++ extra
                    ∧ (length extra ≤ 1)%nat
                    ∧ ∀ k, k ∈ extra ↔ (k ∉ _uri_schemas h) ∧ key = JStr k).
  { intros Hkey ->. exists []. rewrite app_nil_r.
    split; [done |]. split; [cbn; lia |]. intros k. split.
    - intros Hk. by apply elem_of_nil in Hk.
    - intros [Hk1 Hk2]. by destruct (Hkey k). }
  destruct key as [| | |s| |]; try (apply Hnone; [by left | done]).
  destruct (decide (s ∈ _uri_schemas h)) as [Hs | Hs].
  - apply Hnone; [| cbn; by rewrite decide_True].
    intros k. destruct (decide (k = s)) as [-> | Hne]; [by right |].
    left. by intros [= ->].
  - exists [s]. cbn [RefHandler_contains snd]. rewrite decide_False by done.
    cbn [_uri_schemas]. split; [done |]. split; [cbn; lia |].
    intros k. rewrite list_elem_of_singleton. split.
    + by intros ->.
    + by intros [_ [= ->]].
Qed.

Lemma queries_schemes (keys : list json) : ∀ h,
  NoDup (_uri_schemas h) →
  ∃ more,
    _uri_schemas (queries keys h) = _uri_schemas h ++ more
    ∧ NoDup (_uri_schemas (queries keys h))
    ∧ (length more ≤ length keys)%nat
    ∧ ∀ k, k ∈ more ↔ (k ∉ _uri_schemas h) ∧ JStr k ∈ keys.
Proof.
  induction keys as [|key keys IH]; intros h Hnd.
  - exists []. rewrite app_nil_r.
    split; [done |]. split; [done |]. split; [done |]. intros k. split.
    + intros Hk. by apply elem_of_nil in Hk.
    + intros [_ Hk]. by apply elem_of_nil in Hk.
  - cbn [queries fold_left]. fold (queries keys (RefHandler_contains key h).2).
    destruct (contains_schemes key h) as (extra & Hextra & Hlen1 & Hin1).
    destruct (IH (RefHandler_contains key h).2) as (more & Heq & Hnd' & Hlen & Hin).
    { rewrite Hextra. apply NoDup_app. split; [done |]. split.
      - intros x Hx Hx'. by apply Hin1 in Hx' as [? _].
      - destruct extra as [|a [|b extra]]; [constructor | apply NoDup_singleton |].
        cbn in Hlen1. lia. }
    exists (extra ++ more). rewrite Heq, Hextra, <- app_assoc.
    split; [done |]. split; [by rewrite app_assoc, <- Hextra, <- Heq |].
    split; [rewrite length_app; cbn [length]; lia |].
    intros k. rewrite elem_of_app, Hin, Hextra, elem_of_app, elem_of_cons.
    assert (Hk : k ∈ extra ↔ (k ∉ _uri_schemas h) ∧ JStr k = key).
    { rewrite Hin1. split; intros [? ?]; by split. }
    destruct (decide (k ∈ _uri_schemas h)), (decide (k ∈ extra)); tauto.
Qed.

(** On every handler reached from creation by membership tests: iteration
    starts with [http] and [https] and lists no scheme twice; the other
    schemes are exactly the strings that were asked about; and the length
    is at least 2 and at most 2 plus the number of tests. *)
Theorem handler_schemes (registry : SchemaRegistry) (keys : list json) :
  let h := queries keys (RefHandler_init registry) in
  NoDup (RefHandler_iter h)
  ∧ (∃ more, RefHandler_iter h = "http" :: "https" :: more)
  ∧ (∀ k, k ∈ RefHandler_iter h ↔ k = "http" ∨ k = "https" ∨ JStr k ∈ keys)
  ∧ (2 ≤ RefHandler_len h ≤ 2 + length keys)%nat.
Proof.
  intros h.
  destruct (queries_schemes keys (RefHandler_init registry))
    as (more & Heq & Hnd & Hlen & Hin).
  { cbn. refine (bool_decide_unpack _ _). vm_compute. exact I. }
  unfold RefHandler_iter, RefHandler_len. fold h in Heq, Hnd. rewrite Heq.
  split; [by rewrite <- Heq |]. split; [by exists more |]. split.
  - intros k. cbn. rewrite !elem_of_cons, Hin. cbn.
    rewrite !elem_of_cons, elem_of_nil.
    destruct (decide (k = "http")); [tauto |].
    destruct (decide (k = "https")); tauto.
  - cbn. lia.
Qed.

(** ** More on the validator *)

Section ValidatorMore.
Context {FormatFn T World : Type}.
Variable load : string -> result Schema.
Variable list_from_entry_points : result (list (Plugin FormatFn)).
Implicit Types (self : @Validator FormatFn T World).
Implicit Types
  (FJS : Schema -> RefHandler -> gmap string FormatFn ->
         result (@ValidationFn T World) * RefHandler).

Lemma reduce_app (l1 l2 : list (@ValidationFn T World)) (d : T) (w : World) :
  reduce (l1 ++ l2) d w
  = match reduce l1 d w with
    | (Ok d', w') => reduce l2 d' w'
    | (Raise e, w') => (Raise e, w')
    end.
Proof.
  revert d w. induction l1 as [|f l1 IH]; intros d w; [done |].
  cbn [app reduce]. destruct (f d w) as [[d'|e] w']; [apply IH | done].
Qed.

(** The schema is compiled once: after a call that compiled it, the
    compiled function sits in the cache, and later calls use it without
    going back to the compiler, whatever the compiler would answer. *)
Theorem compiled_once FJS self fn self' :
  compiled FJS self = (Ok fn, self') →
  _cache self' = Some fn
  ∧ ∀ FJS' doc w,
      compiled FJS' self' = (Ok fn, self')
      ∧ Validator_call FJS' self' doc w = Validator_call FJS self' doc w.
Proof.
  intros H.
  assert (Hcache : _cache self' = Some fn).
  { unfold compiled in H. destruct (_cache self) eqn:E; [by simplify_eq |].
    destruct (Validator_schema self); [| done].
    destruct (Validator_formats self) as [formats self1].
    destruct (FJS _ _ _) as [[fn'|e] h]; by simplify_eq. }
  split; [done |]. intros FJS' doc w.
  assert (Hc : ∀ F, compiled F self' = (Ok fn, self'))
    by (intros F; unfold compiled; by rewrite Hcache).
  split; [done |]. unfold Validator_call. by rewrite !Hc.
Qed.

(** When the compiler fails, the call raises its exception without
    validating anything or running an extra validation, and the cache stays
    empty: the next call compiles again. *)
Theorem compile_failure_not_cached FJS self e self' doc w :
  compiled FJS self = (Raise e, self') →
  Validator_call FJS self doc w = (Raise e, self', w)
  ∧ _cache self' = None.
Proof.
  intros H. split; [unfold Validator_call; by rewrite H |].
  unfold compiled in H. destruct (_cache self) eqn:E; [done |].
  destruct (Validator_schema self); [| by simplify_eq].
  destruct (Validator_formats self) as [formats self1] eqn:Ef.
  destruct (FJS _ _ _) as [[fn'|e'] h]; by simplify_eq.
Qed.

(** A document the compiled validator refuses: the call raises the
    exception of the validator and no extra validation runs. *)
Theorem refused_document_skips_extras FJS self fn self' doc w e w0 :
  compiled FJS self = (Ok fn, self') →
  fn doc w = (Raise e, w0) →
  Validator_call FJS self doc w = (Raise e, self', w0).
Proof.
  intros Hc Hfn. unfold Validator_call. by rewrite Hc, Hfn.
Qed.

(** A document the compiled validator accepts.  Without extra validation
    the call returns the document it was given, not what the compiled
    validator returned.  The extra validations run in order, each on the
    result of the one before, and the first that raises ends the call with
    its exception: those after it do not run. *)
Theorem accepted_document_pipeline FJS self fn self' doc w checked w0 :
  compiled FJS self = (Ok fn, self') →
  fn doc w = (Ok checked, w0) →
  (Validator_extra_validations self = [] →
   Validator_call FJS self doc w = (Ok doc, self', w0))
  ∧ (∀ l1 l2 d w1,
       Validator_extra_validations self = l1 ++ l2 →
       reduce l1 doc w0 = (Ok d, w1) →
       Validator_call FJS self doc w
       = ((reduce l2 d w1).1, self', (reduce l2 d w1).2))
  ∧ (∀ l1 f l2 d w1 e w2,
       Validator_extra_validations self = l1 ++ f :: l2 →
       reduce l1 doc w0 = (Ok d, w1) →
       f d w1 = (Raise e, w2) →
       Validator_call FJS self doc w = (Raise e, self', w2)).
Proof.
  intros Hc Hfn.
  pose proof (compiled_extra _ _ _ _ Hc) as Hsame.
  assert (Hcall : Validator_call FJS self doc w
                  = ((reduce (_in_extra_validations self) doc w0).1, self',
                     (reduce (_in_extra_validations self) doc w0).2)).
  { unfold Validator_call, Validator_extra_validations.
    rewrite Hc, Hfn, Hsame. by destruct (reduce _ _ _). }
  unfold Validator_extra_validations. rewrite Hcall.
  split; [by intros -> |]. split.
  - intros l1 l2 d w1 -> H1. by rewrite reduce_app, H1.
  - intros l1 f l2 d w1 e w2 -> H1 Hf.
    rewrite reduce_app, H1. cbn [reduce]. by rewrite Hf.
Qed.

(** A validator that was constructed has a schema, and its handlers start
    with the two network schemes and resolve a reference, under any
    scheme, to what subscripting the validator with the same id returns. *)
Theorem fresh_validator given format_validators extra_validations
    log self log' :
  Validator_init (T := T) (World := World) load list_from_entry_points
    given format_validators extra_validations log = (Ok self, log') →
  (∃ root, Validator_schema self = Ok root)
  ∧ RefHandler_iter (handlers self) = ["http"; "https"]
  ∧ (∀ scheme sid,
       RefHandler_getitem scheme (handlers self) sid
       = Validator_getitem self sid)
  ∧ match given with
    | ALL_PLUGINS => list_from_entry_points = Ok (plugins self)
    | Plugins l => plugins self = l
    end.
Proof.
  unfold Validator_init. cbv [mbind mret M_bind M_ret lift].
  assert (Hmain : ∀ (ps : list (Plugin FormatFn)) l r l',
            SchemaRegistry_init load ps l = (Ok r, l') →
            ∃ root, registry_main r = Ok root).
  { intros ps l r l' H.
    destruct (init_main load ps l l' r H)
      as (? & ? & ? & root & ? & _ & _ & _ & _ & Hroot & _). eauto. }
  destruct given as [|ps].
  - destruct list_from_entry_points as [ps|e]; [| done].
    destruct (SchemaRegistry_init load ps log) as [[reg|e] l] eqn:E; [| done].
    intros [= <- <-]. split; [by eapply Hmain |]. done.
  - destruct (SchemaRegistry_init load ps log) as [[reg|e] l] eqn:E; [| done].
    intros [= <- <-]. split; [by eapply Hmain |]. done.
Qed.
End ValidatorMore.

Lemma compiled_once_witness :
  let v := (compiled Sample.compile (Sample.validator [] [Sample.step_a])).2 in
  (Validator_call Sample.compile_fails v Sample.minimal []).1.1
  = Ok (Dict.set "a" (JBool true) Sample.minimal).
Proof.
  intros v.
  destruct (compiled_once Sample.compile (Sample.validator [] [Sample.step_a])
              _ _ eq_refl) as [_ Hagain].
  destruct (Hagain Sample.compile_fails Sample.minimal []) as [_ Hcall].
  subst v. etransitivity; [exact (f_equal (λ x, x.1.1) Hcall) | reflexivity].
Defined.

Lemma compile_failure_not_cached_witness :
  (Validator_call Sample.compile_fails (Sample.validator [] [Sample.step_a])
     Sample.minimal []).1.1
  = Raise (OtherError "JsonSchemaDefinitionException")
  ∧ (Validator_call Sample.compile_fails (Sample.validator [] [Sample.step_a])
       Sample.minimal []).2 = [].
Proof.
  destruct (compile_failure_not_cached Sample.compile_fails
              (Sample.validator [] [Sample.step_a]) _ _ Sample.minimal []
              eq_refl) as [-> _].
  by split.
Defined.

Lemma refused_document_skips_extras_witness :
  (Validator_call Sample.compile_strict
     (Sample.validator [] [Sample.step_a; Sample.step_b]) [] []).1.1
  = Raise (OtherError "JsonSchemaValueException")
  ∧ (Validator_call Sample.compile_strict
       (Sample.validator [] [Sample.step_a; Sample.step_b]) [] []).2
    = ["schema"].
Proof.
  rewrite (refused_document_skips_extras Sample.compile_strict
             (Sample.validator [] [Sample.step_a; Sample.step_b]) _ _ [] []
             _ _ eq_refl eq_refl).
  by split.
Defined.

Lemma accepted_document_pipeline_witness :
  (Validator_call Sample.compile (Sample.validator [] []) Sample.minimal []).1.1
  = Ok Sample.minimal
  ∧ (Validator_call Sample.compile
       (Sample.validator [] [Sample.step_a; Sample.fail_a; Sample.step_b])
       Sample.minimal []).2
    = ["schema"; "A"; "A"].
Proof.
  destruct (accepted_document_pipeline Sample.compile (Sample.validator [] [])
              _ _ Sample.minimal [] _ _ eq_refl eq_refl) as (Hnone & _ & _).
  destruct (accepted_document_pipeline Sample.compile
              (Sample.validator [] [Sample.step_a; Sample.fail_a; Sample.step_b])
              _ _ Sample.minimal [] _ _ eq_refl eq_refl) as (_ & _ & Hfail).
  rewrite (Hnone eq_refl).
  rewrite (Hfail [Sample.step_a] Sample.fail_a [Sample.step_b] _ _ _ _
             eq_refl eq_refl eq_refl).
  by split.
Defined.

Lemma fresh_validator_witness :
  ∃ self log',
    Validator_init (T := Sample.doc) (World := Sample.trace) Sample.load
      (Ok []) (Plugins [Sample.pa; Sample.pb]) ∅ [] [] = (Ok self, log')
    ∧ RefHandler_iter (handlers self) = ["http"; "https"]
    ∧ RefHandler_getitem "ftp" (handlers self) "https://example.org/a"
      = Validator_getitem self "https://example.org/a".
Proof.
  destruct (Validator_init (T := Sample.doc) (World := Sample.trace)
              Sample.load (Ok []) (Plugins [Sample.pa; Sample.pb]) ∅ [] [])
    as [[self|e] log'] eqn:E.
  - exists self, log'. split; [reflexivity |].
    destruct (fresh_validator _ _ _ _ _ _ _ _ E) as (_ & Hiter & Hget & _).
    split; [exact Hiter | apply Hget].
  - vm_compute in E. discriminate E.
Defined.

(** ** More on the vendoring pipeline *)

Lemma str_replace_absent (old new s : string) :
  is_substring old s = false → str_replace old new s = s.
Proof.
  intros H. unfold str_replace. destruct old as [|c old].
  - by destruct s.
  - by apply replace_from_absent.
Qed.

(** A text in which none of the texts to replace occurs comes out of
    [replace_text] unchanged; a pair that maps a text to itself never
    changes anything. *)
Theorem replace_text_absent (text : string)
    (replacements : list (string * string)) :
  Forall (fun kv => kv.1 = kv.2 ∨ is_substring kv.1 text = false)
    replacements →
  replace_text text replacements = text.
Proof.
  induction 1 as [|[orig subst] rest Hkv _ IH]; [done |].
  cbn [replace_text]. cbn [fst snd] in Hkv.
  destruct (String.eqb_spec subst orig) as [-> | Hne]; cbn [negb]; [done |].
  destruct Hkv as [-> | Habsent]; [done |].
  by rewrite str_replace_absent.
Qed.

Lemma replace_text_absent_witness :
  replace_text "import re" (dict_merge TEXT_REPLACEMENTS [("re", "re")])
  = "import re".
Proof.
  apply replace_text_absent.
  change (dict_merge TEXT_REPLACEMENTS [("re", "re")])
    with [("from fastjsonschema import",
           "from .fastjsonschema_exceptions import"); ("re", "re")].
  constructor; [right; reflexivity |].
  constructor; [left; reflexivity | constructor].
Defined.

(** A replacement is applied where its text occurs.  When the first
    occurrence of a non-empty [orig] in the text stands after [pre], the
    pair [(orig, subst)] puts [subst] there, goes on in what follows the
    occurrence, and the pairs that come later in the mapping work on the
    text so produced.  When [orig] does not occur again, [subst] has
    simply taken its place. *)
Theorem replace_text_occurrence (orig subst pre post : string)
    (rest : list (string * string)) :
  orig ≠ "" →
  absent_before orig pre (orig +:+ post) = true →
  replace_text (pre +:+ orig +:+ post) ((orig, subst) :: rest)
  = replace_text (pre +:+ subst +:+ replace_text post [(orig, subst)]) rest
  ∧ (is_substring orig post = false →
     replace_text (pre +:+ orig +:+ post) ((orig, subst) :: rest)
     = replace_text (pre +:+ subst +:+ post) rest).
Proof.
  intros Hne Hpre. cbn [replace_text].
  destruct (String.eqb_spec subst orig) as [-> | Hdiff]; cbn [negb]; [done |].
  assert (E : str_replace orig subst (pre +:+ orig +:+ post)
              = pre +:+ subst +:+ str_replace orig subst post).
  { unfold str_replace. destruct orig as [|c orig]; [done |].
    by rewrite replace_from_before, replace_from_occurrence. }
  rewrite E. split; [done |].
  intros Hpost. by rewrite (str_replace_absent _ _ _ Hpost).
Qed.

Lemma replace_text_occurrence_witness :
  replace_text
    ("import re" +:+ NL
     +:+ "from fastjsonschema import JsonSchemaValueException" +:+ NL)
    (dict_merge TEXT_REPLACEMENTS [("import re", "import regex as re")])
  = "import regex as re" +:+ NL
    +:+ "from .fastjsonschema_exceptions import JsonSchemaValueException"
    +:+ NL.
Proof.
  destruct (replace_text_occurrence "from fastjsonschema import"
              "from .fastjsonschema_exceptions import"
              ("import re" +:+ NL)
              (" JsonSchemaValueException" +:+ NL)
              [("import re", "import regex as re")]) as [_ H].
  - discriminate.
  - reflexivity.
  - etransitivity; [exact (H eq_refl) |].
    destruct (replace_text_occurrence "import re" "import regex as re" ""
                (NL +:+ "from .fastjsonschema_exceptions import"
                   +:+ " JsonSchemaValueException" +:+ NL) [])
      as [_ H2]; [discriminate | reflexivity |].
    exact (H2 eq_refl).
Defined.

Lemma dict_get_absent {V : Type} (k : string) (d : list (string * V)) :
  k ∉ d.*1 → Dict.get k d = None.
Proof.
  induction d as [|[k' v] d IH]; [done |].
  rewrite fmap_cons. cbn [fst]. intros [Hne Hk]%not_elem_of_cons.
  cbn [Dict.get]. apply String.eqb_neq in Hne. rewrite Hne. by apply IH.
Qed.

(** [{**a, **b}]: a key of [b] has the value [b] gives it, any other key
    the value [a] gives it.  For [vendorify], a caller's replacement takes
    the place of the default one of the same text, and the default stays
    otherwise. *)
Theorem dict_merge_get {V : Type} (a b : list (string * V)) (k : string) :
  NoDup b.*1 →
  Dict.get k (dict_merge a b)
  = match Dict.get k b with
    | Some v => Some v
    | None => Dict.get k a
    end.
Proof.
  unfold dict_merge. revert a.
  induction b as [|[k0 v0] b IH]; intros a Hnd; [done |].
  rewrite fmap_cons in Hnd. apply NoDup_cons in Hnd as [Hk0 Hnd].
  cbn [fold_left fst snd Dict.get]. rewrite IH by done.
  destruct (String.eqb_spec k k0) as [-> | Hne].
  - by rewrite dict_get_absent, dict_get_set_eq.
  - by rewrite dict_get_set_ne.
Qed.

Lemma dict_merge_get_witness :
  Dict.get "from fastjsonschema import"
    (dict_merge TEXT_REPLACEMENTS [("import re", "import regex as re")])
  = Some "from .fastjsonschema_exceptions import"
  ∧ Dict.get "from fastjsonschema import"
      (dict_merge TEXT_REPLACEMENTS
         [("from fastjsonschema import", "from ._vendor.exceptions import")])
    = Some "from ._vendor.exceptions import".
Proof.
  split; rewrite dict_merge_get;
    first [reflexivity | refine (bool_decide_unpack _ _); vm_compute; exact I].
Defined.

Section VendoringMore.
Context {FormatFn T World : Type}.
Variable load : string -> result Schema.
Variable list_from_entry_points : result (list (Plugin FormatFn)).
Variable FORMAT_FUNCTIONS : gmap string FormatFn.
Variable EXTRA_VALIDATIONS : list (@ValidationFn T World).
Variable FJS_compile_to_code :
  Schema -> RefHandler -> gmap string FormatFn -> result string * RefHandler.
Variable re_flag : string -> Z.
Variable repr : string -> string.
Variable sub_validation_fn_def : string -> string.
Variable literal_eval : string -> result string.
Variable pickle_loads : string -> result (list (string * Pattern)).
Variable read_text : string -> string -> result string.
Variable str_format : string -> list (string * string) -> result string.
Variable upper : string -> string.
Variable metadata_files : string -> result (option (list PackagePath)).
Variable dist_name : string.
Variable path_join : string -> string -> string.

Local Abbreviation find := (_find_and_load_licence upper).
Local Abbreviation licenses := (load_licenses upper metadata_files dist_name).
Local Abbreviation notice :=
  (write_notice read_text str_format upper metadata_files dist_name path_join).
Local Abbreviation run :=
  (vendorify load list_from_entry_points FORMAT_FUNCTIONS EXTRA_VALIDATIONS
     FJS_compile_to_code re_flag repr sub_validation_fn_def literal_eval
     pickle_loads read_text str_format upper metadata_files dist_name
     path_join).

(** The licence is read from the first file of the list whose stem is
    [LICENSE] in upper case; files of that stem further down the list are
    not read, and a failure to read the first one is the outcome. *)
Theorem first_license_file (l1 l2 : list PackagePath) (f : PackagePath) :
  Forall (fun g => upper (stem g) ≠ "LICENSE") l1 →
  upper (stem f) = "LICENSE" →
  find (Some (l1 ++ f :: l2)) = read_text_of f.
Proof.
  intros Hl1 Hf. cbn [_find_and_load_licence].
  assert (Hnext : next_license upper (l1 ++ f :: l2) = Ok f).
  { induction Hl1 as [|g l1 Hg _ IH].
    - cbn [app next_license]. by rewrite Hf, String.eqb_refl.
    - cbn [app next_license]. apply String.eqb_neq in Hg. by rewrite Hg. }
  by rewrite Hnext.
Qed.

(** [write_notice] computes the text of the notice, then writes it. *)
Lemma write_notice_split out main_file cmd replacements w :
  notice out main_file cmd replacements w
  = match notice_text read_text str_format upper metadata_files dist_name
            main_file cmd with
    | Ok text =>
        match write_text (path_join out "NOTICE")
                (replace_text text replacements) w with
        | (Ok _, w') => (Ok (path_join out "NOTICE"), w')
        | (Raise e, w') => (Raise e, w')
        end
    | Raise e => (Raise e, w)
    end.
Proof.
  unfold write_notice, notice_text.
  cbv [mbind mret V_bind V_ret liftR result_bind].
  destruct (negb (String.eqb cmd "")).
  - destruct (read_text vendoring_name "cli-notice.template") as [o|]; [| done].
    destruct (str_format o _) as [opening|]; [| done].
    destruct (read_text vendoring_name "NOTICE.template") as [t|]; [| done].
    destruct licenses as [found|]; [| done].
    by destruct (str_format t _).
  - destruct (read_text vendoring_name "api-notice.template") as [opening|];
      [| done].
    destruct (read_text vendoring_name "NOTICE.template") as [t|]; [| done].
    destruct licenses as [found|]; [| done].
    by destruct (str_format t _).
Qed.

Lemma notice_text_ok main_file cmd text :
  notice_text read_text str_format upper metadata_files dist_name
    main_file cmd = Ok text →
  ∃ opening template files1 fjs files2 own,
    (if String.eqb cmd ""
     then read_text vendoring_name "api-notice.template" = Ok opening
     else ∃ t, read_text vendoring_name "cli-notice.template" = Ok t
               ∧ str_format t [("command", cmd)] = Ok opening)
    ∧ read_text vendoring_name "NOTICE.template" = Ok template
    ∧ metadata_files "fastjsonschema" = Ok files1 ∧ find files1 = Ok fjs
    ∧ metadata_files dist_name = Ok files2 ∧ find files2 = Ok own
    ∧ str_format template
        [("notice", opening); ("main_file", main_file);
         ("fastjsonschema_license", fjs); ("validate_pyproject_license", own)]
      = Ok text.
Proof.
  unfold notice_text, load_licenses.
  cbv [mbind mret result_bind result_ret].
  assert (Hrest : ∀ opening,
            match read_text vendoring_name "NOTICE.template" with
            | Ok template =>
                match
                  match metadata_files "fastjsonschema" with
                  | Ok files1 =>
                      match find files1 with
                      | Ok fjs =>
                          match metadata_files dist_name with
                          | Ok files2 =>
                              match find files2 with
                              | Ok own =>
                                  Ok [("fastjsonschema_license", fjs);
                                      ("validate_pyproject_license", own)]
                              | Raise e => Raise e
                              end
                          | Raise e => Raise e
                          end
                      | Raise e => Raise e
                      end
                  | Raise e => Raise e
                  end
                with
                | Ok found =>
                    str_format template
                      ([("notice", opening); ("main_file", main_file)] ++ found)
                | Raise e => Raise e
                end
            | Raise e => Raise e
            end = Ok text →
            ∃ template files1 fjs files2 own,
              read_text vendoring_name "NOTICE.template" = Ok template
              ∧ metadata_files "fastjsonschema" = Ok files1
              ∧ find files1 = Ok fjs
              ∧ metadata_files dist_name = Ok files2 ∧ find files2 = Ok own
              ∧ str_format template
                  [("notice", opening); ("main_file", main_file);
                   ("fastjsonschema_license", fjs);
                   ("validate_pyproject_license", own)]
                = Ok text).
  { intros opening.
    destruct (read_text vendoring_name "NOTICE.template") as [t|]; [| done].
    destruct (metadata_files "fastjsonschema") as [files1|]; [| done].
    destruct (find files1) as [fjs|] eqn:E1; [| done].
    destruct (metadata_files dist_name) as [files2|]; [| done].
    destruct (find files2) as [own|] eqn:E2; [| done].
    intros H. by exists t, files1, fjs, files2, own. }
  destruct (String.eqb cmd ""); cbn [negb].
  - destruct (read_text vendoring_name "api-notice.template") as [opening|];
      [| done].
    intros (t & f1 & fjs & f2 & own & H)%Hrest.
    by exists opening, t, f1, fjs, f2, own.
  - destruct (read_text vendoring_name "cli-notice.template") as [o|]; [| done].
    destruct (str_format o _) as [opening|] eqn:Eo; [| done].
    intros (t & f1 & fjs & f2 & own & H)%Hrest.
    exists opening, t, f1, fjs, f2, own. split; [by exists o | done].
Qed.

(** [write_notice] leaves the log alone and changes no file but [NOTICE].
    When it returns, it returns the path of [NOTICE]; the opening was read
    from the template for the command line when a command was given, and
    from the other one otherwise; both licences were found; and the file
    holds the notice template, formatted with the opening, the name of the
    main file and the two licences, after the replacements.  When it
    raises, either no call to the file system was made and the world is as
    before, or the write failed with the exception raised. *)
Theorem write_notice_writes out main_file cmd replacements w r w' :
  notice out main_file cmd replacements w = (r, w') →
  logs w' = logs w
  ∧ (∀ p, p ≠ path_join out "NOTICE" → files w' !! p = files w !! p)
  ∧ (∀ path, r = Ok path →
       path = path_join out "NOTICE"
       ∧ ∃ opening template files1 fjs files2 own text,
           (if String.eqb cmd ""
            then read_text vendoring_name "api-notice.template" = Ok opening
            else ∃ t, read_text vendoring_name "cli-notice.template" = Ok t
                      ∧ str_format t [("command", cmd)] = Ok opening)
           ∧ read_text vendoring_name "NOTICE.template" = Ok template
           ∧ metadata_files "fastjsonschema" = Ok files1
           ∧ find files1 = Ok fjs
           ∧ metadata_files dist_name = Ok files2 ∧ find files2 = Ok own
           ∧ str_format template
               [("notice", opening); ("main_file", main_file);
                ("fastjsonschema_license", fjs);
                ("validate_pyproject_license", own)]
             = Ok text
           ∧ files w' !! path = Some (replace_text text replacements))
  ∧ (∀ e, r = Raise e →
       w' = w
       ∨ ∃ f rest, outcomes w = Some f :: rest ∧ e = raised f).
Proof.
  rewrite write_notice_split.
  destruct (notice_text _ _ _ _ _ _ _) as [text|e0] eqn:Etext.
  - apply notice_text_ok in Etext
      as (opening & template & f1 & fjs & f2 & own & Hinputs).
    unfold write_text, next_outcome, set_file, raise.
    cbv [mbind mret V_bind V_ret].
    destruct (outcomes w) as [|[f|] rest] eqn:Eout.
    + intros [= <- <-]. cbn [files logs].
      split; [done |]. split; [intros p Hp; by rewrite lookup_insert_ne |].
      split; [| done]. intros path [= <-]. split; [done |].
      exists opening, template, f1, fjs, f2, own, text.
      destruct Hinputs as (H1 & H2 & H3 & H4 & H5 & H6 & H7).
      by rewrite lookup_insert_eq.
    + destruct (left_in_file f); intros [= <- <-]; cbn [files logs];
        (split; [done |]);
        (split; [intros p Hp; by rewrite ?lookup_insert_ne |]);
        (split; [done |]); intros e [= <-]; right; by exists f, rest.
    + intros [= <- <-]. cbn [files logs].
      split; [done |]. split; [intros p Hp; by rewrite lookup_insert_ne |].
      split; [| done]. intros path [= <-]. split; [done |].
      exists opening, template, f1, fjs, f2, own, text.
      destruct Hinputs as (H1 & H2 & H3 & H4 & H5 & H6 & H7).
      by rewrite lookup_insert_eq.
  - intros [= <- <-]. split; [done |]. split; [done |]. split; [done |].
    intros e _. by left.
Qed.

(** What the steps of the pipeline keep: [kept], and the files of [names]
    being there. *)
Section Steps.
Variables (output_dir main_file : string) (fs0 : gmap string string).

Local Abbreviation K := (kept path_join output_dir main_file fs0).
Local Abbreviation J names :=
  (fun fs => kept path_join output_dir main_file fs0 fs
             ∧ present path_join output_dir names fs).

Lemma kept_insert name t fs :
  name ∈ written_names → K fs → K (<[path_join output_dir name := t]> fs).
Proof.
  intros Hname (Hframe & Hmono & Hmarker).
  assert (Hin : name ∈ vendored_names main_file).
  { unfold written_names in Hname.
    repeat (apply elem_of_cons in Hname as [-> | Hname];
            [solve [repeat first [by left | right]] |]).
    by apply elem_of_nil in Hname. }
  split; [| split].
  - intros p Hp. rewrite lookup_insert_ne by (intros <-; by apply (Hp name)).
    by apply Hframe.
  - intros p Hp. apply lookup_insert_is_Some'. right. by apply Hmono.
  - intros Hapart c Hc. rewrite lookup_insert_ne; [by apply Hmarker |].
    rewrite Forall_forall in Hapart. by apply Hapart.
Qed.

Lemma kept_created name fs :
  name ∈ vendored_names main_file → K fs →
  fs !! path_join output_dir name = None →
  K (<[path_join output_dir name := ""]> fs).
Proof.
  intros Hname (Hframe & Hmono & Hmarker) Hnone. split; [| split].
  - intros p Hp. rewrite lookup_insert_ne by (intros <-; by apply (Hp name)).
    by apply Hframe.
  - intros p Hp. apply lookup_insert_is_Some'. right. by apply Hmono.
  - intros Hapart c Hc. rewrite lookup_insert_ne; [by apply Hmarker |].
    intros Heq. rewrite Heq in Hnone.
    rewrite (Hmarker Hapart c Hc) in Hnone. done.
Qed.

Lemma present_insert names name p t fs :
  present path_join output_dir names fs →
  p = path_join output_dir name →
  present path_join output_dir (name :: names) (<[p := t]> fs).
Proof.
  intros Hpresent -> n Hn. apply lookup_insert_is_Some'.
  apply elem_of_cons in Hn as [-> | Hn]; [by left | right; by apply Hpresent].
Qed.

Lemma present_kept names p t fs :
  present path_join output_dir names fs →
  present path_join output_dir names (<[p := t]> fs).
Proof.
  intros Hpresent n Hn. apply lookup_insert_is_Some'. right. by apply Hpresent.
Qed.

Lemma present_there names name fs :
  present path_join output_dir names fs →
  is_Some (fs !! path_join output_dir name) →
  present path_join output_dir (name :: names) fs.
Proof.
  intros Hpresent Hname n Hn.
  apply elem_of_cons in Hn as [-> | Hn]; [done | by apply Hpresent].
Qed.

(** The pipeline, step by step. *)
Lemma vendorify_steps original_cmd plugins text_replacements :
  triple (on_files (J []))
    (run output_dir main_file original_cmd plugins text_replacements)
    (fun out w =>
       out = output_dir
       ∧ J [ "__init__.py"; "NOTICE"; main_file; "format.py";
             "extra_validations.py"; "fastjsonschema_exceptions.py";
             "fastjsonschema_validations.py" ] (files w))
    (fun _ => on_files K).
Proof.
  assert (Hquiet : ∀ names (A : Type) (m : V A),
            (∀ w, files (m w).2 = files w) →
            triple (on_files (J names)) m
              (fun _ => on_files (J names)) (fun _ => on_files K)).
  { intros names A m Hm. apply (triple_quiet (J names) K); [done |].
    by intros fs []. }
  assert (Hwrite : ∀ names name,
            name ∈ written_names →
            (∀ fs t, J names fs →
                     J (name :: names) (<[path_join output_dir name := t]> fs))
            ∧ (∀ fs, J names fs → K fs)
            ∧ (∀ fs t, J names fs →
                       K (<[path_join output_dir name := t]> fs))).
  { intros names name Hname. split; [| split].
    - intros fs t [HK HP]. split; [by apply kept_insert |].
      by apply present_insert.
    - by intros fs [].
    - intros fs t [HK _]. by apply kept_insert. }
  assert (Htouch : ∀ names name,
            name ∈ vendored_names main_file →
            (∀ fs, J names fs → is_Some (fs !! path_join output_dir name) →
                   J (name :: names) fs)
            ∧ (∀ fs, J names fs → fs !! path_join output_dir name = None →
                     J (name :: names) (<[path_join output_dir name := ""]> fs))
            ∧ (∀ fs, J names fs → K fs)).
  { intros names name Hname. split; [| split].
    - intros fs [HK HP] Hsome. split; [done | by apply present_there].
    - intros fs [HK HP] Hnone. split; [by apply kept_created |].
      by apply present_insert.
    - by intros fs []. }
  unfold vendorify. cbv zeta.
  eapply triple_bind; [apply Hquiet, quiet_mkdir | intros ?].
  eapply triple_bind; [apply Hquiet, quiet_liftM | intros validator].
  eapply triple_bind; [apply Hquiet, quiet_liftR | intros schema].
  destruct (Validator_formats validator) as [formats validator'].
  eapply triple_bind; [apply Hquiet, quiet_liftR | intros code].
  eapply triple_bind; [apply Hquiet, quiet_liftR | intros code'].
  destruct (Hwrite [] "fastjsonschema_validations.py") as (W1 & W1' & W1'');
    [by left |].
  eapply triple_bind;
    [apply (triple_write (J []) (J ["fastjsonschema_validations.py"]) K);
       [intros fs; apply W1 | exact W1' | exact W1'']
    | intros ?].
  destruct (Hwrite ["fastjsonschema_validations.py"]
              "fastjsonschema_exceptions.py") as (W2 & W2' & W2'');
    [right; by left |].
  eapply triple_bind;
    [apply (triple_copy_exceptions read_text path_join
              (J ["fastjsonschema_validations.py"])
              (J ["fastjsonschema_exceptions.py";
                  "fastjsonschema_validations.py"]) K);
       [exact W2 | exact W2' | exact W2'']
    | intros ?].
  destruct (Hwrite ["fastjsonschema_exceptions.py";
                    "fastjsonschema_validations.py"]
              "extra_validations.py") as (W3 & W3' & W3'');
    [do 2 right; by left |].
  eapply triple_bind;
    [apply (triple_copy_module read_text path_join
              (J ["fastjsonschema_exceptions.py";
                  "fastjsonschema_validations.py"])
              (J ["extra_validations.py"; "fastjsonschema_exceptions.py";
                  "fastjsonschema_validations.py"]) K "extra_validations");
       [exact W3 | exact W3' | exact W3'']
    | intros ?].
  destruct (Hwrite ["extra_validations.py"; "fastjsonschema_exceptions.py";
                    "fastjsonschema_validations.py"]
              "format.py") as (W4 & W4' & W4'');
    [do 3 right; by left |].
  eapply triple_bind;
    [apply (triple_copy_module read_text path_join
              (J ["extra_validations.py"; "fastjsonschema_exceptions.py";
                  "fastjsonschema_validations.py"])
              (J ["format.py"; "extra_validations.py";
                  "fastjsonschema_exceptions.py";
                  "fastjsonschema_validations.py"]) K "format");
       [exact W4 | exact W4' | exact W4'']
    | intros ?].
  eapply triple_bind; [apply Hquiet, quiet_liftR | intros schema'].
  destruct (Htouch ["format.py"; "extra_validations.py";
                    "fastjsonschema_exceptions.py";
                    "fastjsonschema_validations.py"]
              main_file) as (T5 & T5' & T5'');
    [do 4 right; by left |].
  eapply triple_bind;
    [apply (triple_write_main
              (J ["format.py"; "extra_validations.py";
                  "fastjsonschema_exceptions.py";
                  "fastjsonschema_validations.py"])
              (J [main_file; "format.py"; "extra_validations.py";
                  "fastjsonschema_exceptions.py";
                  "fastjsonschema_validations.py"]) K);
       [exact T5 | exact T5' | exact T5'']
    | intros ?].
  destruct (Hwrite [main_file; "format.py"; "extra_validations.py";
                    "fastjsonschema_exceptions.py";
                    "fastjsonschema_validations.py"]
              "NOTICE") as (W6 & W6' & W6'');
    [do 4 right; by left |].
  eapply triple_bind;
    [apply (triple_write_notice read_text str_format upper metadata_files
              dist_name path_join
              (J [main_file; "format.py"; "extra_validations.py";
                  "fastjsonschema_exceptions.py";
                  "fastjsonschema_validations.py"])
              (J ["NOTICE"; main_file; "format.py"; "extra_validations.py";
                  "fastjsonschema_exceptions.py";
                  "fastjsonschema_validations.py"]) K);
       [exact W6 | exact W6' | exact W6'']
    | intros ?].
  destruct (Htouch ["NOTICE"; main_file; "format.py"; "extra_validations.py";
                    "fastjsonschema_exceptions.py";
                    "fastjsonschema_validations.py"]
              "__init__.py") as (T7 & T7' & T7'');
    [do 6 right; by left |].
  eapply triple_bind;
    [apply (triple_touch
              (J ["NOTICE"; main_file; "format.py"; "extra_validations.py";
                  "fastjsonschema_exceptions.py";
                  "fastjsonschema_validations.py"])
              (J ["__init__.py"; "NOTICE"; main_file; "format.py";
                  "extra_validations.py"; "fastjsonschema_exceptions.py";
                  "fastjsonschema_validations.py"]) K);
       [exact T7 | exact T7' | exact T7'']
    | intros ?].
  apply triple_ret. by intros w1 H.
Qed.
End Steps.

(** Whatever its outcome, and whichever calls to the file system fail,
    [vendorify] changes no file but those the vendored names stand for in
    the output directory, removes no file, and leaves the content of a
    package marker that was already there, as long as no name of a file it
    writes stands for the marker.  When it returns, it returns the output
    directory, and each of the vendored files is there. *)
Theorem vendorify_files output_dir main_file original_cmd plugins
    text_replacements w r w' :
  run output_dir main_file original_cmd plugins text_replacements w = (r, w') →
  kept path_join output_dir main_file (files w) (files w')
  ∧ ∀ out, r = Ok out →
      out = output_dir
      ∧ present path_join output_dir (vendored_names main_file) (files w').
Proof.
  intros Hrun.
  pose proof (vendorify_steps output_dir main_file (files w) original_cmd
                plugins text_replacements w) as H.
  rewrite Hrun in H.
  assert (Hstart : kept path_join output_dir main_file (files w) (files w)
                   ∧ present path_join output_dir [] (files w)).
  { split; [by split; [| split] |].
    intros name Hname. by apply elem_of_nil in Hname. }
  specialize (H Hstart).
  destruct r as [out|e]; [| by split].
  destruct H as (-> & HK & HP).
  split; [done |]. intros out [= <-]. split; [done |].
  intros name Hname. apply HP. unfold vendored_names in Hname.
  rewrite !elem_of_cons, elem_of_nil in *. tauto.
Qed.
End VendoringMore.

Lemma first_license_file_witness :
  _find_and_load_licence Sample.upper (Some Sample.licensed_files)
  = Ok "MPL-2.0".
Proof.
  apply (first_license_file Sample.upper
           [ {| stem := "METADATA";
                read_text_of := Ok "Name: validate-pyproject" |} ]
           [ {| stem := "LICENSE"; read_text_of := Ok "another text" |} ]
           {| stem := "license"; read_text_of := Ok "MPL-2.0" |}).
  - repeat constructor. vm_compute. discriminate.
  - reflexivity.
Defined.

Lemma write_notice_writes_witness :
  let '(r, w') :=
    write_notice Sample.read_text Sample.str_format Sample.upper
      Sample.metadata_files_ok Sample.dist_name Sample.path_join
      "out" "__init__.py" "" [("MPL", "Mozilla Public License")]
      Sample.used_disk in
  r = Ok "out/NOTICE"
  ∧ files w' !! "out/README" = Some "kept"
  ∧ ∃ text,
      Sample.str_format
        ("# validate_pyproject.vendoring/NOTICE.template" +:+ NL)
        [ ("notice", "# validate_pyproject.vendoring/api-notice.template" +:+ NL);
          ("main_file", "__init__.py");
          ("fastjsonschema_license", "BSD 3-Clause");
          ("validate_pyproject_license", "MPL-2.0") ] = Ok text
      ∧ files w' !! "out/NOTICE"
        = Some (replace_text text [("MPL", "Mozilla Public License")]).
Proof.
  destruct (write_notice _ _ _ _ _ _ _ _ _ _ _) as [r w'] eqn:E.
  destruct (write_notice_writes _ _ _ _ _ _ _ _ _ _ _ _ _ E)
    as (_ & Hframe & Hok & _).
  assert (Hr : r = Ok "out/NOTICE") by (vm_compute in E; congruence).
  split; [exact Hr |]. split.
  - rewrite Hframe by discriminate. reflexivity.
  - destruct (Hok _ Hr)
      as (_ & opening & template & f1 & fjs & f2 & own & text
          & Ho & Ht & Hf1 & Hfjs & Hf2 & Hown & Htext & Hfile).
    exists text. split; [| exact Hfile].
    cbn in Ho. injection Ho as <-. injection Ht as <-.
    injection Hf1 as <-. injection Hfjs as <-.
    injection Hf2 as <-. injection Hown as <-.
    exact Htext.
Defined.

Lemma vendorify_files_witness :
  let '(r, w') := Sample.vendor Sample.metadata_files_ok Sample.used_disk in
  let '(r2, w2) := Sample.vendor Sample.metadata_files_ok Sample.full_disk in
  r = Ok "out"
  ∧ files w' !! "out/README" = Some "kept"
  ∧ files w' !! "out/__init__.py" = Some "# mine"
  ∧ is_Some (files w' !! "out/NOTICE")
  ∧ is_Some (files w' !! "out/fastjsonschema_validations.py")
  ∧ r2 = Raise (OtherError "OSError")
  ∧ files w2 !! "out/README" = Some "kept"
  ∧ files w2 !! "out/__init__.py" = Some "# mine".
Proof.
  assert (Hother : ∀ name, name ∈ vendored_names "__init__.py" →
                     "out/README" ≠ Sample.path_join "out" name).
  { intros name Hname. unfold vendored_names in Hname.
    repeat (apply elem_of_cons in Hname as [-> | Hname];
            [vm_compute; discriminate |]).
    by apply elem_of_nil in Hname. }
  assert (Hapart : Forall (fun name => Sample.path_join "out" name
                                       ≠ Sample.path_join "out" "__init__.py")
                     written_names)
    by (repeat constructor; vm_compute; discriminate).
  destruct (Sample.vendor _ Sample.used_disk) as [r w'] eqn:E.
  destruct (Sample.vendor _ Sample.full_disk) as [r2 w2] eqn:E2.
  unfold Sample.vendor in E, E2.
  destruct (vendorify_files _ _ _ _ _ _ _ _ _ _ _ _ _ _ _ _ _ _ _ _ _ _ _ _ E)
    as ((Hframe & _ & Hmarker) & Hok).
  destruct (vendorify_files _ _ _ _ _ _ _ _ _ _ _ _ _ _ _ _ _ _ _ _ _ _ _ _ E2)
    as ((Hframe2 & _ & Hmarker2) & _).
  assert (Hr : r = Ok "out") by (vm_compute in E; congruence).
  assert (Hr2 : r2 = Raise (OtherError "OSError"))
    by (vm_compute in E2; congruence).
  destruct (Hok _ Hr) as [_ Hfiles].
  split; [exact Hr |]. split; [| split; [| split; [| split; [| split; [| split]]]]].
  - by rewrite Hframe.
  - by apply (Hmarker Hapart "# mine").
  - apply (Hfiles "NOTICE"). do 5 right. by left.
  - apply (Hfiles "fastjsonschema_validations.py"). by left.
  - exact Hr2.
  - by rewrite Hframe2.
  - by apply (Hmarker2 Hapart "# mine").
Defined.

(** ** More on the patching of the generated code *)

Section FixMore.
Variable re_flag : string -> Z.
Variable repr : string -> string.
Variable sub_validation_fn_def : string -> string.
Variable literal_eval : string -> result string.
Variable pickle_loads : string -> result (list (string * Pattern)).

Local Abbreviation fix_code :=
  (_fix_generated_code re_flag repr sub_validation_fn_def literal_eval
     pickle_loads).

(** Whatever the code, what the pass returns starts with the seven
    directives for the checkers, one per line and in the order of
    [NOCHECK_HEADERS]. *)
Theorem generated_code_headers (code out : string) :
  fix_code code = Ok out →
  ∃ rest,
    split_lines out
    = "# noqa" :: "# type: ignore" :: "# flake8: noqa"
      :: "# pylint: skip-file" :: "# mypy: ignore-errors"
      :: "# yapf: disable" :: "# pylama:skip=1" :: rest.
Proof.
  unfold _fix_generated_code. cbv [mbind mret result_bind result_ret].
  assert (H : ∀ body,
            ∃ rest,
              split_lines (String.concat NL NOCHECK_HEADERS +:+ body)
              = "# noqa" :: "# type: ignore" :: "# flake8: noqa"
                :: "# pylint: skip-file" :: "# mypy: ignore-errors"
                :: "# yapf: disable" :: "# pylama:skip=1" :: rest).
  { intros body.
    assert (E : String.concat NL NOCHECK_HEADERS +:+ body
                = "# noqa" +:+ NL +:+ "# type: ignore" +:+ NL
                  +:+ "# flake8: noqa" +:+ NL +:+ "# pylint: skip-file" +:+ NL
                  +:+ "# mypy: ignore-errors" +:+ NL +:+ "# yapf: disable"
                  +:+ NL +:+ "# pylama:skip=1" +:+ NL
                  +:+ (NL +:+ NL
                       +:+ "# *** PLEASE DO NOT MODIFY DIRECTLY: Automatically generated code *** "
                       +:+ NL +:+ NL +:+ NL +:+ body)) by reflexivity.
    rewrite E, !split_lines_app_nl. by eexists. }
  destruct (search_pickled _) as [[g0 g1]|].
  - destruct (literal_eval g1) as [bytes|]; [| done].
    destruct (pickle_loads bytes) as [regexes|]; [| done].
    intros [= <-]. apply H.
  - intros [= <-]. apply H.
Qed.

Lemma first_pickled_none (ls : list string) :
  Forall (fun line => match_pickled_line line = None) ls →
  first_pickled ls = None.
Proof.
  induction 1 as [|l ls Hl _ IH]; [done |].
  cbn [first_pickled]. by rewrite Hl.
Qed.

(** Code of which no line matches [PICKLED_PATTERNS] once the signature
    pass is over goes through as that pass left it, behind the headers:
    [import re, pickle] is not rewritten, nothing is unpickled, and the
    result has no pickled assignment either. *)
Theorem no_table_passthrough (code : string) :
  Forall (fun line => match_pickled_line line = None)
    (split_lines (sub_validation_fn_def code)) →
  fix_code code
  = Ok (String.concat NL NOCHECK_HEADERS +:+ sub_validation_fn_def code)
  ∧ search_pickled
      (String.concat NL NOCHECK_HEADERS +:+ sub_validation_fn_def code)
    = None.
Proof.
  intros H. apply first_pickled_none in H. fold (search_pickled
    (sub_validation_fn_def code)) in H. split.
  - unfold _fix_generated_code. by rewrite H.
  - by rewrite headers_searched.
Qed.

Lemma land_flags_value (x : Z) (names : list string) :
  Z.land x (flags_value re_flag names) = 0 →
  ∀ f, f ∈ names → Z.land x (re_flag f) = 0.
Proof.
  induction names as [|g names IH]; intros H f Hf;
    [by apply elem_of_nil in Hf |].
  cbn [flags_value fold_right] in H. fold (flags_value re_flag names) in H.
  rewrite Z.land_lor_distr_r in H. apply Z.lor_eq_0_iff in H as [Hg H].
  apply elem_of_cons in Hf as [-> | Hf]; [done | by apply IH].
Qed.

(** A compiled regex whose flags have none of the bits named in
    [all_flags] is printed without a flags argument, whatever other bits
    are set. *)
Theorem repr_regex_without_named_flags (regex : Pattern) :
  Z.land (flags regex) (flags_value re_flag all_flags) = 0 →
  _repr_regex re_flag repr regex
  = "re.compile(" +:+ repr (pattern regex) +:+ ")".
Proof.
  intros H.
  assert (Hnone : ∀ names,
            (∀ f, f ∈ names → Z.land (flags regex) (re_flag f) = 0) →
            filter (fun f => Z.land (flags regex) (re_flag f) ≠ 0) names = []).
  { induction names as [|f names IH]; intros Hf; [done |].
    rewrite filter_cons, decide_False.
    - apply IH. intros g Hg. apply Hf. by right.
    - intros Hset. apply Hset, Hf. by left. }
  unfold _repr_regex, flags_set.
  by rewrite (Hnone all_flags (land_flags_value _ _ H)).
Qed.
End FixMore.

Lemma generated_code_headers_witness :
  ∃ rest,
    split_lines
      (String.concat NL NOCHECK_HEADERS
       +:+ "import re" +:+ NL
       +:+ "REGEX_PATTERNS = {" +:+ NL
       +:+ "    '^[a-z]+$': re.compile('^[a-z]+$', re.I)" +:+ NL
       +:+ "}" +:+ NL
       +:+ "def validate(data, custom_formats):" +:+ NL
       +:+ "    return data" +:+ NL)
    = "# noqa" :: "# type: ignore" :: "# flake8: noqa"
      :: "# pylint: skip-file" :: "# mypy: ignore-errors"
      :: "# yapf: disable" :: "# pylama:skip=1" :: rest.
Proof.
  apply (generated_code_headers Sample.re_flag Sample.repr Sample.sub_signature
           Sample.literal_eval Sample.pickle_loads Sample.generated).
  vm_compute. reflexivity.
Defined.

Lemma no_table_passthrough_witness :
  _fix_generated_code Sample.re_flag Sample.repr Sample.sub_signature
    Sample.literal_eval Sample.pickle_loads
    ("import re, pickle" +:+ NL +:+ "def validate(data):" +:+ NL)
  = Ok (String.concat NL NOCHECK_HEADERS
        +:+ "import re, pickle" +:+ NL
        +:+ "def validate(data, custom_formats):" +:+ NL).
Proof.
  apply (no_table_passthrough Sample.re_flag Sample.repr Sample.sub_signature
           Sample.literal_eval Sample.pickle_loads
           ("import re, pickle" +:+ NL +:+ "def validate(data):" +:+ NL)).
  vm_compute. repeat constructor.
Defined.

Lemma repr_regex_without_named_flags_witness :
  _repr_regex Sample.re_flag Sample.repr {| pattern := "^x$"; flags := 32 |}
  = "re.compile('^x$')".
Proof.
  apply (repr_regex_without_named_flags Sample.re_flag Sample.repr
           {| pattern := "^x$"; flags := 32 |}).
  reflexivity.
Defined.
